(** * Wallet service: the transfer engine of [src/utils/walletService.js]

    A shallow embedding of the wallet service and of the four Mongoose
    collections it works on, followed by the properties of the engine.

    Modelling conventions.
    - A collection is the list of its documents, in insertion order.
    - A JavaScript [Number] is an exact rational ([Q]); the rounding of
      IEEE doubles, the infinities and [NaN] are not represented. The
      arithmetic of the model and that of the code agree where no rounding
      occurs, as on the integers up to [2^53 - 1]; a theorem that states a
      computed balance says so where it needs it.
    - An [ObjectId] of an account or an asset type is the string that
      [toString()] gives (24 hexadecimal digits), because the engine sorts and
      compares these ids through their strings. A string that is no
      [ObjectId] is an id that no document has: the cast error that Mongoose
      raises for it before the lookup is not represented. The ids of
      Transactions and LedgerEntries are only ever compared for equality and
      are natural numbers; a new document receives an id that no stored
      document has.
    - Every store call is awaited and is one atomic step on the store.
      Other workers may change the store between two store calls of a
      request: the service is parametrised by an environment [env], and
      [yield], which stands between two awaited calls, applies [env k] to the
      store at the [k]-th suspension point. [quiet] is the environment that
      does nothing.
    - A request leaves the store calls it issues, in their order and with
      their outcomes, in a trace.
    - An exception is a result [inl e]; the store keeps what was written
      before the exception. *)

From Stdlib Require Import String Ascii List Bool Arith ZArith QArith Qround Lia.
From Stdlib Require DecimalString.
Import ListNotations.
Open Scope string_scope.
Open Scope Q_scope.
Open Scope list_scope.

(** ** Documents *)

Definition ObjectId := string.
Definition Obj := list (string * string).

(** [obj[k] = v]: a key that is present keeps its place and takes the new
    value, a new key comes last. *)
Fixpoint set_key (k v : string) (o : Obj) : Obj :=
  match o with
  | [] => [(k, v)]
  | (k', v') :: r =>
    if (k' =? k)%string then (k, v) :: r else (k', v') :: set_key k v r
  end.

(** [{ ...base, ...extra }]: the properties of [base], then those of
    [extra] in their order; a key of [extra] that [base] has overrides its
    value where it stands. *)
Definition spread (base extra : Obj) : Obj :=
  fold_left (fun o kv => set_key (fst kv) (snd kv) o) extra base.

Module AssetType.
Record t := mk {
  _id : ObjectId;
  code : string;
  name : string;
  description : string;
  decimalPlaces : nat;
  isActive : bool
}.
End AssetType.

Inductive AccountType := user | system.

Definition AccountType_eqb (a b : AccountType) : bool :=
  match a, b with
  | user, user | system, system => true
  | _, _ => false
  end.

Module Account.
Record t := mk {
  _id : ObjectId;
  userId : string;
  accountType : AccountType;
  assetType : ObjectId;
  balance : Q;
  displayName : string;
  isActive : bool;
  metadata : Obj
}.

Definition set_balance (b : Q) (a : t) : t :=
  mk (_id a) (userId a) (accountType a) (assetType a) b
     (displayName a) (isActive a) (metadata a).

Definition set_isActive (v : bool) (a : t) : t :=
  mk (_id a) (userId a) (accountType a) (assetType a) (balance a)
     (displayName a) v (metadata a).
End Account.

Module TxType.
Inductive t := topup | bonus | spend | adjustment.
End TxType.
Inductive Status := pending | completed | failed.
Inductive EntryType := credit | debit.

Module Transaction.
Record t := mk {
  _id : nat;
  idempotencyKey : string;
  assetType : ObjectId;
  fromAccount : ObjectId;
  toAccount : ObjectId;
  amount : Q;
  type : TxType.t;
  status : Status;
  description : string;
  metadata : Obj;
  ledgerEntries : list nat;
  failureReason : option string
}.

Definition set_status (st : Status) (x : t) : t :=
  mk (_id x) (idempotencyKey x) (assetType x) (fromAccount x) (toAccount x)
     (amount x) (type x) st (description x) (metadata x)
     (ledgerEntries x) (failureReason x).

Definition set_ledgerEntries (l : list nat) (x : t) : t :=
  mk (_id x) (idempotencyKey x) (assetType x) (fromAccount x) (toAccount x)
     (amount x) (type x) (status x) (description x) (metadata x)
     l (failureReason x).

Definition set_failureReason (r : option string) (x : t) : t :=
  mk (_id x) (idempotencyKey x) (assetType x) (fromAccount x) (toAccount x)
     (amount x) (type x) (status x) (description x) (metadata x)
     (ledgerEntries x) r.
End Transaction.

Module LedgerEntry.
Record t := mk {
  _id : nat;
  transactionId : nat;
  account : ObjectId;
  assetType : ObjectId;
  entryType : EntryType;
  amount : Q;
  balanceAfter : Q;
  description : string
}.
End LedgerEntry.

(** ** The store: four collections *)

Record Store := mkStore {
  assetTypes : list AssetType.t;
  accounts : list Account.t;
  transactions : list Transaction.t;
  ledger : list LedgerEntry.t
}.

Definition set_accounts (l : list Account.t) (s : Store) : Store :=
  mkStore (assetTypes s) l (transactions s) (ledger s).
Definition set_transactions (l : list Transaction.t) (s : Store) : Store :=
  mkStore (assetTypes s) (accounts s) l (ledger s).
Definition set_ledger (l : list LedgerEntry.t) (s : Store) : Store :=
  mkStore (assetTypes s) (accounts s) (transactions s) l.

(** ** Errors

    One constructor per [throw] site of the service and per error the store
    raises; [message] is the error's [message] property. *)

Inductive Error :=
| AmountNotPositive
| SourceNotFound (id : ObjectId)
| DestinationNotFound (id : ObjectId)
| SourceInactive
| DestinationInactive
| AssetMismatch
| DuplicateKey
| ValidationError (model : string) (failures : list (string * string))
| TransactionConflict
| InsufficientBalance (userId : string) (has needs : Q)
| CreditFailed (userId : string)
| DocumentNotFound
| AssetNotFound (code : string)
| WalletNotFound (userId : string)
| WalletInactive (userId : string)
| SystemAccountNotFound (userId : string).

(** The [code] property of an error: only the duplicate-key error of the
    unique index carries one (E11000). *)
Definition error_code (e : Error) : option Z :=
  match e with
  | DuplicateKey => Some 11000%Z
  | _ => None
  end.

(** [err.code === 11000] *)
Definition is_duplicate_key (e : Error) : bool :=
  match error_code e with
  | Some c => (c =? 11000)%Z
  | None => false
  end.

(** ** Queries and updates on the collections *)

Definition fresh_id (ids : list nat) : nat := S (list_max ids).

Definition tx_key_matches (key : string) (asset : ObjectId) (x : Transaction.t) : bool :=
  ((Transaction.idempotencyKey x =? key) && (Transaction.assetType x =? asset))%string.

(** [Transaction.findOne({ idempotencyKey, assetType })] *)
Definition Transaction_findOne (key : string) (asset : ObjectId) (s : Store)
  : option Transaction.t :=
  find (tx_key_matches key asset) (transactions s).

Definition is_nil {A} (l : list A) : bool :=
  match l with [] => true | _ => false end.

(** The schema's validator of [amount]: [min: [0.000001, 'Amount must be positive']]. *)
Definition amount_min : Q := 1 # 1000000.
Definition amount_valid (a : Q) : bool := Qle_bool amount_min a.

(** The validators of the Transaction schema that a document of the model
    can fail: [idempotencyKey] is required, which an empty string is not, and
    [amount] has its minimum. Each failure is a path and its message. *)
Definition Transaction_validate (doc : Transaction.t) : list (string * string) :=
  (if (Transaction.idempotencyKey doc =? "")%string
   then [("idempotencyKey", "Path `idempotencyKey` is required.")] else [])
  ++ (if amount_valid (Transaction.amount doc)
      then [] else [("amount", "Amount must be positive")]).

(** [Transaction.create(doc)]: validation, then the insert under the unique
    index on [(idempotencyKey, assetType)]. The document receives its id. *)
Definition Transaction_create (doc : Transaction.t) (s : Store)
  : (Error + Transaction.t) * Store :=
  if negb (is_nil (Transaction_validate doc)) then
    (inl (ValidationError "Transaction" (Transaction_validate doc)), s)
  else
    match Transaction_findOne (Transaction.idempotencyKey doc)
                              (Transaction.assetType doc) s with
    | Some _ => (inl DuplicateKey, s)
    | None =>
      let x := Transaction.mk
                 (fresh_id (map Transaction._id (transactions s)))
                 (Transaction.idempotencyKey doc) (Transaction.assetType doc)
                 (Transaction.fromAccount doc) (Transaction.toAccount doc)
                 (Transaction.amount doc) (Transaction.type doc)
                 (Transaction.status doc) (Transaction.description doc)
                 (Transaction.metadata doc) (Transaction.ledgerEntries doc)
                 (Transaction.failureReason doc) in
      (inr x, set_transactions (transactions s ++ [x]) s)
    end.

(** Update of the first document that satisfies [p]; the updated document is
    returned ([{ new: true }]), [None] when no document matches. *)
Fixpoint update_first {A} (p : A -> bool) (f : A -> A) (l : list A)
  : option A * list A :=
  match l with
  | [] => (None, [])
  | x :: r =>
    if p x then (Some (f x), f x :: r)
    else let '(o, r') := update_first p f r in (o, x :: r')
  end.

(** [transaction.save()] after the status and the ledger entries were set on
    the document in memory: the two modified paths are written to the stored
    document of that id; saving a document that is no longer stored fails. *)
Definition Transaction_save (x : Transaction.t) (s : Store)
  : (Error + unit) * Store :=
  match update_first (fun y => Transaction._id y =? Transaction._id x)%nat
          (fun y => Transaction.set_ledgerEntries (Transaction.ledgerEntries x)
                      (Transaction.set_status (Transaction.status x) y))
          (transactions s) with
  | (Some _, l) => (inr tt, set_transactions l s)
  | (None, _) => (inl DocumentNotFound, s)
  end.

(** [Transaction.findByIdAndUpdate(id, { status, failureReason })] *)
Definition Transaction_findByIdAndUpdate (id : nat) (st : Status) (reason : string)
  (s : Store) : option Transaction.t * Store :=
  let '(o, l) := update_first (fun y => Transaction._id y =? id)%nat
          (fun y => Transaction.set_failureReason (Some reason)
                      (Transaction.set_status st y))
          (transactions s) in
  (o, match o with Some _ => set_transactions l s | None => s end).

(** [Account.findById(id)] *)
Definition Account_findById (id : ObjectId) (s : Store) : option Account.t :=
  find (fun a => Account._id a =? id)%string (accounts s).

(** [Account.findOne({ userId, assetType })] *)
Definition Account_findOne (uid : string) (asset : ObjectId) (s : Store)
  : option Account.t :=
  find (fun a => (Account.userId a =? uid) && (Account.assetType a =? asset))%string
       (accounts s).

(** [Account.findOne({ userId, assetType, accountType: 'system' })] *)
Definition Account_findOne_system (uid : string) (asset : ObjectId) (s : Store)
  : option Account.t :=
  find (fun a => (Account.userId a =? uid)%string
                 && (Account.assetType a =? asset)%string
                 && AccountType_eqb (Account.accountType a) system)
       (accounts s).

(** [Account.findOneAndUpdate(filter, { $inc: { balance: d } }, { new: true })] *)
Definition Account_findOneAndUpdate (filter : Account.t -> bool) (d : Q) (s : Store)
  : option Account.t * Store :=
  let '(o, l) := update_first filter
                   (fun a => Account.set_balance (Account.balance a + d) a)
                   (accounts s) in
  (o, match o with Some _ => set_accounts l s | None => s end).

(** [LedgerEntry.create(doc)] *)
Definition LedgerEntry_create (doc : LedgerEntry.t) (s : Store)
  : (Error + LedgerEntry.t) * Store :=
  if negb (amount_valid (LedgerEntry.amount doc)) then
    (inl (ValidationError "LedgerEntry" [("amount", "Amount must be positive")]),
     s)
  else
    let e := LedgerEntry.mk
               (fresh_id (map LedgerEntry._id (ledger s)))
               (LedgerEntry.transactionId doc) (LedgerEntry.account doc)
               (LedgerEntry.assetType doc) (LedgerEntry.entryType doc)
               (LedgerEntry.amount doc) (LedgerEntry.balanceAfter doc)
               (LedgerEntry.description doc) in
    (inr e, set_ledger (ledger s ++ [e]) s).

(** [AssetType.findOne({ code, isActive: true })] *)
Definition AssetType_findOne_active (c : string) (s : Store) : option AssetType.t :=
  find (fun a => (AssetType.code a =? c)%string && AssetType.isActive a)
       (assetTypes s).

(** ** The engine's monad: store, suspension points, trace, exceptions *)

Inductive Event :=
| EvAssetFindOne (code : string)
| EvAccountFindOne (userId : string) (asset : ObjectId)
| EvSystemAccountFindOne (userId : string) (asset : ObjectId)
| EvTxFindOne (key : string) (asset : ObjectId)
| EvAccountFindById (id : ObjectId)
| EvTxCreate (key : string) (asset : ObjectId) (outcome : Error + nat)
| EvSleep (ms : nat)
| EvDebit (id : ObjectId) (amount : Q) (matched : bool)
| EvCredit (id : ObjectId) (amount : Q) (matched : bool)
| EvLedgerCreate (tx : nat) (account : ObjectId) (entry : EntryType) (amount : Q)
    (inserted : bool)
| EvTxSave (id : nat) (saved : bool)
| EvTxMarkFailed (id : nat) (reason : string).

Record World := mkWorld {
  store : Store;
  clock : nat;
  trace : list Event
}.

Definition init (s : Store) : World := mkWorld s 0 [].

Definition M (A : Type) : Type := World -> (Error + A) * World.

Definition ret {A} (a : A) : M A := fun w => (inr a, w).

Definition bind {A B} (m : M A) (k : A -> M B) : M B :=
  fun w => match m w with
           | (inr a, w') => k a w'
           | (inl e, w') => (inl e, w')
           end.

Definition throw {A} (e : Error) : M A := fun w => (inl e, w).

(** [try { m } catch (err) { h err }] *)
Definition try_catch {A} (m : M A) (h : Error -> M A) : M A :=
  fun w => match m w with
           | (inr a, w') => (inr a, w')
           | (inl e, w') => h e w'
           end.

Declare Scope monad_scope.
Delimit Scope monad_scope with monad.
Notation "x <- m ;; k" := (bind m (fun x => k))
  (at level 100, m at next level, right associativity) : monad_scope.
Notation "m ;; k" := (bind m (fun _ => k))
  (at level 100, right associativity) : monad_scope.
Open Scope monad_scope.

Definition log (e : Event) : M unit :=
  fun w => (inr tt, mkWorld (store w) (clock w) (trace w ++ [e])).

(** The store calls. Each is one atomic step on the store and leaves its
    event, with its outcome, in the trace. *)
Definition query {A} (f : Store -> A) (ev : Event) : M A :=
  fun w => (inr (f (store w)), mkWorld (store w) (clock w) (trace w ++ [ev])).

Definition update {A} (f : Store -> A * Store) (ev : A -> Event) : M A :=
  fun w => let '(a, s) := f (store w) in
           (inr a, mkWorld s (clock w) (trace w ++ [ev a])).

Definition update_or_fail {A} (f : Store -> (Error + A) * Store)
  (ev : Error + A -> Event) : M A :=
  fun w => let '(r, s) := f (store w) in
           (r, mkWorld s (clock w) (trace w ++ [ev r])).

Definition is_some {A} (o : option A) : bool :=
  match o with Some _ => true | None => false end.

Definition is_inr {A B} (r : A + B) : bool :=
  match r with inr _ => true | inl _ => false end.

Definition Env := nat -> Store -> Store.
Definition quiet : Env := fun _ s => s.

(** [[a, b].sort()]: the default comparison of [Array.prototype.sort] orders
    the elements by their strings; the sort is stable. *)
Fixpoint sort_insert (x : string) (l : list string) : list string :=
  match l with
  | [] => [x]
  | y :: r => if String.leb x y then x :: y :: r else y :: sort_insert x r
  end.

Definition Array_sort (l : list string) : list string :=
  fold_right sort_insert [] l.

(** [String.prototype.toUpperCase], on ASCII letters. *)
Definition upper_ascii (c : ascii) : ascii :=
  let n := nat_of_ascii c in
  if ((97 <=? n) && (n <=? 122))%nat then ascii_of_nat (n - 32) else c.

Fixpoint toUpperCase (s : string) : string :=
  match s with
  | EmptyString => EmptyString
  | String c r => String (upper_ascii c) (toUpperCase r)
  end.

(** ** The wallet service *)

Record Params := mkParams {
  idempotencyKey : string;
  fromAccountId : ObjectId;
  toAccountId : ObjectId;
  assetTypeId : ObjectId;
  amount : Q;
  type : TxType.t;
  description : string;
  metadata : Obj
}.

(** The document handed to [Transaction.create]; the store gives it its id. *)
Definition pendingTransaction (p : Params) : Transaction.t :=
  Transaction.mk 0 (idempotencyKey p) (assetTypeId p)
    (fromAccountId p) (toAccountId p) (amount p) (type p) pending
    (description p) (metadata p) [] None.

(** The filter of the conditional debit:
    [{ _id, balance: { $gte: amount }, isActive: true }]. *)
Definition debit_filter (id : ObjectId) (amt : Q) (a : Account.t) : bool :=
  (Account._id a =? id)%string && Qle_bool amt (Account.balance a)
  && Account.isActive a.

(** The filter of the credit: [{ _id, isActive: true }]. *)
Definition credit_filter (id : ObjectId) (a : Account.t) : bool :=
  (Account._id a =? id)%string && Account.isActive a.

(** [!amount || amount <= 0] *)
Definition amount_rejected (amt : Q) : bool :=
  Qeq_bool amt 0 || Qle_bool amt 0.

Section Service.

(** [Number.prototype.toString], used by the template strings of messages
    and descriptions; it belongs to the language, not to the service. *)
Variable Number_toString : Q -> string.

(** What the other workers do to the store at each suspension point. *)
Variable env : Env.

Definition message (e : Error) : string :=
  match e with
  | AmountNotPositive => "Amount must be a positive number"
  | SourceNotFound id => "Source account not found: " ++ id
  | DestinationNotFound id => "Destination account not found: " ++ id
  | SourceInactive => "Source account is inactive"
  | DestinationInactive => "Destination account is inactive"
  | AssetMismatch => "Account asset type mismatch"
  | DuplicateKey => "E11000 duplicate key error"
  | ValidationError model failures =>
      model ++ " validation failed: "
      ++ String.concat ", " (map (fun f => fst f ++ ": " ++ snd f) failures)
  | TransactionConflict => "Transaction conflict — please retry"
  | InsufficientBalance u has needs =>
      "Insufficient balance. Account " ++ u ++ " has " ++ Number_toString has
      ++ ", needs " ++ Number_toString needs ++ "."
  | CreditFailed u => "Failed to credit account " ++ u
  | DocumentNotFound => "No document found for query"
  | AssetNotFound c => "Asset type not found or inactive: " ++ c
  | WalletNotFound u => "Wallet not found for user: " ++ u
  | WalletInactive u => "Wallet is inactive for user: " ++ u
  | SystemAccountNotFound u => "System account not found: " ++ u
  end%string.

(** The request is suspended; the other workers run. *)
Definition yield : M unit :=
  fun w => (inr tt, mkWorld (env (clock w) (store w)) (S (clock w)) (trace w)).

(** [await new Promise((r) => setTimeout(r, ms))] *)
Definition sleep (ms : nat) : M unit :=
  log (EvSleep ms) ;; yield.

(** [Promise.all([m1, m2])]: both calls are issued; the first rejection is
    the rejection of the whole. *)
Definition Promise_all2 {A B} (m1 : M A) (m2 : M B) : M (A * B) :=
  fun w =>
    let '(r1, w1) := m1 w in
    let '(_, w1') := yield w1 in
    let '(r2, w2) := m2 w1' in
    (match r1, r2 with
     | inl e, _ => inl e
     | inr _, inl e => inl e
     | inr a, inr b => inr (a, b)
     end, w2).

Definition findTransaction (key : string) (asset : ObjectId)
  : M (option Transaction.t) :=
  query (Transaction_findOne key asset) (EvTxFindOne key asset).

Definition findAccountById (id : ObjectId) : M (option Account.t) :=
  query (Account_findById id) (EvAccountFindById id).

Definition _atomicDebit (account : Account.t) (amt : Q) (transactionId : nat)
  : M Account.t :=
  updated <- update (Account_findOneAndUpdate
                       (debit_filter (Account._id account) amt) (- amt))
                    (fun o => EvDebit (Account._id account) amt (is_some o)) ;;
  match updated with
  | None => throw (InsufficientBalance (Account.userId account)
                                       (Account.balance account) amt)
  | Some u => ret u
  end.

Definition _atomicCredit (account : Account.t) (amt : Q) (transactionId : nat)
  : M Account.t :=
  updated <- update (Account_findOneAndUpdate
                       (credit_filter (Account._id account)) amt)
                    (fun o => EvCredit (Account._id account) amt (is_some o)) ;;
  match updated with
  | None => throw (CreditFailed (Account.userId account))
  | Some u => ret u
  end.

Definition createLedgerEntry (tx : nat) (acc asset : ObjectId) (et : EntryType)
  (amt after : Q) (descr : string) : M LedgerEntry.t :=
  update_or_fail (LedgerEntry_create
                    (LedgerEntry.mk 0 tx acc asset et amt after descr))
                 (fun r => EvLedgerCreate tx acc et amt (is_inr r)).

(** Steps 5 to 7 of [_executeTransfer]: the body of its second [try]. *)
Definition applyTransfer (p : Params) (fromAccount toAccount : Account.t)
  (transaction : Transaction.t) : M (Transaction.t * bool) :=
  let tid := Transaction._id transaction in
  let firstId := hd ""%string (Array_sort [fromAccountId p; toAccountId p]) in
  let processInOrder := (firstId =? fromAccountId p)%string in
  yield ;;
  upd <- (if processInOrder then
            updatedFrom <- _atomicDebit fromAccount (amount p) tid ;;
            yield ;;
            updatedTo <- _atomicCredit toAccount (amount p) tid ;;
            ret (updatedFrom, updatedTo)
          else
            updatedTo <- _atomicCredit toAccount (amount p) tid ;;
            yield ;;
            updatedFrom <- _atomicDebit fromAccount (amount p) tid ;;
            ret (updatedFrom, updatedTo)) ;;
  let '(updatedFrom, updatedTo) := upd in
  yield ;;
  entries <- Promise_all2
    (createLedgerEntry tid (fromAccountId p) (assetTypeId p) debit (amount p)
       (Account.balance updatedFrom) (description p))
    (createLedgerEntry tid (toAccountId p) (assetTypeId p) credit (amount p)
       (Account.balance updatedTo) (description p)) ;;
  let '(debitEntry, creditEntry) := entries in
  let transaction' :=
    Transaction.set_ledgerEntries
      [LedgerEntry._id debitEntry; LedgerEntry._id creditEntry]
      (Transaction.set_status completed transaction) in
  yield ;;
  update_or_fail (Transaction_save transaction')
                 (fun r => EvTxSave tid (is_inr r)) ;;
  ret (transaction', false).

(** The [catch] of the second [try]: the transaction is marked failed, the
    error is thrown again. *)
Definition markFailed (transaction : Transaction.t) (err : Error)
  : M (Transaction.t * bool) :=
  yield ;;
  update (Transaction_findByIdAndUpdate (Transaction._id transaction) failed
            (message err))
         (fun _ => EvTxMarkFailed (Transaction._id transaction) (message err)) ;;
  throw err.

(** The [catch] of the first [try], around [Transaction.create]. *)
Definition onCreateError (p : Params) (err : Error) : M (Transaction.t * bool) :=
  if is_duplicate_key err then
    sleep 50 ;;
    raced <- findTransaction (idempotencyKey p) (assetTypeId p) ;;
    match raced with
    | Some x => ret (x, true)
    | None => throw TransactionConflict
    end
  else throw err.

Definition _executeTransfer (p : Params) : M (Transaction.t * bool) :=
  existing <- findTransaction (idempotencyKey p) (assetTypeId p) ;;
  match existing with
  | Some x => ret (x, true)
  | None =>
    if amount_rejected (amount p) then throw AmountNotPositive else
    yield ;;
    accs <- Promise_all2 (findAccountById (fromAccountId p))
                         (findAccountById (toAccountId p)) ;;
    match accs with
    | (None, _) => throw (SourceNotFound (fromAccountId p))
    | (Some _, None) => throw (DestinationNotFound (toAccountId p))
    | (Some fromAccount, Some toAccount) =>
      if negb (Account.isActive fromAccount) then throw SourceInactive else
      if negb (Account.isActive toAccount) then throw DestinationInactive else
      if negb (Account.assetType fromAccount =? assetTypeId p)%string
         || negb (Account.assetType toAccount =? assetTypeId p)%string
      then throw AssetMismatch else
      yield ;;
      created <- try_catch
        (transaction <- update_or_fail (Transaction_create (pendingTransaction p))
            (fun r => EvTxCreate (idempotencyKey p) (assetTypeId p)
                        (match r with
                         | inl e => inl e
                         | inr x => inr (Transaction._id x)
                         end)) ;;
         ret (inl transaction))
        (fun err => r <- onCreateError p err ;; ret (inr r)) ;;
      match created with
      | inr replay => ret replay
      | inl transaction =>
        try_catch (applyTransfer p fromAccount toAccount transaction)
                  (markFailed transaction)
      end
    end
  end.

(** *** Private helpers *)

Definition _getAssetType (code : string) : M AssetType.t :=
  assetType <- query (AssetType_findOne_active (toUpperCase code))
                     (EvAssetFindOne (toUpperCase code)) ;;
  match assetType with
  | None => throw (AssetNotFound code)
  | Some a => ret a
  end.

Definition _getUserAccount (userId : string) (asset : ObjectId) : M Account.t :=
  account <- query (Account_findOne userId asset)
                   (EvAccountFindOne userId asset) ;;
  match account with
  | None => throw (WalletNotFound userId)
  | Some a =>
    if negb (Account.isActive a) then throw (WalletInactive userId) else ret a
  end.

Definition _getSystemAccount (userId : string) (asset : ObjectId) : M Account.t :=
  account <- query (Account_findOne_system userId asset)
                   (EvSystemAccountFindOne userId asset) ;;
  match account with
  | None => throw (SystemAccountNotFound userId)
  | Some a => ret a
  end.

(** *** The three flows *)

Definition topUp (userId assetCode : string) (amt : Q) (key : string)
  (meta : Obj) : M (Transaction.t * bool) :=
  assetType <- _getAssetType assetCode ;;
  yield ;;
  userAccount <- _getUserAccount userId (AssetType._id assetType) ;;
  yield ;;
  treasuryAccount <- _getSystemAccount "SYSTEM_TREASURY" (AssetType._id assetType) ;;
  yield ;;
  _executeTransfer
    (mkParams key (Account._id treasuryAccount) (Account._id userAccount)
       (AssetType._id assetType) amt TxType.topup
       ("Top-up: " ++ Number_toString amt ++ " " ++ AssetType.code assetType
        ++ " for user " ++ userId)%string
       meta).

Definition issueBonus (userId assetCode : string) (amt : Q) (key reason : string)
  (meta : Obj) : M (Transaction.t * bool) :=
  assetType <- _getAssetType assetCode ;;
  yield ;;
  userAccount <- _getUserAccount userId (AssetType._id assetType) ;;
  yield ;;
  bonusPool <- _getSystemAccount "SYSTEM_BONUS_POOL" (AssetType._id assetType) ;;
  yield ;;
  _executeTransfer
    (mkParams key (Account._id bonusPool) (Account._id userAccount)
       (AssetType._id assetType) amt TxType.bonus
       ("Bonus issued: " ++ Number_toString amt ++ " " ++ AssetType.code assetType
        ++ " to user " ++ userId ++ " — " ++ reason)%string
       (spread [("reason", reason)] meta)).

Definition spend (userId assetCode : string) (amt : Q) (key itemId : string)
  (meta : Obj) : M (Transaction.t * bool) :=
  assetType <- _getAssetType assetCode ;;
  yield ;;
  userAccount <- _getUserAccount userId (AssetType._id assetType) ;;
  yield ;;
  revenueAccount <- _getSystemAccount "SYSTEM_REVENUE" (AssetType._id assetType) ;;
  yield ;;
  _executeTransfer
    (mkParams key (Account._id userAccount) (Account._id revenueAccount)
       (AssetType._id assetType) amt TxType.spend
       ("Spend: " ++ Number_toString amt ++ " " ++ AssetType.code assetType
        ++ " by user " ++ userId ++ " for item " ++ itemId)%string
       (spread [("itemId", itemId)] meta)).

End Service.

(** ** The seeded store of [src/seed.js]

    One asset type is enough here. The system accounts are created before the
    user accounts, so their ids are the smaller ones. *)

Module Seed.

(** A rendering of numbers for the examples: integers in decimal, other
    rationals as a fraction. The theorems hold for every rendering. *)
Definition show (q : Q) : string :=
  match Qden q with
  | 1%positive => DecimalString.NilZero.string_of_int (Z.to_int (Qnum q))
  | d => (DecimalString.NilZero.string_of_int (Z.to_int (Qnum q)) ++ "/"
          ++ DecimalString.NilZero.string_of_uint (Pos.to_uint d))%string
  end.

Definition gold : ObjectId := "65a000000000000000000001".
Definition treasury : ObjectId := "65a000000000000000000011".
Definition bonus_pool : ObjectId := "65a000000000000000000012".
Definition revenue : ObjectId := "65a000000000000000000013".
Definition alice : ObjectId := "65a000000000000000000021".
Definition bob : ObjectId := "65a000000000000000000022".

Definition account (id : ObjectId) (uid : string) (ty : AccountType) (b : Q)
  : Account.t :=
  Account.mk id uid ty gold b uid true [].

Definition initial : Store :=
  mkStore
    [AssetType.mk gold "GOLD" "Gold Coins" "Primary in-game currency" 0 true]
    [account treasury "SYSTEM_TREASURY" system 10000000;
     account bonus_pool "SYSTEM_BONUS_POOL" system 5000000;
     account revenue "SYSTEM_REVENUE" system 0;
     account alice "user_alice" user 500;
     account bob "user_bob" user 150]
    [] [].

End Seed.

Definition balance_of (id : ObjectId) (s : Store) : option Q :=
  option_map Account.balance (Account_findById id s).

(** Which events are balance updates, and the balance updates of a trace. *)
Definition is_balance_update (e : Event) : bool :=
  match e with
  | EvDebit _ _ _ | EvCredit _ _ _ => true
  | _ => false
  end.

Definition balance_updates (tr : list Event) : list Event :=
  filter is_balance_update tr.


(** The trace [l] ends with the events [suf]. *)
Definition ends_with (suf l : list Event) : Prop :=
  exists pre, l = pre ++ suf.

(** Two account documents that differ at most in their balance. *)
Definition same_wallet (a b : Account.t) : Prop :=
  Account._id a = Account._id b /\
  Account.userId a = Account.userId b /\
  Account.accountType a = Account.accountType b /\
  Account.assetType a = Account.assetType b /\
  Account.isActive a = Account.isActive b.

(** The shape that [topUp], [issueBonus] and [spend] share: the asset type,
    the user's account and a named system account are resolved, then the
    transfer is executed with parameters built from them. *)
Definition flow (Number_toString : Q -> string) (env : Env)
  (userId assetCode systemName : string)
  (params : AssetType.t -> Account.t -> Account.t -> Params)
  : M (Transaction.t * bool) :=
  assetType <- _getAssetType assetCode ;;
  yield env ;;
  userAccount <- _getUserAccount userId (AssetType._id assetType) ;;
  yield env ;;
  systemAccount <- _getSystemAccount systemName (AssetType._id assetType) ;;
  yield env ;;
  _executeTransfer Number_toString env (params assetType userAccount systemAccount).

(** The amount that a store call carries, if it carries one. *)
Definition event_amount (e : Event) : option Q :=
  match e with
  | EvDebit _ a _ | EvCredit _ a _ | EvLedgerCreate _ _ _ a _ => Some a
  | _ => None
  end.

(** ** Scenarios on the seeded store *)

Module Scenario.
Import Seed.

(** An operator deactivates an account. *)
Definition deactivate (id : ObjectId) (s : Store) : Store :=
  set_accounts
    (map (fun a => if (Account._id a =? id)%string
                   then Account.set_isActive false a else a)
         (accounts s))
    s.

(** The environment that deactivates [id] at suspension point [k]. *)
Definition deactivates_at (k : nat) (id : ObjectId) : Env :=
  fun n s => if (n =? k)%nat then deactivate id s else s.

(** The environment in which another worker inserts [x] at suspension
    point [k]. *)
Definition inserts_at (k : nat) (x : Transaction.t) : Env :=
  fun n s => if (n =? k)%nat
             then set_transactions (transactions s ++ [x]) s else s.

(** What [topUp] passes for user_alice, 100 GOLD. *)
Definition topup_alice (amt : Q) : Params :=
  mkParams "t1-key-0001" treasury alice gold amt TxType.topup
    ("Top-up: " ++ show amt ++ " GOLD for user user_alice")%string [].

(** What [spend] passes for user_bob, 200 GOLD, who holds 150. *)
Definition spend_bob : Params :=
  mkParams "s2-key-0001" bob revenue gold 200 TxType.spend
    "Spend: 200 GOLD by user user_bob for item x" [("itemId", "x")].

(** The Transaction of the completed top-up of 100 GOLD. *)
Definition topup_tx : Transaction.t :=
  Transaction.mk 1 "t1-key-0001" gold treasury alice 100 TxType.topup completed
    "Top-up: 100 GOLD for user user_alice" [] [1%nat; 2%nat] None.

(** The store after that top-up. *)
Definition after_topup : Store :=
  Eval vm_compute in
    store (snd (topUp show quiet "user_alice" "GOLD" 100 "t1-key-0001" []
                  (init initial))).

(** The pending Transaction of a worker that won the race on the key. *)
Definition racing_tx : Transaction.t :=
  Transaction.mk 1 "t1-key-0001" gold treasury alice 100 TxType.topup pending
    "Top-up: 100 GOLD for user user_alice" [] [] None.

(** A call that is invalid in every respect but carries a known key. *)
Definition invalid_call : Params :=
  mkParams "t1-key-0001" "" "" gold 0 TxType.spend "" [].

(** A transfer from the treasury to itself. *)
Definition treasury_to_itself : Params :=
  mkParams "self-key-0001" treasury treasury gold 100 TxType.adjustment "" [].

End Scenario.

(** ** The rounding that the specification names

    Half-even rounding of [q] to [d] decimal places. The service has no such
    function; it is stated here to compare the amounts the service records
    with it. *)
Definition spec_round_half_even (d : nat) (q : Q) : Q :=
  let scale := inject_Z (10 ^ Z.of_nat d) in
  let x := q * scale in
  let f := Qfloor x in
  let rounded :=
    match Qcompare (x - inject_Z f) (1 # 2) with
    | Lt => f
    | Gt => (f + 1)%Z
    | Eq => if Z.even f then f else (f + 1)%Z
    end in
  inject_Z rounded / scale.

(** * The rest of the service: definitions *)

(** ** Vocabulary for the properties of the engine *)

(** The store after the other workers alone have acted at the suspension
    points [0 .. n-1]. *)
Fixpoint env_upto (env : Env) (n : nat) (s : Store) : Store :=
  match n with
  | O => s
  | S k => env k (env_upto env k s)
  end.

(** The store calls that only read. *)
Definition is_read (e : Event) : bool :=
  match e with
  | EvAssetFindOne _ | EvAccountFindOne _ _ | EvSystemAccountFindOne _ _
  | EvTxFindOne _ _ | EvAccountFindById _ => true
  | _ => false
  end.

(** The errors that [_executeTransfer] throws in its steps 2 and 3, before
    it creates the Transaction. *)
Definition is_precheck_error (e : Error) : bool :=
  match e with
  | AmountNotPositive | SourceNotFound _ | DestinationNotFound _
  | SourceInactive | DestinationInactive | AssetMismatch => true
  | _ => false
  end.

(** No account of the store has a negative balance. *)
Definition balances_nonnegative (s : Store) : Prop :=
  Forall (fun a => 0 <= Account.balance a) (accounts s).

(** The key under which the unique index of the Transactions files a
    document. *)
Definition index_key (x : Transaction.t) : string * ObjectId :=
  (Transaction.idempotencyKey x, Transaction.assetType x).

(** No two Transactions of the store share their
    [(idempotencyKey, assetType)]. *)
Definition keys_unique (s : Store) : Prop :=
  NoDup (map index_key (transactions s)).

(** The update [{ $inc: { balance: d } }] on one account document. *)
Definition inc_balance (d : Q) (a : Account.t) : Account.t :=
  Account.set_balance (Account.balance a + d) a.

(** No two accounts of the store share their [_id]. *)
Definition account_ids_unique (s : Store) : Prop :=
  NoDup (map Account._id (accounts s)).

(** ** The read operations of the service *)

From Stdlib Require Qabs.

(** A read of the store that leaves no event: the trace has events for the
    store calls of the transfers only. *)
Definition read {A} (f : Store -> A) : M A :=
  fun w => (inr (f (store w)), w).

(** [LedgerEntry.find({ account })] *)
Definition LedgerEntry_find (account : ObjectId) (s : Store)
  : list LedgerEntry.t :=
  filter (fun e => (LedgerEntry.account e =? account)%string) (ledger s).

(** [LedgerEntry.countDocuments({ account })] *)
Definition LedgerEntry_count (account : ObjectId) (s : Store) : nat :=
  length (LedgerEntry_find account s).

(** The loop of [verifyLedgerIntegrity]:
    [if (entry.entryType === 'credit') computed += entry.amount;
     else computed -= entry.amount]. *)
Definition add_entry (computed : Q) (entry : LedgerEntry.t) : Q :=
  match LedgerEntry.entryType entry with
  | credit => computed + LedgerEntry.amount entry
  | debit => computed - LedgerEntry.amount entry
  end.

(** The sum is exact here; it is the sum that the code computes when every
    partial sum is a safe integer, see [ledger_is_exact] below. *)
Definition ledger_sum (entries : list LedgerEntry.t) : Q :=
  fold_left add_entry entries 0.

(** [x < y] on numbers. *)
Definition Qlt_bool (x y : Q) : bool := negb (Qle_bool y x).

Module Integrity.
Record t := mk {
  userId : string;
  assetCode : string;
  cachedBalance : Q;
  computedBalance : Q;
  isConsistent : bool
}.
End Integrity.

Definition verifyLedgerIntegrity (env : Env) (userId assetCode : string)
  : M Integrity.t :=
  assetType <- _getAssetType assetCode ;;
  yield env ;;
  account <- _getUserAccount userId (AssetType._id assetType) ;;
  yield env ;;
  entries <- read (LedgerEntry_find (Account._id account)) ;;
  let computed := ledger_sum entries in
  ret (Integrity.mk userId assetCode (Account.balance account) computed
         (Qlt_bool (Qabs.Qabs (computed - Account.balance account)) (1 # 1000000))).

(** The errors of the read operations: those of the helpers, the one
    [getBalance] throws itself
    ([No ${assetCode} wallet found for user ${userId}]), and the rejection by
    the store of a negative [skip]. *)
Inductive ReadError :=
| Thrown (e : Error)
| NoWalletFound (assetCode userId : string)
| NegativeSkip.

Module BalanceView.
Record t := mk {
  userId : string;
  assetCode : string;
  assetName : string;
  balance : Q;
  accountId : ObjectId
}.
End BalanceView.

(** [getBalance]: the wallet is looked up without a test of [isActive]. *)
Definition getBalance (env : Env) (userId assetCode : string)
  : World -> (ReadError + BalanceView.t) * World :=
  fun w =>
    match (assetType <- _getAssetType assetCode ;;
           yield env ;;
           account <- query (Account_findOne userId (AssetType._id assetType))
                        (EvAccountFindOne userId (AssetType._id assetType)) ;;
           ret (assetType, account)) w with
    | (inl e, w') => (inl (Thrown e), w')
    | (inr (_, None), w') => (inl (NoWalletFound assetCode userId), w')
    | (inr (assetType, Some account), w') =>
      (inr (BalanceView.mk userId (AssetType.code assetType)
              (AssetType.name assetType) (Account.balance account)
              (Account._id account)), w')
    end.

(** The part of an amount that reaches [id] when it is applied to [id0]. *)
Definition moved (id0 id : ObjectId) (a : Q) : Q :=
  if (id =? id0)%string then a else 0.


(** What [verifyLedgerIntegrity] answers is a function of the store it
    reads when nothing else runs. *)
Definition integrity_of (userId assetCode : string) (a : Account.t)
  (s : Store) : Integrity.t :=
  let computed := ledger_sum (LedgerEntry_find (Account._id a) s) in
  Integrity.mk userId assetCode (Account.balance a) computed
    (Qlt_bool (Qabs.Qabs (computed - Account.balance a)) (1 # 1000000)).


(** [getHistory]. The ledger entries carry no [createdAt] here, so the order
    [sort({ createdAt: -1 })] is a parameter, [newest_first]. [page] and
    [limit] are natural numbers: the route passes the results of [parseInt].
    [populate] fills in the transaction of each entry, with the selected
    fields, or [null] when there is none. *)
Module Populated.
Record t := mk {
  _id : nat;
  type : TxType.t;
  description : string;
  metadata : Obj;
  status : Status
}.
End Populated.

Module HistoryEntry.
Record t := mk {
  id : nat;
  type : EntryType;
  amount : Q;
  balanceAfter : Q;
  description : string;
  transaction : option Populated.t
}.
End HistoryEntry.

(** [Math.ceil(total / limit)]: a division by zero gives [Infinity], or
    [NaN] for [0 / 0]. *)
Inductive Pages := Finite (n : nat) | Infinity | NaN.

Definition Math_ceil_div (total limit : nat) : Pages :=
  match limit, total with
  | O, O => NaN
  | O, S _ => Infinity
  | S _, _ => Finite ((total + limit - 1) / limit)
  end.

Module Pagination.
Record t := mk {
  page : nat;
  limit : nat;
  total : nat;
  pages : Pages
}.
End Pagination.

Module History.
Record t := mk {
  userId : string;
  assetCode : string;
  currentBalance : Q;
  pagination : Pagination.t;
  entries : list HistoryEntry.t
}.
End History.

Definition populate (s : Store) (e : LedgerEntry.t) : option Populated.t :=
  option_map
    (fun x => Populated.mk (Transaction._id x) (Transaction.type x)
                (Transaction.description x) (Transaction.metadata x)
                (Transaction.status x))
    (find (fun x => Transaction._id x =? LedgerEntry.transactionId e)%nat
          (transactions s)).

(** [.limit(n)]: a limit of [0] is no limit. *)
Definition limit_to {A} (n : nat) (l : list A) : list A :=
  match n with
  | O => l
  | S _ => firstn n l
  end.

(** [.find({ account }).sort(..).skip(skip).limit(limit).populate(..)] *)
Definition LedgerEntry_page
  (newest_first : list LedgerEntry.t -> list LedgerEntry.t)
  (account : ObjectId) (skip limit : nat) (s : Store)
  : list (LedgerEntry.t * option Populated.t) :=
  map (fun e => (e, populate s e))
      (limit_to limit (skipn skip (newest_first (LedgerEntry_find account s)))).

Definition getHistory
  (newest_first : list LedgerEntry.t -> list LedgerEntry.t) (env : Env)
  (userId assetCode : string) (page limit : nat)
  : World -> (ReadError + History.t) * World :=
  fun w =>
    match (assetType <- _getAssetType assetCode ;;
           yield env ;;
           account <- _getUserAccount userId (AssetType._id assetType) ;;
           yield env ;;
           ret account) w with
    | (inl e, w') => (inl (Thrown e), w')
    | (inr account, w1) =>
      (* [skip = (page - 1) * limit] is negative for page 0 *)
      if ((page =? 0) && negb (limit =? 0))%nat
      then let '(_, w2) := yield env w1 in (inl NegativeSkip, w2)
      else
        match Promise_all2 env
                (read (LedgerEntry_page newest_first (Account._id account)
                         ((page - 1) * limit) limit))
                (read (LedgerEntry_count (Account._id account))) w1 with
        | (inl e, w2) => (inl (Thrown e), w2)
        | (inr (entries, total), w2) =>
          (inr (History.mk userId assetCode (Account.balance account)
                  (Pagination.mk page limit total (Math_ceil_div total limit))
                  (map (fun ep =>
                          let e := fst ep in
                          HistoryEntry.mk (LedgerEntry._id e)
                            (LedgerEntry.entryType e) (LedgerEntry.amount e)
                            (LedgerEntry.balanceAfter e)
                            (LedgerEntry.description e) (snd ep))
                       entries)), w2)
        end
    end.

(** The sum of the balances of the accounts of an asset type. *)
Definition total_balance (asset : ObjectId) (l : list Account.t) : Q :=
  fold_right (fun a acc => Account.balance a + acc) 0
    (filter (fun a => (Account.assetType a =? asset)%string) l).

(** ** The balance updates of a trace, applied to the accounts

    The effect on the accounts of the balance updates that a trace records,
    in their order: each update is run on the accounts as the updates before
    it left them, and must match, or fail to match, as the trace says. *)
Definition apply_update (e : Event) (l : list Account.t)
  : option (list Account.t) :=
  match e with
  | EvDebit id a matched =>
    let '(o, l') := update_first (debit_filter id a) (inc_balance (- a)) l in
    if Bool.eqb (is_some o) matched then Some l' else None
  | EvCredit id a matched =>
    let '(o, l') := update_first (credit_filter id) (inc_balance a) l in
    if Bool.eqb (is_some o) matched then Some l' else None
  | _ => Some l
  end.

Fixpoint apply_updates (evs : list Event) (l : list Account.t)
  : option (list Account.t) :=
  match evs with
  | [] => Some l
  | e :: r =>
    match apply_update e l with
    | Some l' => apply_updates r l'
    | None => None
    end
  end.

(** ** Vocabulary for the states of a Transaction *)

(** The stored Transaction of an id. *)
Definition Transaction_findById (id : nat) (s : Store) : option Transaction.t :=
  find (fun y => Transaction._id y =? id)%nat (transactions s).

(** The store calls that write the status of a Transaction. *)
Definition is_status_write (e : Event) : bool :=
  match e with
  | EvTxSave _ _ | EvTxMarkFailed _ _ => true
  | _ => false
  end.

Definition status_writes (tr : list Event) : list Event :=
  filter is_status_write tr.

(** ** Vocabulary for two calls under one key

    [second_call_replays message key first second s]: [first] is served on
    the store [s], then [second] on the store that [first] left. When
    [first] returned a Transaction, [second] returns it as a replay and
    leaves the store as it found it. When [first] threw after it had
    inserted its Transaction, [second] returns that Transaction, which is
    stored as failed with the message of the error, as a replay. When [first]
    threw without inserting, it has left the store as it was, so [second] is
    served as a first call. *)
Definition second_call_replays (message : Error -> string) (key : string)
  (first second : M (Transaction.t * bool)) (s : Store) : Prop :=
  forall r1 w1,
    first (init s) = (r1, w1) ->
    match r1 with
    | inr r =>
      exists w2,
        second (init (store w1)) = (inr (fst r, true), w2) /\
        store w2 = store w1
    | inl e =>
      (exists x w2,
         (exists asset,
            In (EvTxCreate key asset (inr (Transaction._id x))) (trace w1)) /\
         second (init (store w1)) = (inr (x, true), w2) /\
         store w2 = store w1 /\
         Transaction.status x = failed /\
         Transaction.failureReason x = Some (message e)) \/
      ((forall asset id, ~ In (EvTxCreate key asset (inr id)) (trace w1)) /\
       store w1 = s)
    end.

(** ** Where the arithmetic of the model is that of the code

    The code computes with IEEE doubles, the model with exact rationals.
    The two agree on the safe integers: a sum or a difference of safe
    integers that is a safe integer is computed exactly by the code. The
    theorems that state a computed balance are stated for such values. *)

(** [Number.isSafeInteger(q)]: an integer of magnitude at most [2^53 - 1]. *)
Definition Number_isSafeInteger (q : Q) : bool :=
  Qeq_bool q (inject_Z (Qfloor q))
  && (Z.abs (Qfloor q) <=? 9007199254740991)%Z.

(** The amount and every balance of the store are safe integers, and every
    balance is still one when the amount is added to it. *)
Definition balances_are_exact (a : Q) (s : Store) : bool :=
  Number_isSafeInteger a
  && forallb (fun acc => Number_isSafeInteger (Account.balance acc)
                         && Number_isSafeInteger (Account.balance acc + a))
       (accounts s).

(** The sum of the amounts of all ledger entries. *)
Definition ledger_volume (s : Store) : Q :=
  fold_right (fun e acc => LedgerEntry.amount e + acc) 0 (ledger s).

(** Every ledger entry has a safe integer that is not negative as its
    amount, and the sum of all these amounts and of twice the amount [a] is
    a safe integer: every partial sum that [verifyLedgerIntegrity] forms,
    before and after a transfer of [a], is then a safe integer. *)
Definition ledger_is_exact (a : Q) (s : Store) : bool :=
  forallb (fun e => Number_isSafeInteger (LedgerEntry.amount e)
                    && Qle_bool 0 (LedgerEntry.amount e))
    (ledger s)
  && Number_isSafeInteger (ledger_volume s + a + a).
(** * Properties *)

(** ** The order of strings and the sort of two ids *)

Lemma leb_refl (a : string) : String.leb a a = true.
Proof. now destruct (String.leb_total a a). Qed.

Lemma leb_false_ltb (a b : string) :
  String.leb a b = false -> String.ltb b a = true.
Proof.
  unfold String.leb, String.ltb. rewrite (String.compare_antisym b a).
  destruct (String.compare a b); simpl; congruence.
Qed.

Lemma processInOrder_spec (a b : string) :
  (hd ""%string (Array_sort [a; b]) =? a)%string = String.leb a b.
Proof.
  simpl. destruct (String.leb a b) eqn:E; simpl.
  - apply String.eqb_refl.
  - apply String.eqb_neq. intros ->. rewrite leb_refl in E. discriminate.
Qed.

(** ** Lookups and updates of a collection *)

Lemma findById_id (id : ObjectId) (s : Store) (a : Account.t) :
  Account_findById id s = Some a -> Account._id a = id.
Proof.
  unfold Account_findById. intros H. apply find_some in H.
  now apply String.eqb_eq.
Qed.

Lemma update_first_none {A} (p : A -> bool) (f : A -> A) (l : list A) :
  find p l = None -> update_first p f l = (None, l).
Proof.
  induction l as [|x l IH]; simpl; [reflexivity|].
  destruct (p x); [discriminate|]. intros H. now rewrite (IH H).
Qed.

Lemma update_first_fst {A} (p : A -> bool) (f : A -> A) (l : list A) :
  fst (update_first p f l) = option_map f (find p l).
Proof.
  induction l as [|x l IH]; simpl; [reflexivity|].
  destruct (p x); [reflexivity|].
  destruct (update_first p f l); simpl in *. exact IH.
Qed.

(** Updating after an append, when no earlier document matches. *)
Lemma update_first_app_last {A} (p : A -> bool) (f : A -> A) (l : list A) (x : A) :
  find p l = None -> p x = true ->
  update_first p f (l ++ [x]) = (Some (f x), l ++ [f x]).
Proof.
  induction l as [|y l IH]; simpl; intros Hl Hx.
  - now rewrite Hx.
  - destruct (p y); [discriminate|]. now rewrite (IH Hl Hx).
Qed.

Lemma find_app_last {A} (p : A -> bool) (l : list A) (x : A) :
  find p l = None -> p x = true -> find p (l ++ [x]) = Some x.
Proof.
  induction l as [|y l IH]; simpl; intros Hl Hx.
  - now rewrite Hx.
  - destruct (p y); [discriminate|]. now apply IH.
Qed.

Lemma list_max_ge (l : list nat) (n : nat) : In n l -> (n <= list_max l)%nat.
Proof.
  induction l as [|m l IH]; simpl; [tauto|].
  intros [->|H]; [lia|]. specialize (IH H). lia.
Qed.

Lemma fresh_id_fresh (ids : list nat) : ~ In (fresh_id ids) ids.
Proof.
  intros H. apply list_max_ge in H. unfold fresh_id in H. lia.
Qed.

Lemma find_id_fresh (l : list Transaction.t) :
  find (fun y => Transaction._id y =? fresh_id (map Transaction._id l))%nat l = None.
Proof.
  destruct (find _ l) eqn:E; [|reflexivity].
  apply find_some in E. destruct E as [Hin Heq].
  apply Nat.eqb_eq in Heq.
  exfalso. apply (fresh_id_fresh (map Transaction._id l)).
  rewrite <- Heq. now apply in_map.
Qed.


(** ** Symbolic execution of the service *)

Ltac destruct_innermost x :=
  lazymatch x with
  | context [match ?y with _ => _ end] => destruct_innermost y
  | _ => destruct x eqn:?
  end.

(** One case split on the first undecided test of a run. *)
Ltac step_in H :=
  lazymatch type of H with
  | context [match ?x with _ => _ end] => destruct_innermost x
  end.

Ltac step_goal :=
  lazymatch goal with
  | |- context [match ?x with _ => _ end] => destruct_innermost x
  end.

Ltac solve_ends_with :=
  unfold ends_with;
  lazymatch goal with
  | |- exists pre, ?l = pre ++ ?suf =>
    exists (firstn (length l - length suf) l); reflexivity
  end.

Ltac unfold_engine_in H :=
  unfold _executeTransfer, applyTransfer, markFailed, onCreateError,
    Promise_all2, sleep, findTransaction, findAccountById, _atomicDebit,
    _atomicCredit, createLedgerEntry, bind, try_catch, ret, throw, query,
    update, update_or_fail, yield, log in H;
  rewrite ?processInOrder_spec in H;
  simpl in H.

Ltac unfold_engine :=
  unfold _executeTransfer, applyTransfer, markFailed, onCreateError,
    Promise_all2, sleep, findTransaction, findAccountById, _atomicDebit,
    _atomicCredit, createLedgerEntry, bind, try_catch, ret, throw, query,
    update, update_or_fail, yield, log;
  rewrite ?processInOrder_spec;
  simpl.

(** ** Replay comes before validation *)

Section Replay.
Variable Number_toString : Q -> string.
Variable env : Env.

Lemma executeTransfer_replay (p : Params) (w : World) (x : Transaction.t) :
  Transaction_findOne (idempotencyKey p) (assetTypeId p) (store w) = Some x ->
  _executeTransfer Number_toString env p w
  = (inr (x, true),
     mkWorld (store w) (clock w)
             (trace w ++ [EvTxFindOne (idempotencyKey p) (assetTypeId p)])).
Proof.
  intros Hfound. unfold_engine. now rewrite Hfound.
Qed.

(** C10. When a Transaction is stored under the call's
    [(idempotencyKey, assetType)], [_executeTransfer] returns it with
    [isIdempotentReplay = true], whatever the other parameters are (amount
    zero or negative, accounts missing, inactive or of another asset): the
    lookup is the only store call it issues, no validation error is raised
    and the store is left as it was. *)
Theorem replay_precedes_validation (p : Params) (w : World) (x : Transaction.t) :
  Transaction_findOne (idempotencyKey p) (assetTypeId p) (store w) = Some x ->
  _executeTransfer Number_toString env p w
  = (inr (x, true),
     mkWorld (store w) (clock w)
             (trace w ++ [EvTxFindOne (idempotencyKey p) (assetTypeId p)])).
Proof. exact (executeTransfer_replay p w x). Qed.

End Replay.


(** ** The race on the unique index *)

Section DuplicateKeyRace.
Variable Number_toString : Q -> string.
Variable env : Env.

Lemma is_duplicate_key_inv (e : Error) :
  is_duplicate_key e = true -> e = DuplicateKey.
Proof. destruct e; cbv; congruence. Qed.

(** C4. When the insert of the pending Transaction fails with the
    duplicate-key error, the engine sleeps 50 ms, reads the Transaction of the
    same [(idempotencyKey, assetType)] again and returns what it finds with
    [isIdempotentReplay = true]; when that read finds nothing it throws the
    conflict error. These are all the store calls of the request, none of
    them a write that took effect: the store at the end is the store as the
    other workers left it, and in the conflict case it holds no Transaction
    under the key. *)
Theorem duplicate_key_is_replay_or_conflict (p : Params) (s : Store)
  (r : Error + Transaction.t * bool) (w' : World) :
  let key := idempotencyKey p in
  let asset := assetTypeId p in
  _executeTransfer Number_toString env p (init s) = (r, w') ->
  In (EvTxCreate key asset (inl DuplicateKey)) (trace w') ->
  trace w' = [EvTxFindOne key asset;
              EvAccountFindById (fromAccountId p);
              EvAccountFindById (toAccountId p);
              EvTxCreate key asset (inl DuplicateKey);
              EvSleep 50;
              EvTxFindOne key asset] /\
  store w' = env 3%nat (env 2%nat (env 1%nat (env 0%nat s))) /\
  match Transaction_findOne key asset (store w') with
  | Some x => r = inr (x, true)
  | None => r = inl TransactionConflict
  end.
Proof.
  intros key asset H Hdup. subst key asset.
  unfold_engine_in H.
  repeat (step_in H; simpl in H).
  all: injection H as <- <-; simpl in *.
  all: repeat match goal with
       | E : is_duplicate_key _ = true |- _ =>
         apply is_duplicate_key_inv in E; subst
       end.
  all: try (exfalso; intuition congruence).
  all: try (exfalso; repeat destruct Hdup as [Hdup|Hdup]; try discriminate;
            try contradiction; injection Hdup as ->; discriminate).
  all: unfold Transaction_create in *;
       repeat match goal with
       | E : context [if ?c then _ else _] |- _ => destruct c eqn:?
       | E : context [match ?c with _ => _ end] |- _ => destruct c eqn:?
       | E : (_, _) = (_, _) |- _ => inversion E; subst; clear E
       end; try discriminate.
  all: match goal with E : Transaction_findOne _ _ (env 3%nat _) = _ |- _ =>
         rewrite E end; auto.
Qed.

End DuplicateKeyRace.

(** ** A credit that fails after the debit *)

Section CreditFailure.
Variable Number_toString : Q -> string.
Variable env : Env.

(** C2 (amended). When the credit of the destination fails after the debit
    of the source has landed, the engine issues no further balance update:
    its only remaining store call marks the Transaction failed, with the
    message of the credit error as [failureReason], and the error is thrown
    again. The debit and the failed credit are the only balance updates of
    the request. *)
Theorem credit_failure_is_not_compensated (p : Params) (s : Store)
  (r : Error + Transaction.t * bool) (w' : World) :
  let key := idempotencyKey p in
  let asset := assetTypeId p in
  let src := fromAccountId p in
  let dst := toAccountId p in
  let a := amount p in
  _executeTransfer Number_toString env p (init s) = (r, w') ->
  In (EvDebit src a true) (trace w') ->
  In (EvCredit dst a false) (trace w') ->
  exists tid u,
    r = inl (CreditFailed u) /\
    trace w' = [EvTxFindOne key asset;
                EvAccountFindById src;
                EvAccountFindById dst;
                EvTxCreate key asset (inr tid);
                EvDebit src a true;
                EvCredit dst a false;
                EvTxMarkFailed tid (message Number_toString (CreditFailed u))].
Proof.
  intros key asset src dst a H Hdebit Hcredit. subst key asset src dst a.
  unfold_engine_in H.
  repeat (step_in H; simpl in H).
  all: injection H as <- <-; simpl in *.
  all: try (exfalso; intuition congruence).
  all: repeat match goal with
       | E : Account_findById _ _ = Some _ |- _ =>
         apply findById_id in E; try rewrite E in *
       end.
  all: eauto.
Qed.

End CreditFailure.

(** ** What the store calls leave untouched *)

Lemma findOneAndUpdate_frame (f : Account.t -> bool) (d : Q) (s s' : Store)
  (o : option Account.t) :
  Account_findOneAndUpdate f d s = (o, s') ->
  transactions s' = transactions s /\ ledger s' = ledger s /\
  assetTypes s' = assetTypes s.
Proof.
  unfold Account_findOneAndUpdate.
  destruct (update_first _ _ _) as [[a|] l]; intros E; injection E as <- <-;
    auto.
Qed.

Lemma LedgerEntry_create_frame (doc : LedgerEntry.t) (s s' : Store)
  (r : Error + LedgerEntry.t) :
  LedgerEntry_create doc s = (r, s') ->
  transactions s' = transactions s /\ accounts s' = accounts s /\
  assetTypes s' = assetTypes s.
Proof.
  unfold LedgerEntry_create.
  destruct (negb _); intros E; injection E as <- <-; auto.
Qed.

Lemma Transaction_create_inl (doc : Transaction.t) (s s' : Store) (e : Error) :
  Transaction_create doc s = (inl e, s') -> s' = s.
Proof.
  unfold Transaction_create.
  destruct (negb _); [now intros E; injection E|].
  destruct (Transaction_findOne _ _ _); intros E; [now injection E|discriminate].
Qed.

Lemma Transaction_validate_nil (doc : Transaction.t) :
  is_nil (Transaction_validate doc) = true <->
  (Transaction.idempotencyKey doc =? "")%string = false /\
  amount_valid (Transaction.amount doc) = true.
Proof.
  unfold Transaction_validate.
  destruct (Transaction.idempotencyKey doc =? "")%string,
           (amount_valid (Transaction.amount doc)); simpl; intuition congruence.
Qed.

Lemma Transaction_create_inr (doc x : Transaction.t) (s s' : Store) :
  Transaction_create doc s = (inr x, s') ->
  x = Transaction.mk (fresh_id (map Transaction._id (transactions s)))
        (Transaction.idempotencyKey doc) (Transaction.assetType doc)
        (Transaction.fromAccount doc) (Transaction.toAccount doc)
        (Transaction.amount doc) (Transaction.type doc)
        (Transaction.status doc) (Transaction.description doc)
        (Transaction.metadata doc) (Transaction.ledgerEntries doc)
        (Transaction.failureReason doc) /\
  s' = set_transactions (transactions s ++ [x]) s /\
  amount_valid (Transaction.amount doc) = true /\
  Transaction_findOne (Transaction.idempotencyKey doc)
                      (Transaction.assetType doc) s = None.
Proof.
  unfold Transaction_create.
  destruct (is_nil (Transaction_validate doc)) eqn:Hv; simpl; [|discriminate].
  apply Transaction_validate_nil in Hv as [_ Hv].
  destruct (Transaction_findOne _ _ _); [discriminate|].
  intros E. injection E as <- <-. auto.
Qed.

(** Saving, or marking failed, the document that was inserted last under a
    fresh id changes that document and no other. *)
Lemma Transaction_save_last (old : list Transaction.t) (x0 x : Transaction.t)
  (s : Store) :
  transactions s = old ++ [x0] ->
  Transaction._id x0 = fresh_id (map Transaction._id old) ->
  Transaction._id x = Transaction._id x0 ->
  Transaction_save x s
  = (inr tt,
     set_transactions
       (old ++ [Transaction.set_ledgerEntries (Transaction.ledgerEntries x)
                  (Transaction.set_status (Transaction.status x) x0)]) s).
Proof.
  intros Hs Hfresh Hid. unfold Transaction_save.
  rewrite Hs, Hid, Hfresh.
  rewrite update_first_app_last.
  - reflexivity.
  - apply find_id_fresh.
  - rewrite <- Hfresh. apply Nat.eqb_refl.
Qed.

Lemma Transaction_markFailed_last (old : list Transaction.t) (x0 : Transaction.t)
  (reason : string) (s : Store) :
  transactions s = old ++ [x0] ->
  Transaction._id x0 = fresh_id (map Transaction._id old) ->
  snd (Transaction_findByIdAndUpdate (Transaction._id x0) failed reason s)
  = set_transactions
      (old ++ [Transaction.set_failureReason (Some reason)
                 (Transaction.set_status failed x0)]) s.
Proof.
  intros Hs Hfresh. unfold Transaction_findByIdAndUpdate.
  rewrite Hs, Hfresh.
  rewrite update_first_app_last.
  - reflexivity.
  - apply find_id_fresh.
  - rewrite <- Hfresh. apply Nat.eqb_refl.
Qed.


(** ** Accounts keep their identity *)

Lemma same_wallet_refl (a : Account.t) : same_wallet a a.
Proof. unfold same_wallet; auto. Qed.

Lemma same_wallet_set_balance (b : Q) (a : Account.t) :
  same_wallet a (Account.set_balance b a).
Proof. unfold same_wallet; simpl; auto. Qed.

Lemma same_wallet_trans (a b c : Account.t) :
  same_wallet a b -> same_wallet b c -> same_wallet a c.
Proof. unfold same_wallet; intuition congruence. Qed.

Lemma Forall2_same_wallet_refl (l : list Account.t) : Forall2 same_wallet l l.
Proof. induction l; constructor; auto using same_wallet_refl. Qed.

Lemma Forall2_same_wallet_trans (l1 l2 l3 : list Account.t) :
  Forall2 same_wallet l1 l2 -> Forall2 same_wallet l2 l3 ->
  Forall2 same_wallet l1 l3.
Proof.
  intros H. revert l3. induction H; intros l3 H3; inversion H3; subst;
    constructor; eauto using same_wallet_trans.
Qed.

Lemma update_first_same_wallet (p : Account.t -> bool) (d : Q)
  (l : list Account.t) :
  Forall2 same_wallet l
    (snd (update_first p
            (fun a => Account.set_balance (Account.balance a + d) a) l)).
Proof.
  induction l as [|x l IH]; simpl; [constructor|].
  destruct (p x); simpl.
  - constructor; [apply same_wallet_set_balance|apply Forall2_same_wallet_refl].
  - destruct (update_first _ _ l); simpl in *.
    constructor; [apply same_wallet_refl|exact IH].
Qed.

Lemma findOneAndUpdate_same_wallet (f : Account.t -> bool) (d : Q)
  (s s' : Store) (o : option Account.t) :
  Account_findOneAndUpdate f d s = (o, s') ->
  Forall2 same_wallet (accounts s) (accounts s').
Proof.
  unfold Account_findOneAndUpdate. intros E.
  pose proof (update_first_same_wallet f d (accounts s)) as H.
  destruct (update_first _ _ _) as [[a|] l]; injection E as <- <-; simpl in *.
  - exact H.
  - apply Forall2_same_wallet_refl.
Qed.

(** A lookup whose filter does not read the balance finds the same wallet
    before and after. *)
Lemma find_same_wallet (q : Account.t -> bool) (l l' : list Account.t) :
  (forall a b, same_wallet a b -> q a = q b) ->
  Forall2 same_wallet l l' ->
  match find q l with
  | Some a => exists b, find q l' = Some b /\ same_wallet a b
  | None => find q l' = None
  end.
Proof.
  intros Hq H. induction H as [|a b l l' Hab Hl IH]; simpl; [reflexivity|].
  rewrite <- (Hq a b Hab). destruct (q a); eauto.
Qed.

(** ** A request served without interference *)

Section Quiet.
Variable Number_toString : Q -> string.

Lemma Transaction_save_frame (x : Transaction.t) (s s' : Store)
  (r : Error + unit) :
  Transaction_save x s = (r, s') ->
  accounts s' = accounts s /\ assetTypes s' = assetTypes s /\
  ledger s' = ledger s.
Proof.
  unfold Transaction_save.
  destruct (update_first _ _ _) as [[a|] l]; intros E; injection E as <- <-;
    auto.
Qed.

Lemma tx_key_matches_refl (x : Transaction.t) :
  tx_key_matches (Transaction.idempotencyKey x) (Transaction.assetType x) x
  = true.
Proof. unfold tx_key_matches. now rewrite !String.eqb_refl. Qed.

(** After a successful run the Transaction that was returned is the one
    stored under the key; the asset types are as before, the accounts differ
    at most in their balances. *)
Lemma executeTransfer_quiet_ok (p : Params) (w w' : World)
  (r : Transaction.t * bool) :
  _executeTransfer Number_toString quiet p w = (inr r, w') ->
  Transaction_findOne (idempotencyKey p) (assetTypeId p) (store w')
  = Some (fst r) /\
  assetTypes (store w') = assetTypes (store w) /\
  Forall2 same_wallet (accounts (store w)) (accounts (store w')).
Proof.
  intros H. unfold_engine_in H. unfold quiet in H.
  repeat (step_in H; simpl in H).
  all: inversion H; subst; clear H; simpl in *.
  all: repeat match goal with
       | E : Transaction_create _ _ = (inl _, _) |- _ =>
         apply Transaction_create_inl in E; subst
       end.
  all: try solve [repeat split; auto using Forall2_same_wallet_refl].
  all: match goal with
       | E : Transaction_create _ _ = (inr ?x, ?s1) |- _ =>
         destruct (Transaction_create_inr _ _ _ _ E) as (Hx & Hs1 & _ & Hnone);
         assert (Hold : transactions s1 = transactions (store w) ++ [x])
           by (now rewrite Hs1);
         assert (Hacc : accounts s1 = accounts (store w)) by (now rewrite Hs1);
         assert (Hassets : assetTypes s1 = assetTypes (store w))
           by (now rewrite Hs1);
         assert (Hfresh : Transaction._id x
                          = fresh_id (map Transaction._id
                                        (transactions (store w))))
           by (now rewrite Hx);
         assert (Hkey : tx_key_matches (idempotencyKey p) (assetTypeId p) x
                        = true)
           by (rewrite Hx; apply (tx_key_matches_refl (pendingTransaction p)));
         clear E Hs1 Hx
       end.
  all: repeat match goal with
       | E : Account_findOneAndUpdate _ _ _ = _ |- _ =>
         pose proof (findOneAndUpdate_same_wallet _ _ _ _ _ E);
         apply findOneAndUpdate_frame in E; destruct E as (? & ? & ?)
       | E : LedgerEntry_create _ _ = _ |- _ =>
         apply LedgerEntry_create_frame in E; destruct E as (? & ? & ?)
       end.
  all: match goal with
       | E : Transaction_save ?x' ?S = _,
         Hf : Transaction._id ?x = fresh_id _ |- _ =>
         assert (Ht : transactions S = transactions (store w) ++ [x])
           by congruence;
         rewrite (Transaction_save_last _ x x' S Ht Hf eq_refl) in E;
         inversion E; subst; clear E; simpl
       end.
  all: split; [unfold Transaction_findOne; simpl; apply find_app_last;
               [exact Hnone|exact Hkey]|].
  all: split; [congruence|].
  all: rewrite <- Hacc.
  all: repeat match goal with
       | E : accounts ?a = accounts ?b |- _ => rewrite E in *; clear E
       end.
  all: eauto using Forall2_same_wallet_trans.
Qed.

(** The resolution of the accounts of a flow gives the same wallets when the
    accounts differ at most in their balances. *)
Lemma getUserAccount_same_wallet (uid : string) (asset : ObjectId)
  (w w1 : World) (a : Account.t) (s' : Store) :
  _getUserAccount uid asset w = (inr a, w1) ->
  Forall2 same_wallet (accounts (store w)) (accounts s') ->
  forall k tr, exists b,
    _getUserAccount uid asset (mkWorld s' k tr)
    = (inr b, mkWorld s' k (tr ++ [EvAccountFindOne uid asset])) /\
    same_wallet a b.
Proof.
  unfold _getUserAccount, bind, query, throw, ret; simpl.
  intros H Hsim k tr.
  assert (Hq : forall a b, same_wallet a b ->
            ((Account.userId a =? uid)%string
             && (Account.assetType a =? asset)%string)
            = ((Account.userId b =? uid)%string
               && (Account.assetType b =? asset)%string)).
  { intros x y (_ & Hu & _ & Ha & _). now rewrite Hu, Ha. }
  pose proof (find_same_wallet _ _ _ Hq Hsim) as Hfind.
  unfold Account_findOne in *.
  destruct (find _ (accounts (store w))) as [a0|]; [|discriminate].
  destruct Hfind as (b & Hb & Hab). rewrite Hb.
  destruct (Account.isActive a0) eqn:Hact; simpl in H; [|discriminate].
  injection H as <- _.
  pose proof Hab as (_ & _ & _ & _ & Hactive).
  rewrite <- Hactive, Hact. simpl.
  exists b. split; [reflexivity|exact Hab].
Qed.

Lemma getSystemAccount_same_wallet (uid : string) (asset : ObjectId)
  (w w1 : World) (a : Account.t) (s' : Store) :
  _getSystemAccount uid asset w = (inr a, w1) ->
  Forall2 same_wallet (accounts (store w)) (accounts s') ->
  forall k tr, exists b,
    _getSystemAccount uid asset (mkWorld s' k tr)
    = (inr b, mkWorld s' k (tr ++ [EvSystemAccountFindOne uid asset])) /\
    same_wallet a b.
Proof.
  unfold _getSystemAccount, bind, query, throw, ret; simpl.
  intros H Hsim k tr.
  assert (Hq : forall a b, same_wallet a b ->
            ((Account.userId a =? uid)%string
             && (Account.assetType a =? asset)%string
             && AccountType_eqb (Account.accountType a) system)
            = ((Account.userId b =? uid)%string
               && (Account.assetType b =? asset)%string
               && AccountType_eqb (Account.accountType b) system)).
  { intros x y (_ & Hu & Ht & Ha & _). now rewrite Hu, Ht, Ha. }
  pose proof (find_same_wallet _ _ _ Hq Hsim) as Hfind.
  unfold Account_findOne_system in *.
  destruct (find _ (accounts (store w))) as [a0|]; [|discriminate].
  destruct Hfind as (b & Hb & Hab). rewrite Hb.
  injection H as <- _.
  exists b. split; [reflexivity|exact Hab].
Qed.

Lemma getAssetType_run (code : string) (w : World) :
  _getAssetType code w
  = (match AssetType_findOne_active (toUpperCase code) (store w) with
     | Some a => inr a
     | None => inl (AssetNotFound code)
     end,
     mkWorld (store w) (clock w) (trace w ++ [EvAssetFindOne (toUpperCase code)])).
Proof.
  unfold _getAssetType, bind, query, throw, ret; simpl.
  now destruct (AssetType_findOne_active _ _).
Qed.

Lemma getUserAccount_world (uid : string) (asset : ObjectId) (w w1 : World)
  (r : Error + Account.t) :
  _getUserAccount uid asset w = (r, w1) ->
  w1 = mkWorld (store w) (clock w) (trace w ++ [EvAccountFindOne uid asset]).
Proof.
  unfold _getUserAccount, bind, query, throw, ret; simpl.
  destruct (Account_findOne _ _ _) as [a|]; [destruct (negb _)|];
    intros E; now injection E.
Qed.

Lemma getSystemAccount_world (uid : string) (asset : ObjectId) (w w1 : World)
  (r : Error + Account.t) :
  _getSystemAccount uid asset w = (r, w1) ->
  w1 = mkWorld (store w) (clock w)
               (trace w ++ [EvSystemAccountFindOne uid asset]).
Proof.
  unfold _getSystemAccount, bind, query, throw, ret; simpl.
  destruct (Account_findOne_system _ _ _) as [a|]; intros E; now injection E.
Qed.

Lemma yield_quiet (w : World) :
  yield quiet w = (inr tt, mkWorld (store w) (S (clock w)) (trace w)).
Proof. reflexivity. Qed.

(** The replay of a flow: the second call resolves the same wallets, finds
    the Transaction of the first under the key and returns it; the store is
    not written. *)
Lemma flow_replay (uid code sys key : string)
  (params1 params2 : AssetType.t -> Account.t -> Account.t -> Params)
  (s : Store) (r : Transaction.t * bool) (w1 : World) :
  (forall a u y, idempotencyKey (params1 a u y) = key /\
                 assetTypeId (params1 a u y) = AssetType._id a) ->
  (forall a u y, idempotencyKey (params2 a u y) = key /\
                 assetTypeId (params2 a u y) = AssetType._id a) ->
  flow Number_toString quiet uid code sys params1 (init s) = (inr r, w1) ->
  exists w2,
    flow Number_toString quiet uid code sys params2 (init (store w1))
    = (inr (fst r, true), w2) /\
    store w2 = store w1.
Proof.
  intros Hp1 Hp2 H. unfold flow in *.
  (* the first call *)
  unfold bind at 1 in H. rewrite getAssetType_run in H. simpl in H.
  destruct (AssetType_findOne_active (toUpperCase code) s) as [a|] eqn:Ha;
    [|discriminate].
  unfold bind at 1 in H; rewrite yield_quiet in H; simpl in H.
  unfold bind at 1 in H.
  destruct (_getUserAccount uid (AssetType._id a) _) as [[e|u] wu] eqn:Hu;
    [discriminate|].
  pose proof (getUserAccount_world _ _ _ _ _ Hu) as ->. simpl in H.
  unfold bind at 1 in H; rewrite yield_quiet in H; simpl in H.
  unfold bind at 1 in H.
  destruct (_getSystemAccount sys (AssetType._id a) _) as [[e|y] wy] eqn:Hy;
    [discriminate|].
  pose proof (getSystemAccount_world _ _ _ _ _ Hy) as ->. simpl in H.
  unfold bind at 1 in H; rewrite yield_quiet in H; simpl in H.
  destruct (executeTransfer_quiet_ok _ _ _ _ H) as (Hfound & Hassets & Hsim).
  simpl in Hassets, Hsim.
  destruct (Hp1 a u y) as [Hk1 Ha1]. rewrite Hk1, Ha1 in Hfound.
  (* the second call *)
  assert (Ha' : AssetType_findOne_active (toUpperCase code) (store w1) = Some a)
    by (unfold AssetType_findOne_active in *; now rewrite Hassets).
  unfold bind at 1. rewrite getAssetType_run. simpl. rewrite Ha'.
  unfold bind at 1; rewrite yield_quiet; simpl.
  destruct (getUserAccount_same_wallet _ _ _ _ _ (store w1) Hu Hsim 1%nat
              [EvAssetFindOne (toUpperCase code)]) as (u' & Hu' & _).
  unfold bind at 1. rewrite Hu'.
  unfold bind at 1; rewrite yield_quiet; simpl.
  destruct (getSystemAccount_same_wallet _ _ _ _ _ (store w1) Hy Hsim 2%nat
              [EvAssetFindOne (toUpperCase code);
               EvAccountFindOne uid (AssetType._id a)])
    as (y' & Hy' & _).
  unfold bind at 1. rewrite Hy'.
  unfold bind at 1; rewrite yield_quiet; simpl.
  destruct (Hp2 a u' y') as [Hk2 Ha2].
  rewrite (executeTransfer_replay Number_toString quiet (params2 a u' y') _
             (fst r)); [|simpl; now rewrite Hk2, Ha2].
  eexists. split; reflexivity.
Qed.

End Quiet.

(** ** A transfer from an account to itself *)

Lemma amount_valid_not_rejected (a : Q) :
  amount_valid a = true -> amount_rejected a = false.
Proof.
  unfold amount_valid, amount_rejected, amount_min. intros H.
  apply Qle_bool_iff in H.
  apply orb_false_iff. split.
  - destruct (Qeq_bool a 0) eqn:E; [|reflexivity].
    apply Qeq_bool_iff in E. rewrite E in H. now compute in H.
  - destruct (Qle_bool a 0) eqn:E; [|reflexivity].
    apply Qle_bool_iff in E. exfalso.
    assert (H0 : 1 # 1000000 <= 0) by (eapply Qle_trans; eassumption).
    now compute in H0.
Qed.

Lemma Transaction_create_ok (doc : Transaction.t) (s : Store) :
  (Transaction.idempotencyKey doc =? "")%string = false ->
  amount_valid (Transaction.amount doc) = true ->
  Transaction_findOne (Transaction.idempotencyKey doc)
                      (Transaction.assetType doc) s = None ->
  let x := Transaction.mk (fresh_id (map Transaction._id (transactions s)))
             (Transaction.idempotencyKey doc) (Transaction.assetType doc)
             (Transaction.fromAccount doc) (Transaction.toAccount doc)
             (Transaction.amount doc) (Transaction.type doc)
             (Transaction.status doc) (Transaction.description doc)
             (Transaction.metadata doc) (Transaction.ledgerEntries doc)
             (Transaction.failureReason doc) in
  Transaction_create doc s = (inr x, set_transactions (transactions s ++ [x]) s).
Proof.
  intros Hk Hv Hn. unfold Transaction_create.
  rewrite (proj2 (Transaction_validate_nil doc) (conj Hk Hv)). simpl.
  now rewrite Hn.
Qed.

Lemma LedgerEntry_create_ok (doc : LedgerEntry.t) (s : Store) :
  amount_valid (LedgerEntry.amount doc) = true ->
  let e := LedgerEntry.mk (fresh_id (map LedgerEntry._id (ledger s)))
             (LedgerEntry.transactionId doc) (LedgerEntry.account doc)
             (LedgerEntry.assetType doc) (LedgerEntry.entryType doc)
             (LedgerEntry.amount doc) (LedgerEntry.balanceAfter doc)
             (LedgerEntry.description doc) in
  LedgerEntry_create doc s = (inr e, set_ledger (ledger s ++ [e]) s).
Proof.
  intros Hv. unfold LedgerEntry_create. now rewrite Hv.
Qed.

(** An update whose filter asks for the id, and more, reaches the document
    that the lookup by id finds, when that document passes the filter. *)
Lemma update_first_by_id (f : Account.t -> bool) (g : Account.t -> Account.t)
  (id : ObjectId) (l : list Account.t) (a : Account.t) :
  find (fun x => Account._id x =? id)%string l = Some a ->
  (forall x, f x = true -> (Account._id x =? id)%string = true) ->
  (forall x, Account._id (g x) = Account._id x) ->
  f a = true ->
  fst (update_first f g l) = Some (g a) /\
  find (fun x => Account._id x =? id)%string (snd (update_first f g l))
  = Some (g a).
Proof.
  intros Hfind Hf Hg Ha. induction l as [|x l IH]; simpl in *; [discriminate|].
  destruct (Account._id x =? id)%string eqn:Hx.
  - injection Hfind as ->. rewrite Ha. simpl. rewrite Hg, Hx. auto.
  - destruct (f x) eqn:Hfx; [apply Hf in Hfx; congruence|].
    destruct (update_first f g l) as [o l'] eqn:Hu. simpl in *.
    rewrite Hx. auto.
Qed.

Lemma findOneAndUpdate_hit (f : Account.t -> bool) (d : Q) (id : ObjectId)
  (s : Store) (a : Account.t) :
  Account_findById id s = Some a ->
  (forall x, f x = true -> (Account._id x =? id)%string = true) ->
  f a = true ->
  exists l,
    Account_findOneAndUpdate f d s
    = (Some (Account.set_balance (Account.balance a + d) a), set_accounts l s) /\
    Account_findById id (set_accounts l s)
    = Some (Account.set_balance (Account.balance a + d) a).
Proof.
  intros Hfind Hf Ha.
  destruct (update_first_by_id f
              (fun a => Account.set_balance (Account.balance a + d) a)
              id (accounts s) a Hfind Hf (fun _ => eq_refl) Ha) as [H1 H2].
  unfold Account_findOneAndUpdate, Account_findById.
  destruct (update_first _ _ _) as [o l]. simpl in *. subst o.
  exists l. auto.
Qed.

Section SelfTransfer.
Variable Number_toString : Q -> string.

(** C6 (amended). A call whose source and destination are the same account
    is not rejected. With no Transaction stored under the key, a valid
    amount, and the account stored, active, of the asset and with a
    sufficient balance, the call is served like any other transfer: the
    pending Transaction is inserted, the account is debited and then
    credited by the amount, two ledger entries on that account are written,
    and the Transaction is returned completed. *)
Theorem self_transfer_is_processed (p : Params) (w : World) (acc : Account.t) :
  let key := idempotencyKey p in
  let asset := assetTypeId p in
  let id := fromAccountId p in
  let a := amount p in
  toAccountId p = id ->
  key <> ""%string ->
  Transaction_findOne key asset (store w) = None ->
  amount_valid a = true ->
  Account_findById id (store w) = Some acc ->
  Account.isActive acc = true ->
  Account.assetType acc = asset ->
  Qle_bool a (Account.balance acc) = true ->
  exists x d c w',
    _executeTransfer Number_toString quiet p w = (inr (x, false), w') /\
    Transaction.status x = completed /\
    Transaction.fromAccount x = id /\ Transaction.toAccount x = id /\
    Transaction.ledgerEntries x = [LedgerEntry._id d; LedgerEntry._id c] /\
    Transaction_findOne key asset (store w') = Some x /\
    ledger (store w') = ledger (store w) ++ [d; c] /\
    LedgerEntry.transactionId d = Transaction._id x /\
    LedgerEntry.account d = id /\ LedgerEntry.entryType d = debit /\
    LedgerEntry.amount d = a /\
    LedgerEntry.transactionId c = Transaction._id x /\
    LedgerEntry.account c = id /\ LedgerEntry.entryType c = credit /\
    LedgerEntry.amount c = a /\
    balance_of id (store w') = Some (Account.balance acc + - a + a) /\
    trace w' = trace w ++ [EvTxFindOne key asset;
                           EvAccountFindById id;
                           EvAccountFindById id;
                           EvTxCreate key asset (inr (Transaction._id x));
                           EvDebit id a true;
                           EvCredit id a true;
                           EvLedgerCreate (Transaction._id x) id debit a true;
                           EvLedgerCreate (Transaction._id x) id credit a true;
                           EvTxSave (Transaction._id x) true].
Proof.
  intros key asset id a Hto Hkey Hnone Hvalid Hacc Hact Hasset Hbal.
  subst key asset id a. apply String.eqb_neq in Hkey.
  destruct (_executeTransfer Number_toString quiet p w) as [r w'] eqn:H.
  unfold_engine_in H. unfold quiet in H.
  rewrite Hto in H.
  rewrite Hnone in H. simpl in H.
  rewrite (amount_valid_not_rejected _ Hvalid) in H. simpl in H.
  rewrite Hacc in H. simpl in H.
  rewrite Hact, Hasset, String.eqb_refl in H. simpl in H.
  rewrite (Transaction_create_ok (pendingTransaction p) (store w) Hkey Hvalid
             Hnone) in H.
  simpl in H. rewrite leb_refl in H. simpl in H.
  rewrite (findById_id _ _ _ Hacc) in H.
  set (x0 := Transaction.mk _ _ _ _ _ _ _ pending _ _ _ _) in H.
  set (s1 := set_transactions _ (store w)) in H.
  destruct (findOneAndUpdate_hit
              (debit_filter (fromAccountId p) (amount p)) (- amount p)
              (fromAccountId p) s1 acc Hacc) as (l1 & Hdebit & Hfind1).
  { intros x Hx. unfold debit_filter in Hx.
    now apply andb_true_iff in Hx as [Hx%andb_true_iff _]. }
  { unfold debit_filter.
    now rewrite (findById_id _ _ _ Hacc), String.eqb_refl, Hbal, Hact. }
  rewrite Hdebit in H. simpl in H.
  set (acc1 := Account.set_balance _ acc) in *.
  destruct (findOneAndUpdate_hit
              (credit_filter (fromAccountId p)) (amount p)
              (fromAccountId p) (set_accounts l1 s1) acc1 Hfind1)
    as (l2 & Hcredit & Hfind2).
  { intros x Hx. unfold credit_filter in Hx.
    now apply andb_true_iff in Hx. }
  { unfold credit_filter. subst acc1. simpl.
    now rewrite (findById_id _ _ _ Hacc), String.eqb_refl, Hact. }
  rewrite Hcredit in H. simpl in H.
  rewrite LedgerEntry_create_ok in H by exact Hvalid. simpl in H.
  rewrite LedgerEntry_create_ok in H by exact Hvalid. simpl in H.
  set (d := LedgerEntry.mk _ _ _ _ debit _ _ _) in H.
  set (c := LedgerEntry.mk _ _ _ _ credit _ _ _) in H.
  rewrite (Transaction_save_last (transactions (store w)) x0) in H
    by reflexivity.
  simpl in H. injection H as <- <-.
  exists (Transaction.set_ledgerEntries [LedgerEntry._id d; LedgerEntry._id c]
            (Transaction.set_status completed x0)), d, c.
  eexists. split; [reflexivity|]. simpl.
  repeat split; try assumption; try reflexivity.
  - unfold Transaction_findOne. simpl. apply find_app_last; [exact Hnone|].
    unfold tx_key_matches. simpl. now rewrite !String.eqb_refl.
  - now rewrite <- app_assoc.
  - unfold balance_of, Account_findById in *. simpl in *.
    now rewrite Hfind2.
  - repeat rewrite <- app_assoc. reflexivity.
Qed.

End SelfTransfer.

(** ** The amount of a transfer *)

Section Amount.
Variable Number_toString : Q -> string.
Variable env : Env.

Lemma Transaction_save_inl (x : Transaction.t) (s s' : Store) (e : Error) :
  Transaction_save x s = (inl e, s') -> e = DocumentNotFound.
Proof.
  unfold Transaction_save.
  destruct (update_first _ _ _) as [[a|] l]; intros E; [discriminate|].
  now injection E.
Qed.

Lemma Transaction_create_inl_error (doc : Transaction.t) (s s' : Store)
  (e : Error) :
  amount_valid (Transaction.amount doc) = true ->
  Transaction_create doc s = (inl e, s') ->
  e = DuplicateKey \/
  e = ValidationError "Transaction"
        [("idempotencyKey", "Path `idempotencyKey` is required.")].
Proof.
  unfold Transaction_create, Transaction_validate. intros ->.
  destruct (Transaction.idempotencyKey doc =? "")%string; simpl.
  - intros E. injection E as <- _. now right.
  - destruct (Transaction_findOne _ _ _); intros E; [|discriminate].
    injection E as <- _. now left.
Qed.

(** C8 (amended). The engine does not round. The amount of the call is the
    amount of every balance update and of every ledger entry it issues, and
    the amount of the Transaction it returns on a first execution. It fails
    on the amount only when the amount is zero or negative, or below the
    minimum 0.000001 of the schema: with an amount that reaches that minimum
    the call does not fail on the amount, whatever the asset type's
    [decimalPlaces]. *)
Theorem amount_is_used_as_given (p : Params) (s : Store)
  (r : Error + Transaction.t * bool) (w' : World) :
  _executeTransfer Number_toString env p (init s) = (r, w') ->
  (forall e a, In e (trace w') -> event_amount e = Some a -> a = amount p) /\
  (forall x, r = inr (x, false) ->
     Transaction.amount x = amount p /\ amount_valid (amount p) = true) /\
  (Transaction_findOne (idempotencyKey p) (assetTypeId p) s = None ->
   amount_rejected (amount p) = true -> r = inl AmountNotPositive) /\
  (amount_valid (amount p) = true ->
   r <> inl AmountNotPositive /\
   forall model failures,
     r = inl (ValidationError model failures) ->
     ~ In "amount"%string (map fst failures)).
Proof.
  intros H.
  unfold_engine_in H.
  repeat (step_in H; simpl in H).
  all: injection H as <- <-; simpl.
  all: split;
    [intros ev a Hin Ha;
     repeat (destruct Hin as [<-|Hin]; [simpl in Ha; congruence|]);
     contradiction|].
  all: split;
    [solve [intros x Hx; first
       [discriminate
       |injection Hx as <-;
        match goal with
        | E : Transaction_create _ _ = (inr _, _) |- _ =>
          destruct (Transaction_create_inr _ _ _ _ E) as (-> & _ & Hv & _);
          simpl; auto
        end]]|].
  all: split; [solve [intros; congruence]|].
  all: intros Hv.
  all: repeat match goal with
       | E : amount_rejected _ = true |- _ =>
         rewrite (amount_valid_not_rejected _ Hv) in E; discriminate
       | E : Transaction_create _ _ = (inl _, _) |- _ =>
         apply (Transaction_create_inl_error (pendingTransaction p) _ _ _ Hv) in E;
         destruct E; subst
       | E : LedgerEntry_create _ _ = (inl _, _) |- _ =>
         rewrite LedgerEntry_create_ok in E by exact Hv; discriminate
       | E : Transaction_save _ _ = (inl _, _) |- _ =>
         apply Transaction_save_inl in E; subst
       end.
  all: split; [intros Hr; discriminate|].
  all: intros model failures Hr; try discriminate.
  all: injection Hr as <- <-; simpl; intuition discriminate.
Qed.

End Amount.

(** ** A debit that fails when the source comes first *)

Section DebitFirst.
Variable Number_toString : Q -> string.

Lemma findOneAndUpdate_none (f : Account.t -> bool) (d : Q) (s s' : Store) :
  Account_findOneAndUpdate f d s = (None, s') -> s' = s.
Proof.
  unfold Account_findOneAndUpdate.
  destruct (update_first _ _ _) as [[a|] l]; intros E; [discriminate|].
  now injection E.
Qed.

Lemma findByIdAndUpdate_frame (id : nat) (st : Status) (reason : string)
  (s s' : Store) (o : option Transaction.t) :
  Transaction_findByIdAndUpdate id st reason s = (o, s') ->
  accounts s' = accounts s /\ ledger s' = ledger s.
Proof.
  unfold Transaction_findByIdAndUpdate.
  destruct (update_first _ _ _) as [[a|] l]; intros E; injection E as <- <-;
    auto.
Qed.

Lemma LedgerEntry_create_inl (doc : LedgerEntry.t) (s s' : Store) (e : Error) :
  LedgerEntry_create doc s = (inl e, s') ->
  e = ValidationError "LedgerEntry" [("amount", "Amount must be positive")].
Proof.
  unfold LedgerEntry_create.
  destruct (negb _); intros E; [now injection E|discriminate].
Qed.

(** On the path where the source is debited first, the path of C1's claim,
    a first execution that ends in the insufficient-balance error leaves every
    account as it was and writes no ledger entry. *)
Lemma debit_first_failure_changes_nothing (p : Params) (w w' : World)
  (u : string) (has needs : Q) :
  _executeTransfer Number_toString quiet p w
  = (inl (InsufficientBalance u has needs), w') ->
  String.leb (fromAccountId p) (toAccountId p) = true ->
  accounts (store w') = accounts (store w) /\
  ledger (store w') = ledger (store w).
Proof.
  intros H Hleb. unfold_engine_in H. unfold quiet in H.
  rewrite Hleb in H.
  repeat (step_in H; simpl in H).
  all: inversion H; subst; clear H; simpl in *.
  all: repeat match goal with
       | E : is_duplicate_key (InsufficientBalance _ _ _) = true |- _ =>
         discriminate E
       | E : LedgerEntry_create _ _ = (inl _, _) |- _ =>
         apply LedgerEntry_create_inl in E; discriminate E
       | E : Transaction_save _ _ = (inl _, _) |- _ =>
         apply Transaction_save_inl in E; discriminate E
       | E : Transaction_create _ _ = (inl _, _) |- _ =>
         apply Transaction_create_inl in E; subst
       | E : Transaction_create _ _ = (inr _, _) |- _ =>
         apply Transaction_create_inr in E; destruct E as (_ & -> & _ & _)
       | E : Account_findOneAndUpdate _ _ _ = (None, _) |- _ =>
         apply findOneAndUpdate_none in E; subst
       | E : Transaction_findByIdAndUpdate _ _ _ _ = (_, _) |- _ =>
         apply findByIdAndUpdate_frame in E; destruct E as [-> ->]
       end.
  all: split; reflexivity.
Qed.

End DebitFirst.

(** * The rest of the service: properties *)

(** ** Requests that insert no Transaction *)

Lemma Transaction_create_error_kind (doc : Transaction.t) (s s' : Store)
  (e : Error) :
  Transaction_create doc s = (inl e, s') -> is_precheck_error e = false.
Proof.
  unfold Transaction_create.
  destruct (negb _); [intros E; injection E as <- _; reflexivity|].
  destruct (Transaction_findOne _ _ _); intros E; [|discriminate].
  injection E as <- _. reflexivity.
Qed.

Section NoInsert.
Variable Number_toString : Q -> string.
Variable env : Env.

(** X1. A request that did not insert its pending Transaction wrote
    nothing: the store at its end is the store as the other workers alone
    made it. This is so on a replay, on every error thrown before the
    insert and on a failed insert. When the error is one of the checks that
    precede the insert (amount, accounts found, active, of the asset), the
    request has issued reads only. *)
Theorem no_insert_no_write (p : Params) (s : Store)
  (r : Error + Transaction.t * bool) (w' : World) :
  _executeTransfer Number_toString env p (init s) = (r, w') ->
  ((forall id, ~ In (EvTxCreate (idempotencyKey p) (assetTypeId p) (inr id))
                    (trace w')) ->
   store w' = env_upto env (clock w') s) /\
  (forall e, r = inl e -> is_precheck_error e = true ->
     forallb is_read (trace w') = true /\
     store w' = env_upto env (clock w') s).
Proof.
  intros H. unfold_engine_in H.
  repeat (step_in H; simpl in H).
  all: injection H as <- <-; simpl.
  all: repeat match goal with
       | E : Transaction_create _ _ = (inl _, _) |- _ =>
         pose proof (Transaction_create_error_kind _ _ _ _ E);
         apply Transaction_create_inl in E; subst
       | E : LedgerEntry_create _ _ = (inl _, _) |- _ =>
         apply LedgerEntry_create_inl in E; subst
       | E : Transaction_save _ _ = (inl _, _) |- _ =>
         apply Transaction_save_inl in E; subst
       end.
  all: split;
    [intros Hno; try reflexivity; exfalso; eapply Hno; simpl; eauto 12|].
  all: intros e0 He Hpre; try discriminate He; injection He as <-;
    try discriminate Hpre; try congruence.
  all: split; reflexivity.
Qed.
End NoInsert.

(** ** Balances stay non-negative *)

Lemma update_first_Forall {A} (P : A -> Prop) (p : A -> bool) (f : A -> A)
  (l : list A) :
  Forall P l -> (forall x, p x = true -> P x -> P (f x)) ->
  Forall P (snd (update_first p f l)).
Proof.
  intros Hl Hf. induction Hl as [|x l Hx Hl IH]; simpl; [constructor|].
  destruct (p x) eqn:Hp; simpl.
  - constructor; auto.
  - destruct (update_first p f l); simpl in *. constructor; auto.
Qed.

Lemma amount_accepted_positive (a : Q) : amount_rejected a = false -> 0 < a.
Proof.
  unfold amount_rejected. intros H. apply orb_false_iff in H as [_ H].
  apply Qnot_le_lt. intros Hle. apply Qle_bool_iff in Hle. congruence.
Qed.

Lemma debit_nonnegative (id : ObjectId) (amt : Q) (s s' : Store)
  (o : option Account.t) :
  Account_findOneAndUpdate (debit_filter id amt) (- amt) s = (o, s') ->
  balances_nonnegative s -> balances_nonnegative s'.
Proof.
  unfold Account_findOneAndUpdate, balances_nonnegative. intros E Hs.
  pose proof (update_first_Forall (fun a => 0 <= Account.balance a)
                (debit_filter id amt)
                (fun a => Account.set_balance (Account.balance a + - amt) a)
                (accounts s) Hs) as H.
  destruct (update_first _ _ _) as [[a|] l]; injection E as <- <-; simpl in *;
    [|exact Hs].
  apply H. intros x Hx _. simpl.
  unfold debit_filter in Hx.
  apply andb_true_iff in Hx as [Hx _]. apply andb_true_iff in Hx as [_ Hx].
  apply Qle_bool_iff in Hx.
  apply (Qplus_le_l _ _ amt). ring_simplify. exact Hx.
Qed.

Lemma credit_nonnegative (id : ObjectId) (amt : Q) (s s' : Store)
  (o : option Account.t) :
  amount_rejected amt = false ->
  Account_findOneAndUpdate (credit_filter id) amt s = (o, s') ->
  balances_nonnegative s -> balances_nonnegative s'.
Proof.
  unfold Account_findOneAndUpdate, balances_nonnegative. intros Ha E Hs.
  apply amount_accepted_positive in Ha.
  pose proof (update_first_Forall (fun a => 0 <= Account.balance a)
                (credit_filter id)
                (fun a => Account.set_balance (Account.balance a + amt) a)
                (accounts s) Hs) as H.
  destruct (update_first _ _ _) as [[a|] l]; injection E as <- <-; simpl in *;
    [|exact Hs].
  apply H. intros x _ Hx. simpl.
  apply Qlt_le_weak in Ha.
  rewrite <- (Qplus_0_r 0). now apply Qplus_le_compat.
Qed.

Lemma Transaction_create_accounts (doc : Transaction.t) (s s' : Store)
  (r : Error + Transaction.t) :
  Transaction_create doc s = (r, s') -> accounts s' = accounts s.
Proof.
  unfold Transaction_create.
  destruct (negb _); [now intros E; injection E as _ <-|].
  destruct (Transaction_findOne _ _ _); intros E; now injection E as _ <-.
Qed.

Section NonNegative.
Variable Number_toString : Q -> string.
Variable env : Env.

(** The other workers keep the balances non-negative. *)
Hypothesis env_nonnegative :
  forall k s, balances_nonnegative s -> balances_nonnegative (env k s).

Lemma nonneg_create (doc : Transaction.t) (s s' : Store)
  (r : Error + Transaction.t) :
  Transaction_create doc s = (r, s') ->
  balances_nonnegative s -> balances_nonnegative s'.
Proof.
  intros E. unfold balances_nonnegative.
  now rewrite (Transaction_create_accounts _ _ _ _ E).
Qed.

Lemma nonneg_ledger (doc : LedgerEntry.t) (s s' : Store)
  (r : Error + LedgerEntry.t) :
  LedgerEntry_create doc s = (r, s') ->
  balances_nonnegative s -> balances_nonnegative s'.
Proof.
  intros E. unfold balances_nonnegative.
  destruct (LedgerEntry_create_frame _ _ _ _ E) as (_ & -> & _). auto.
Qed.

Lemma nonneg_save (x : Transaction.t) (s s' : Store) (r : Error + unit) :
  Transaction_save x s = (r, s') ->
  balances_nonnegative s -> balances_nonnegative s'.
Proof.
  intros E. unfold balances_nonnegative.
  destruct (Transaction_save_frame _ _ _ _ E) as (-> & _ & _). auto.
Qed.

Lemma nonneg_markFailed (id : nat) (st : Status) (reason : string)
  (s s' : Store) (o : option Transaction.t) :
  Transaction_findByIdAndUpdate id st reason s = (o, s') ->
  balances_nonnegative s -> balances_nonnegative s'.
Proof.
  intros E. unfold balances_nonnegative.
  destruct (findByIdAndUpdate_frame _ _ _ _ _ _ E) as (-> & _). auto.
Qed.

(** X2. No request makes a balance negative. When no account of the store
    has a negative balance and the other workers keep it so, no account has
    a negative balance after [_executeTransfer], whatever its parameters and
    its outcome: the debit is applied only to a balance that covers it, and
    an amount that is credited is positive. *)
Theorem balances_stay_nonnegative (p : Params) (s : Store)
  (r : Error + Transaction.t * bool) (w' : World) :
  balances_nonnegative s ->
  _executeTransfer Number_toString env p (init s) = (r, w') ->
  balances_nonnegative (store w').
Proof.
  intros Hs H. unfold_engine_in H.
  repeat (step_in H; simpl in H).
  all: injection H as <- <-; simpl.
  all: eauto 30 using debit_nonnegative, credit_nonnegative, nonneg_create,
         nonneg_ledger, nonneg_save, nonneg_markFailed.
Qed.

End NonNegative.

(** ** A transfer between two accounts *)

Lemma update_first_other_id (f : Account.t -> bool) (g : Account.t -> Account.t)
  (id id' : ObjectId) (l : list Account.t) :
  (forall x, f x = true -> (Account._id x =? id)%string = true) ->
  (forall x, Account._id (g x) = Account._id x) ->
  id' <> id ->
  find (fun x => Account._id x =? id')%string (snd (update_first f g l))
  = find (fun x => Account._id x =? id')%string l.
Proof.
  intros Hf Hg Hne. induction l as [|x l IH]; simpl; [reflexivity|].
  destruct (f x) eqn:Hfx; simpl.
  - rewrite Hg. apply Hf in Hfx. apply String.eqb_eq in Hfx.
    destruct (Account._id x =? id')%string eqn:Hx; [|reflexivity].
    apply String.eqb_eq in Hx. congruence.
  - destruct (update_first f g l) as [o l']. simpl in *. now rewrite IH.
Qed.

Lemma findOneAndUpdate_other (f : Account.t -> bool) (d : Q) (id id' : ObjectId)
  (s s' : Store) (o : option Account.t) :
  Account_findOneAndUpdate f d s = (o, s') ->
  (forall x, f x = true -> (Account._id x =? id)%string = true) ->
  id' <> id ->
  Account_findById id' s' = Account_findById id' s.
Proof.
  intros E Hf Hne.
  pose proof (update_first_other_id f
                (fun a => Account.set_balance (Account.balance a + d) a)
                id id' (accounts s) Hf (fun _ => eq_refl) Hne) as H.
  unfold Account_findOneAndUpdate, Account_findById in *.
  destruct (update_first _ _ _) as [[a|] l]; injection E as <- <-; simpl in *;
    auto.
Qed.

Lemma debit_filter_id (id : ObjectId) (amt : Q) (x : Account.t) :
  debit_filter id amt x = true -> (Account._id x =? id)%string = true.
Proof.
  unfold debit_filter. intros H.
  now apply andb_true_iff in H as [H%andb_true_iff _].
Qed.

Lemma credit_filter_id (id : ObjectId) (x : Account.t) :
  credit_filter id x = true -> (Account._id x =? id)%string = true.
Proof. unfold credit_filter. intros H. now apply andb_true_iff in H. Qed.

Section Transfer.
Variable Number_toString : Q -> string.

(** X3. A first execution between two different accounts, served without
    interference: with an unused non-empty key, an amount that the schema
    accepts, both accounts stored, active and of the asset, and a source
    balance that covers the amount, the Transaction is returned completed;
    the source balance has gone down by the amount and the destination
    balance up by it, no other account has changed; the ledger has grown by
    one debit on the source and one credit on the destination, of that
    amount, each with the new balance of its account as [balanceAfter]. The
    amount, the two balances and the new balance of the destination are safe
    integers, so that the new balances are those that the code computes. *)
Theorem transfer_completes (p : Params) (w : World) (accF accT : Account.t) :
  let key := idempotencyKey p in
  let asset := assetTypeId p in
  let src := fromAccountId p in
  let dst := toAccountId p in
  let a := amount p in
  src <> dst ->
  key <> ""%string ->
  Transaction_findOne key asset (store w) = None ->
  amount_valid a = true ->
  Account_findById src (store w) = Some accF ->
  Account_findById dst (store w) = Some accT ->
  Account.isActive accF = true -> Account.isActive accT = true ->
  Account.assetType accF = asset -> Account.assetType accT = asset ->
  Qle_bool a (Account.balance accF) = true ->
  Number_isSafeInteger a = true ->
  Number_isSafeInteger (Account.balance accF) = true ->
  Number_isSafeInteger (Account.balance accT) = true ->
  Number_isSafeInteger (Account.balance accT + a) = true ->
  exists x d c w',
    _executeTransfer Number_toString quiet p w = (inr (x, false), w') /\
    Transaction.status x = completed /\
    Transaction.amount x = a /\
    Transaction.fromAccount x = src /\ Transaction.toAccount x = dst /\
    Transaction.ledgerEntries x = [LedgerEntry._id d; LedgerEntry._id c] /\
    Transaction_findOne key asset (store w') = Some x /\
    ledger (store w') = ledger (store w) ++ [d; c] /\
    LedgerEntry.transactionId d = Transaction._id x /\
    LedgerEntry.account d = src /\ LedgerEntry.entryType d = debit /\
    LedgerEntry.amount d = a /\
    LedgerEntry.balanceAfter d = Account.balance accF + - a /\
    LedgerEntry.transactionId c = Transaction._id x /\
    LedgerEntry.account c = dst /\ LedgerEntry.entryType c = credit /\
    LedgerEntry.amount c = a /\
    LedgerEntry.balanceAfter c = Account.balance accT + a /\
    balance_of src (store w') = Some (Account.balance accF + - a) /\
    balance_of dst (store w') = Some (Account.balance accT + a) /\
    (forall id, id <> src -> id <> dst ->
       balance_of id (store w') = balance_of id (store w)).
Proof.
  intros key asset src dst a Hne Hkey Hnone Hvalid HaccF HaccT HactF HactT
    HassetF HassetT Hbal _ _ _ _.
  subst key asset src dst a. apply String.eqb_neq in Hkey.
  destruct (_executeTransfer Number_toString quiet p w) as [r w'] eqn:H.
  unfold_engine_in H. unfold quiet in H.
  rewrite Hnone in H. simpl in H.
  rewrite (amount_valid_not_rejected _ Hvalid) in H. simpl in H.
  rewrite HaccF, HaccT in H. simpl in H.
  rewrite HactF, HactT, HassetF, HassetT, String.eqb_refl in H. simpl in H.
  rewrite (Transaction_create_ok (pendingTransaction p) (store w) Hkey Hvalid
             Hnone) in H.
  simpl in H.
  rewrite (findById_id _ _ _ HaccF), (findById_id _ _ _ HaccT) in H.
  set (x0 := Transaction.mk _ _ _ _ _ _ _ pending _ _ _ _) in H.
  set (s1 := set_transactions _ (store w)) in H.
  assert (Hdf : debit_filter (fromAccountId p) (amount p) accF = true).
  { unfold debit_filter.
    now rewrite (findById_id _ _ _ HaccF), String.eqb_refl, Hbal, HactF. }
  assert (Hcf : credit_filter (toAccountId p) accT = true).
  { unfold credit_filter.
    now rewrite (findById_id _ _ _ HaccT), String.eqb_refl, HactT. }
  destruct (String.leb (fromAccountId p) (toAccountId p)); simpl in H.
  - (* the debit first *)
    destruct (findOneAndUpdate_hit _ (- amount p) _ s1 accF HaccF
                (debit_filter_id _ _) Hdf) as (l1 & Hdebit & Hfind1).
    pose proof (findOneAndUpdate_other _ _ _ (toAccountId p) _ _ _ Hdebit
                  (debit_filter_id _ _) (not_eq_sym Hne)) as HT1.
    rewrite Hdebit in H. simpl in H.
    assert (HaccT1 : Account_findById (toAccountId p) (set_accounts l1 s1)
                     = Some accT) by (rewrite HT1; exact HaccT).
    destruct (findOneAndUpdate_hit _ (amount p) _ (set_accounts l1 s1) accT
                HaccT1 (credit_filter_id _) Hcf) as (l2 & Hcredit & Hfind2).
    pose proof (findOneAndUpdate_other _ _ _ (fromAccountId p) _ _ _ Hcredit
                  (credit_filter_id _) Hne) as HF2.
    rewrite Hcredit in H. simpl in H.
    rewrite LedgerEntry_create_ok in H by exact Hvalid. simpl in H.
    rewrite LedgerEntry_create_ok in H by exact Hvalid. simpl in H.
    set (d := LedgerEntry.mk _ _ _ _ debit _ _ _) in H.
    set (c := LedgerEntry.mk _ _ _ _ credit _ _ _) in H.
    rewrite (Transaction_save_last (transactions (store w)) x0) in H
      by reflexivity.
    simpl in H. injection H as <- <-.
    exists (Transaction.set_ledgerEntries
              [LedgerEntry._id d; LedgerEntry._id c]
              (Transaction.set_status completed x0)), d, c.
    eexists. split; [reflexivity|]. simpl.
    repeat split; try assumption; try reflexivity.
    + unfold Transaction_findOne. simpl. apply find_app_last; [exact Hnone|].
      unfold tx_key_matches. simpl. now rewrite !String.eqb_refl.
    + now rewrite <- app_assoc.
    + unfold balance_of, Account_findById in *. simpl in *.
      now rewrite HF2, Hfind1.
    + unfold balance_of, Account_findById in *. simpl in *.
      now rewrite Hfind2.
    + intros id Hid1 Hid2.
      pose proof (findOneAndUpdate_other _ _ _ id _ _ _ Hdebit
                    (debit_filter_id _ _) Hid1) as E1.
      pose proof (findOneAndUpdate_other _ _ _ id _ _ _ Hcredit
                    (credit_filter_id _) Hid2) as E2.
      unfold balance_of, Account_findById in *. simpl in *.
      now rewrite E2, E1.
  - (* the credit first *)
    destruct (findOneAndUpdate_hit _ (amount p) _ s1 accT HaccT
                (credit_filter_id _) Hcf) as (l1 & Hcredit & Hfind1).
    pose proof (findOneAndUpdate_other _ _ _ (fromAccountId p) _ _ _ Hcredit
                  (credit_filter_id _) Hne) as HF1.
    rewrite Hcredit in H. simpl in H.
    assert (HaccF1 : Account_findById (fromAccountId p) (set_accounts l1 s1)
                     = Some accF) by (rewrite HF1; exact HaccF).
    destruct (findOneAndUpdate_hit _ (- amount p) _ (set_accounts l1 s1) accF
                HaccF1 (debit_filter_id _ _) Hdf) as (l2 & Hdebit & Hfind2).
    pose proof (findOneAndUpdate_other _ _ _ (toAccountId p) _ _ _ Hdebit
                  (debit_filter_id _ _) (not_eq_sym Hne)) as HT2.
    rewrite Hdebit in H. simpl in H.
    rewrite LedgerEntry_create_ok in H by exact Hvalid. simpl in H.
    rewrite LedgerEntry_create_ok in H by exact Hvalid. simpl in H.
    set (d := LedgerEntry.mk _ _ _ _ debit _ _ _) in H.
    set (c := LedgerEntry.mk _ _ _ _ credit _ _ _) in H.
    rewrite (Transaction_save_last (transactions (store w)) x0) in H
      by reflexivity.
    simpl in H. injection H as <- <-.
    exists (Transaction.set_ledgerEntries
              [LedgerEntry._id d; LedgerEntry._id c]
              (Transaction.set_status completed x0)), d, c.
    eexists. split; [reflexivity|]. simpl.
    repeat split; try assumption; try reflexivity.
    + unfold Transaction_findOne. simpl. apply find_app_last; [exact Hnone|].
      unfold tx_key_matches. simpl. now rewrite !String.eqb_refl.
    + now rewrite <- app_assoc.
    + unfold balance_of, Account_findById in *. simpl in *.
      now rewrite Hfind2.
    + unfold balance_of, Account_findById in *. simpl in *.
      now rewrite HT2, Hfind1.
    + intros id Hid1 Hid2.
      pose proof (findOneAndUpdate_other _ _ _ id _ _ _ Hcredit
                    (credit_filter_id _) Hid2) as E1.
      pose proof (findOneAndUpdate_other _ _ _ id _ _ _ Hdebit
                    (debit_filter_id _ _) Hid1) as E2.
      unfold balance_of, Account_findById in *. simpl in *.
      now rewrite E2, E1.
Qed.

End Transfer.

(** ** The ledger grows by pairs *)

Lemma Transaction_create_ledger (doc : Transaction.t) (s s' : Store)
  (r : Error + Transaction.t) :
  Transaction_create doc s = (r, s') -> ledger s' = ledger s.
Proof.
  unfold Transaction_create.
  destruct (negb _); [now intros E; injection E as _ <-|].
  destruct (Transaction_findOne _ _ _); intros E; now injection E as _ <-.
Qed.

Lemma findByIdAndUpdate_transactions_ledger (id : nat) (st : Status)
  (reason : string) (s s' : Store) (o : option Transaction.t) :
  Transaction_findByIdAndUpdate id st reason s = (o, s') ->
  ledger s' = ledger s.
Proof. intros E. now destruct (findByIdAndUpdate_frame _ _ _ _ _ _ E). Qed.

Section LedgerPairs.
Variable Number_toString : Q -> string.
Variable env : Env.

(** The other workers act on the accounts only. *)
Hypothesis env_transactions : forall k s, transactions (env k s) = transactions s.
Hypothesis env_ledger : forall k s, ledger (env k s) = ledger s.


End LedgerPairs.

(** ** One Transaction per key *)

Lemma NoDup_snoc {A} (l : list A) (a : A) :
  NoDup l -> ~ In a l -> NoDup (l ++ [a]).
Proof.
  induction l as [|x l IH]; simpl; intros Hl Ha.
  - constructor; [tauto|constructor].
  - inversion Hl as [|? ? Hx Hl']; subst. constructor.
    + rewrite in_app_iff. simpl. intuition congruence.
    + apply IH; tauto.
Qed.

Lemma findOne_none_not_indexed (key : string) (asset : ObjectId) (s : Store) :
  Transaction_findOne key asset s = None ->
  ~ In (key, asset) (map index_key (transactions s)).
Proof.
  unfold Transaction_findOne. intros Hnone Hin.
  apply in_map_iff in Hin as (x & Hx & Hin).
  apply (find_none _ _ Hnone) in Hin.
  unfold index_key in Hx. injection Hx as <- <-.
  now rewrite tx_key_matches_refl in Hin.
Qed.

Lemma update_first_map {A B} (k : A -> B) (p : A -> bool) (f : A -> A)
  (l : list A) :
  (forall x, k (f x) = k x) ->
  map k (snd (update_first p f l)) = map k l.
Proof.
  intros Hk. induction l as [|x l IH]; simpl; [reflexivity|].
  destruct (p x); simpl; [now rewrite Hk|].
  destruct (update_first p f l); simpl in *. now rewrite IH.
Qed.

Lemma create_keys_unique (doc : Transaction.t) (s s' : Store)
  (r : Error + Transaction.t) :
  Transaction_create doc s = (r, s') -> keys_unique s -> keys_unique s'.
Proof.
  destruct r as [e|x]; intros E Hs.
  - now rewrite (Transaction_create_inl _ _ _ _ E).
  - destruct (Transaction_create_inr _ _ _ _ E) as (Hx & -> & _ & Hnone).
    unfold keys_unique. simpl. rewrite map_app. simpl.
    apply NoDup_snoc; [exact Hs|].
    rewrite Hx. unfold index_key. simpl.
    now apply findOne_none_not_indexed.
Qed.

Lemma save_keys_unique (x : Transaction.t) (s s' : Store) (r : Error + unit) :
  Transaction_save x s = (r, s') -> keys_unique s -> keys_unique s'.
Proof.
  unfold Transaction_save, keys_unique. intros E Hs.
  pose proof (update_first_map index_key
                (fun y => Transaction._id y =? Transaction._id x)%nat
                (fun y => Transaction.set_ledgerEntries
                            (Transaction.ledgerEntries x)
                            (Transaction.set_status (Transaction.status x) y))
                (transactions s) (fun _ => eq_refl)) as H.
  destruct (update_first _ _ _) as [[a|] l]; injection E as _ <-; simpl in *;
    [now rewrite H|exact Hs].
Qed.

Lemma markFailed_keys_unique (id : nat) (st : Status) (reason : string)
  (s s' : Store) (o : option Transaction.t) :
  Transaction_findByIdAndUpdate id st reason s = (o, s') ->
  keys_unique s -> keys_unique s'.
Proof.
  unfold Transaction_findByIdAndUpdate, keys_unique. intros E Hs.
  pose proof (update_first_map index_key
                (fun y => Transaction._id y =? id)%nat
                (fun y => Transaction.set_failureReason (Some reason)
                            (Transaction.set_status st y))
                (transactions s) (fun _ => eq_refl)) as H.
  destruct (update_first _ _ _) as [[a|] l]; injection E as _ <-; simpl in *;
    [now rewrite H|exact Hs].
Qed.

Lemma account_update_keys_unique (f : Account.t -> bool) (d : Q) (s s' : Store)
  (o : option Account.t) :
  Account_findOneAndUpdate f d s = (o, s') -> keys_unique s -> keys_unique s'.
Proof.
  intros E. unfold keys_unique.
  now destruct (findOneAndUpdate_frame _ _ _ _ _ E) as (-> & _ & _).
Qed.

Lemma ledger_create_keys_unique (doc : LedgerEntry.t) (s s' : Store)
  (r : Error + LedgerEntry.t) :
  LedgerEntry_create doc s = (r, s') -> keys_unique s -> keys_unique s'.
Proof.
  intros E. unfold keys_unique.
  now destruct (LedgerEntry_create_frame _ _ _ _ E) as (-> & _ & _).
Qed.

Section UniqueKeys.
Variable Number_toString : Q -> string.
Variable env : Env.

(** The other workers keep the keys unique, as the index makes them. *)
Hypothesis env_keys_unique : forall k s, keys_unique s -> keys_unique (env k s).

(** X5. At most one Transaction per [(idempotencyKey, assetType)]: when no
    two Transactions of the store share their key and the other workers keep
    it so, no two Transactions share their key after [_executeTransfer],
    whatever its parameters and its outcome. *)
Theorem keys_stay_unique (p : Params) (s : Store)
  (r : Error + Transaction.t * bool) (w' : World) :
  keys_unique s ->
  _executeTransfer Number_toString env p (init s) = (r, w') ->
  keys_unique (store w').
Proof.
  intros Hs H. unfold_engine_in H.
  repeat (step_in H; simpl in H).
  all: injection H as <- <-; simpl.
  all: eauto 30 using create_keys_unique, save_keys_unique,
         markFailed_keys_unique, account_update_keys_unique,
         ledger_create_keys_unique.
Qed.

End UniqueKeys.

(** ** What a served request has done to the store *)

Section Effect.
Variable Number_toString : Q -> string.

Lemma findOneAndUpdate_some_inv (f : Account.t -> bool) (d : Q) (s s' : Store)
  (u : Account.t) :
  Account_findOneAndUpdate f d s = (Some u, s') ->
  update_first f (inc_balance d) (accounts s) = (Some u, accounts s') /\
  transactions s' = transactions s /\ ledger s' = ledger s /\
  assetTypes s' = assetTypes s.
Proof.
  unfold Account_findOneAndUpdate, inc_balance.
  destruct (update_first _ _ _) as [[a|] l]; intros E; [|discriminate].
  injection E as <- <-. auto.
Qed.

(** A replay leaves the store as it is. *)
Lemma quiet_replay_effect (p : Params) (w w1 : World) (x : Transaction.t) :
  _executeTransfer Number_toString quiet p w = (inr (x, true), w1) ->
  store w1 = store w.
Proof.
  intros H. unfold_engine_in H. unfold quiet in H.
  repeat (step_in H; simpl in H).
  all: inversion H; subst; clear H; simpl.
  all: repeat match goal with
       | E : Transaction_create _ _ = (inl _, _) |- _ =>
         apply Transaction_create_inl in E; subst
       end.
  all: reflexivity.
Qed.

(** A completed transfer has updated the accounts twice, with a debit of
    the source and a credit of the destination, in one order or the other,
    and has appended a debit and a credit to the ledger. *)
Lemma quiet_completed_effect (p : Params) (w w1 : World) (x : Transaction.t) :
  _executeTransfer Number_toString quiet p w = (inr (x, false), w1) ->
  let src := fromAccountId p in
  let dst := toAccountId p in
  let a := amount p in
  exists d c u1 u2 la,
    ledger (store w1) = ledger (store w) ++ [d; c] /\
    LedgerEntry.account d = src /\ LedgerEntry.entryType d = debit /\
    LedgerEntry.amount d = a /\
    LedgerEntry.account c = dst /\ LedgerEntry.entryType c = credit /\
    LedgerEntry.amount c = a /\
    assetTypes (store w1) = assetTypes (store w) /\
    0 < a /\
    ((update_first (debit_filter src a) (inc_balance (- a)) (accounts (store w))
      = (Some u1, la) /\
      update_first (credit_filter dst) (inc_balance a) la
      = (Some u2, accounts (store w1))) \/
     (update_first (credit_filter dst) (inc_balance a) (accounts (store w))
      = (Some u1, la) /\
      update_first (debit_filter src a) (inc_balance (- a)) la
      = (Some u2, accounts (store w1)))).
Proof.
  intros H. unfold_engine_in H. unfold quiet in H.
  repeat (step_in H; simpl in H).
  all: inversion H; subst; clear H; simpl.
  all: repeat match goal with
       | E : Account_findById _ _ = Some _ |- _ =>
         apply findById_id in E; rewrite E in *
       | E : amount_rejected _ = false |- _ =>
         apply amount_accepted_positive in E
       | E : Transaction_create _ _ = (inr _, _) |- _ =>
         destruct (Transaction_create_inr _ _ _ _ E) as (_ & -> & Hv & _);
         simpl in Hv; clear E
       | E : Account_findOneAndUpdate _ _ _ = (Some _, _) |- _ =>
         apply findOneAndUpdate_some_inv in E; destruct E as (? & ? & ? & ?)
       | E : LedgerEntry_create _ _ = (inr _, _) |- _ =>
         rewrite LedgerEntry_create_ok in E by exact Hv;
         inversion E; subst; clear E
       | E : Transaction_save _ _ = (inr _, _) |- _ =>
         apply Transaction_save_frame in E; destruct E as (? & ? & ?)
       end.
  all: simpl in *.
  all: repeat match goal with
       | E : ledger ?v = _ |- _ => is_var v; rewrite E in *; clear E
       | E : accounts ?v = _ |- _ => is_var v; rewrite E in *; clear E
       | E : assetTypes ?v = _ |- _ => is_var v; rewrite E in *; clear E
       end.
  all: do 5 eexists; split; [rewrite <- app_assoc; reflexivity|].
  all: simpl; repeat (split; [reflexivity || assumption|]).
  all: first [left; split; eassumption | right; split; eassumption].
Qed.

End Effect.

(** ** The ledger and the cached balance move together *)

Lemma ledger_sum_app (l l' : list LedgerEntry.t) :
  ledger_sum (l ++ l') = fold_left add_entry l' (ledger_sum l).
Proof. unfold ledger_sum. apply fold_left_app. Qed.

Lemma update_first_ids (p : Account.t -> bool) (d : Q) (l : list Account.t) :
  map Account._id (snd (update_first p (inc_balance d) l))
  = map Account._id l.
Proof. apply update_first_map. reflexivity. Qed.

Lemma update_first_some_in {A} (p : A -> bool) (f : A -> A) (l l' : list A)
  (u : A) :
  update_first p f l = (Some u, l') ->
  exists x, In x l /\ p x = true.
Proof.
  revert l'. induction l as [|x l IH]; simpl; intros l' E; [discriminate|].
  destruct (p x) eqn:Hp; [eauto|].
  destruct (update_first p f l) as [o r] eqn:Hu.
  injection E as -> <-. destruct (IH r eq_refl) as (y & Hy & Hpy). eauto.
Qed.

(** With unique ids, an update whose filter asks for the id [id0] changes the
    document that a lookup finds exactly when that document has the id. *)
Lemma find_after_update (q p : Account.t -> bool) (d : Q) (id0 : ObjectId)
  (l l' : list Account.t) (u : Account.t) :
  NoDup (map Account._id l) ->
  (forall x b, q (Account.set_balance b x) = q x) ->
  (forall x, p x = true -> (Account._id x =? id0)%string = true) ->
  update_first p (inc_balance d) l = (Some u, l') ->
  find q l'
  = option_map (fun a => if (Account._id a =? id0)%string
                         then inc_balance d a else a)
      (find q l).
Proof.
  intros Hnd Hq Hp. revert l'.
  induction l as [|x l IH]; simpl; intros l' E; [discriminate|].
  inversion Hnd as [|? ? Hx Hnd']; subst.
  destruct (p x) eqn:Hpx.
  - injection E as _ <-. simpl. unfold inc_balance at 1. rewrite Hq.
    pose proof (Hp x Hpx) as Hid.
    destruct (q x) eqn:Hqx; simpl; [now rewrite Hid|].
    destruct (find q l) as [a|] eqn:Hf; simpl; [|reflexivity].
    apply find_some in Hf as [Hin _].
    destruct (Account._id a =? id0)%string eqn:Ha; [|reflexivity].
    exfalso. apply Hx. apply String.eqb_eq in Hid, Ha.
    rewrite Hid, <- Ha. now apply in_map.
  - destruct (update_first p (inc_balance d) l) as [o r] eqn:Hu.
    injection E as -> <-. simpl.
    destruct (q x) eqn:Hqx; simpl; [|now apply IH].
    destruct (Account._id x =? id0)%string eqn:Hid; [|reflexivity].
    exfalso. destruct (update_first_some_in _ _ _ _ _ Hu) as (y & Hy & Hpy).
    apply Hp in Hpy. apply String.eqb_eq in Hid, Hpy.
    apply Hx. rewrite Hid, <- Hpy. now apply in_map.
Qed.

Lemma inc_balance_fields (d : Q) (x : Account.t) :
  Account._id (inc_balance d x) = Account._id x /\
  Account.isActive (inc_balance d x) = Account.isActive x /\
  Account.balance (inc_balance d x) = Account.balance x + d.
Proof. now destruct x. Qed.

Lemma find_after_step (q p : Account.t -> bool) (d : Q) (id0 : ObjectId)
  (l l' : list Account.t) (u a0 : Account.t) :
  NoDup (map Account._id l) ->
  (forall x b, q (Account.set_balance b x) = q x) ->
  (forall x, p x = true -> (Account._id x =? id0)%string = true) ->
  update_first p (inc_balance d) l = (Some u, l') ->
  find q l = Some a0 ->
  exists a1, find q l' = Some a1 /\
    Account._id a1 = Account._id a0 /\
    Account.isActive a1 = Account.isActive a0 /\
    Account.balance a1 == Account.balance a0 + moved id0 (Account._id a0) d.
Proof.
  intros Hnd Hq Hp Hu Hf.
  rewrite (find_after_update q p d id0 l l' u Hnd Hq Hp Hu), Hf. simpl.
  unfold moved. destruct (Account._id a0 =? id0)%string.
  - eexists; split; [reflexivity|].
    destruct (inc_balance_fields d a0) as (-> & -> & ->).
    repeat split; reflexivity.
  - eexists; split; [reflexivity|]. repeat split; try reflexivity. ring.
Qed.

Lemma add_entry_compat (x y : Q) (e : LedgerEntry.t) :
  x == y -> add_entry x e == add_entry y e.
Proof.
  intros H. unfold add_entry. destruct (LedgerEntry.entryType e);
    rewrite H; reflexivity.
Qed.

Lemma Qlt_bool_compat (x y e : Q) : x == y -> Qlt_bool x e = Qlt_bool y e.
Proof.
  intros H. unfold Qlt_bool. f_equal.
  destruct (Qle_bool e x) eqn:E1, (Qle_bool e y) eqn:E2; try reflexivity.
  - apply Qle_bool_iff in E1. rewrite H in E1. apply Qle_bool_iff in E1.
    congruence.
  - apply Qle_bool_iff in E2. rewrite <- H in E2. apply Qle_bool_iff in E2.
    congruence.
Qed.

Lemma verify_quiet_inv (userId assetCode : string) (s : Store)
  (v : Integrity.t) (w1 : World) :
  verifyLedgerIntegrity quiet userId assetCode (init s) = (inr v, w1) ->
  exists t a,
    AssetType_findOne_active (toUpperCase assetCode) s = Some t /\
    Account_findOne userId (AssetType._id t) s = Some a /\
    Account.isActive a = true /\
    v = integrity_of userId assetCode a s.
Proof.
  unfold verifyLedgerIntegrity, _getAssetType, _getUserAccount, query,
    yield, read, bind, ret, throw, quiet, init. simpl.
  destruct (AssetType_findOne_active _ s) as [t|] eqn:Ht; simpl;
    [|discriminate].
  destruct (Account_findOne _ _ s) as [a|] eqn:Ha; simpl; [|discriminate].
  destruct (Account.isActive a) eqn:Hact; simpl; [|discriminate].
  intros E. injection E as <- _. exists t, a. now repeat split.
Qed.

Lemma verify_quiet_run (userId assetCode : string) (s : Store)
  (t : AssetType.t) (a : Account.t) :
  AssetType_findOne_active (toUpperCase assetCode) s = Some t ->
  Account_findOne userId (AssetType._id t) s = Some a ->
  Account.isActive a = true ->
  exists w2,
    verifyLedgerIntegrity quiet userId assetCode (init s)
    = (inr (integrity_of userId assetCode a s), w2).
Proof.
  intros Ht Ha Hact.
  unfold verifyLedgerIntegrity, _getAssetType, _getUserAccount, query,
    yield, read, bind, ret, throw, quiet, init. simpl.
  rewrite Ht. simpl. rewrite Ha. simpl. rewrite Hact. simpl.
  eexists. reflexivity.
Qed.

Lemma NoDup_map_inj {A B} (f : A -> B) (l : list A) (x y : A) :
  NoDup (map f l) -> In x l -> In y l -> f x = f y -> x = y.
Proof.
  induction l as [|z l IH]; simpl; intros Hnd Hx Hy E; [contradiction|].
  inversion Hnd as [|? ? Hz Hnd']; subst.
  destruct Hx as [-> | Hx], Hy as [-> | Hy]; auto.
  - exfalso. apply Hz. rewrite E. now apply in_map.
  - exfalso. apply Hz. rewrite <- E. now apply in_map.
Qed.

Section WalletAfterTransfer.
Variable Number_toString : Q -> string.

(** The wallet of a user after a transfer that completed without
    interference: the same document, with the amount added if it is the
    destination and taken if it is the source; the debit found the amount
    covered. *)
Lemma wallet_after_transfer (p : Params) (w w' : World) (x : Transaction.t)
  (userId : string) (asset : ObjectId) (a0 : Account.t) :
  account_ids_unique (store w) ->
  _executeTransfer Number_toString quiet p w = (inr (x, false), w') ->
  Account_findOne userId asset (store w) = Some a0 ->
  exists a1,
    Account_findOne userId asset (store w') = Some a1 /\
    Account._id a1 = Account._id a0 /\
    Account.isActive a1 = Account.isActive a0 /\
    Account.balance a1
    == Account.balance a0
       + moved (toAccountId p) (Account._id a0) (amount p)
       + moved (fromAccountId p) (Account._id a0) (- amount p) /\
    (Account._id a0 = fromAccountId p ->
     Account._id a0 <> toAccountId p ->
     amount p <= Account.balance a0).
Proof.
  intros Hnd Hrun Hf.
  apply quiet_completed_effect in Hrun. simpl in Hrun.
  destruct Hrun as (d & c & u1 & u2 & la & _ & _ & _ & _ & _ & _ & _ & _ & _
                    & Hacc).
  unfold Account_findOne in *.
  assert (Hq : forall (y : Account.t) (b : Q),
             ((Account.userId (Account.set_balance b y) =? userId)
              && (Account.assetType (Account.set_balance b y) =? asset))%string
             = ((Account.userId y =? userId)
                && (Account.assetType y =? asset))%string)
    by (now intros []).
  assert (Hcover : forall (l l' : list Account.t) (b u : Account.t),
    NoDup (map Account._id l) ->
    find (fun a => (Account.userId a =? userId)
                   && (Account.assetType a =? asset))%string l = Some b ->
    update_first (debit_filter (fromAccountId p) (amount p))
      (inc_balance (- amount p)) l = (Some u, l') ->
    Account._id b = fromAccountId p ->
    amount p <= Account.balance b).
  { intros l l' b u Hl Hb Hu Hsrc.
    destruct (update_first_some_in _ _ _ _ _ Hu) as (y & Hy & Hpy).
    apply find_some in Hb as [Hb _].
    assert (y = b) as ->.
    { apply (NoDup_map_inj Account._id l); auto.
      apply debit_filter_id, String.eqb_eq in Hpy. congruence. }
    unfold debit_filter in Hpy.
    apply andb_true_iff in Hpy as [Hpy _].
    apply andb_true_iff in Hpy as [_ Hpy].
    now apply Qle_bool_iff. }
  destruct Hacc as [[H1 H2] | [H1 H2]].
  - destruct (find_after_step _ _ _ _ _ _ _ _ Hnd Hq
                (debit_filter_id _ _) H1 Hf) as (b & Hb & Hb1 & Hb2 & Hb3).
    assert (Hnd' : NoDup (map Account._id la)).
    { replace la with
        (snd (update_first (debit_filter (fromAccountId p) (amount p))
                (inc_balance (- amount p)) (accounts (store w))))
        by (now rewrite H1).
      now rewrite update_first_ids. }
    destruct (find_after_step _ _ _ _ _ _ _ _ Hnd' Hq
                (credit_filter_id _) H2 Hb) as (b' & Hb' & Hb1' & Hb2' & Hb3').
    exists b'. split; [exact Hb'|]. split; [congruence|].
    split; [congruence|]. split; [rewrite Hb3', Hb1, Hb3; ring|].
    intros Hsrc _. exact (Hcover _ _ _ _ Hnd Hf H1 Hsrc).
  - destruct (find_after_step _ _ _ _ _ _ _ _ Hnd Hq
                (credit_filter_id _) H1 Hf) as (b & Hb & Hb1 & Hb2 & Hb3).
    assert (Hnd' : NoDup (map Account._id la)).
    { replace la with
        (snd (update_first (credit_filter (toAccountId p))
                (inc_balance (amount p)) (accounts (store w))))
        by (now rewrite H1).
      now rewrite update_first_ids. }
    destruct (find_after_step _ _ _ _ _ _ _ _ Hnd' Hq
                (debit_filter_id _ _) H2 Hb) as (b' & Hb' & Hb1' & Hb2' & Hb3').
    exists b'. split; [exact Hb'|]. split; [congruence|].
    split; [congruence|]. split; [rewrite Hb3', Hb1, Hb3; ring|].
    intros Hsrc Hdst.
    assert (Hle : amount p <= Account.balance b)
      by (apply (Hcover _ _ _ _ Hnd' Hb H2); congruence).
    rewrite Hb3 in Hle. unfold moved in Hle.
    destruct (Account._id a0 =? toAccountId p)%string eqn:E;
      [apply String.eqb_eq in E; contradiction|].
    now rewrite Qplus_0_r in Hle.
Qed.

End WalletAfterTransfer.

Section IntegrityPreserved.
Variable Number_toString : Q -> string.

(** X6. A request that succeeds, run without interference on a store whose
    account ids are unique, moves the cached balance of every wallet and the
    sum of its ledger entries by the same amount: if [verifyLedgerIntegrity]
    answered for a wallet before the request, it answers after it, with the
    same difference between computed and cached balance and the same
    [isConsistent]. The amount, the balances and the amounts of the ledger
    entries are safe integers, and so are the sums that the request and
    [verifyLedgerIntegrity] form, so that these sums are those that the code
    computes. *)
Theorem integrity_is_preserved (p : Params) (s : Store)
  (r : Transaction.t * bool) (w' : World) (userId assetCode : string)
  (v : Integrity.t) (w1 : World) :
  account_ids_unique s ->
  balances_are_exact (amount p) s = true ->
  ledger_is_exact (amount p) s = true ->
  _executeTransfer Number_toString quiet p (init s) = (inr r, w') ->
  verifyLedgerIntegrity quiet userId assetCode (init s) = (inr v, w1) ->
  exists v' w2,
    verifyLedgerIntegrity quiet userId assetCode (init (store w'))
    = (inr v', w2) /\
    Integrity.computedBalance v' - Integrity.cachedBalance v'
    == Integrity.computedBalance v - Integrity.cachedBalance v /\
    Integrity.isConsistent v' = Integrity.isConsistent v.
Proof.
  intros Hnd _ _ Hrun Hv. destruct r as [x [|]].
  - apply quiet_replay_effect in Hrun. simpl in Hrun. rewrite Hrun.
    exists v, w1. split; [assumption | split; reflexivity].
  - apply verify_quiet_inv in Hv as (t & a0 & Ht & Hf & Hact & ->).
    destruct (wallet_after_transfer _ p (init s) w' x userId (AssetType._id t)
                a0 Hnd Hrun Hf) as (a1 & Hf1 & Hid & Hact1 & Hbal & _).
    apply quiet_completed_effect in Hrun. simpl in Hrun.
    destruct Hrun as (d & c & u1 & u2 & la & Hl & Hd1 & Hd2 & Hd3 & Hc1 & Hc2
                      & Hc3 & Hat & Hpos & Hacc).
    rewrite Hact in Hact1.
    assert (Ht' : AssetType_findOne_active (toUpperCase assetCode) (store w')
                  = Some t)
      by (unfold AssetType_findOne_active in *; now rewrite Hat).
    destruct (verify_quiet_run userId assetCode (store w') t a1 Ht' Hf1 Hact1)
      as (w2 & Hv').
    exists (integrity_of userId assetCode a1 (store w')), w2.
    split; [exact Hv'|].
    assert (Hsum :
      ledger_sum (LedgerEntry_find (Account._id a1) (store w'))
      == ledger_sum (LedgerEntry_find (Account._id a0) s)
         + moved (toAccountId p) (Account._id a0) (amount p)
         + moved (fromAccountId p) (Account._id a0) (- amount p)).
    { unfold LedgerEntry_find. rewrite Hl, Hid, filter_app, ledger_sum_app.
      simpl. rewrite Hd1, Hc1. unfold moved.
      rewrite (String.eqb_sym (fromAccountId p)),
        (String.eqb_sym (toAccountId p)).
      destruct (Account._id a0 =? fromAccountId p)%string,
        (Account._id a0 =? toAccountId p)%string; simpl;
        unfold add_entry; rewrite ?Hd2, ?Hc2, ?Hd3, ?Hc3; ring. }
    unfold integrity_of.
    cbn [Integrity.computedBalance Integrity.cachedBalance
           Integrity.isConsistent].
    split.
    + rewrite Hsum, Hbal. ring.
    + apply Qlt_bool_compat. refine (Qabs.Qabs_wd _ _ _).
      rewrite Hsum, Hbal. ring.
Qed.

End IntegrityPreserved.

(** ** The flows and the balance that [getBalance] shows *)

Section Flows.
Variable Number_toString : Q -> string.

(** A flow that returns a result resolved the asset type, the active wallet
    of the user and the system account, then executed the transfer on the
    store it started from. *)
Lemma flow_quiet_inv (uid code sys : string)
  (params : AssetType.t -> Account.t -> Account.t -> Params)
  (s : Store) (r : Transaction.t * bool) (w1 : World) :
  flow Number_toString quiet uid code sys params (init s) = (inr r, w1) ->
  exists a u y w0,
    AssetType_findOne_active (toUpperCase code) s = Some a /\
    Account_findOne uid (AssetType._id a) s = Some u /\
    Account.isActive u = true /\
    Account_findOne_system sys (AssetType._id a) s = Some y /\
    store w0 = s /\
    _executeTransfer Number_toString quiet (params a u y) w0 = (inr r, w1).
Proof.
  intros H. unfold flow in H.
  unfold bind at 1 in H. rewrite getAssetType_run in H. simpl in H.
  destruct (AssetType_findOne_active (toUpperCase code) s) as [a|] eqn:Ha;
    [|discriminate].
  unfold bind at 1 in H; rewrite yield_quiet in H; simpl in H.
  unfold bind at 1 in H.
  destruct (_getUserAccount uid (AssetType._id a) _) as [[e|u] wu] eqn:Hu;
    [discriminate|].
  pose proof (getUserAccount_world _ _ _ _ _ Hu) as ->. simpl in H.
  unfold bind at 1 in H; rewrite yield_quiet in H; simpl in H.
  unfold bind at 1 in H.
  destruct (_getSystemAccount sys (AssetType._id a) _) as [[e|y] wy] eqn:Hy;
    [discriminate|].
  pose proof (getSystemAccount_world _ _ _ _ _ Hy) as ->. simpl in H.
  unfold bind at 1 in H; rewrite yield_quiet in H; simpl in H.
  unfold _getUserAccount, bind, query, throw, ret in Hu. simpl in Hu.
  destruct (Account_findOne uid (AssetType._id a) s) as [u0|] eqn:Hu0;
    [|discriminate].
  destruct (Account.isActive u0) eqn:Hact; simpl in Hu; [|discriminate].
  injection Hu as ->.
  unfold _getSystemAccount, bind, query, throw, ret in Hy. simpl in Hy.
  destruct (Account_findOne_system sys (AssetType._id a) s) as [y0|] eqn:Hy0;
    [|discriminate].
  injection Hy as ->.
  exists a, u, y. eexists. repeat split; try eassumption. reflexivity.
Qed.

Lemma getBalance_quiet_run (userId assetCode : string) (s : Store)
  (t : AssetType.t) (a : Account.t) :
  AssetType_findOne_active (toUpperCase assetCode) s = Some t ->
  Account_findOne userId (AssetType._id t) s = Some a ->
  exists w,
    getBalance quiet userId assetCode (init s)
    = (inr (BalanceView.mk userId (AssetType.code t) (AssetType.name t)
              (Account.balance a) (Account._id a)), w).
Proof.
  intros Ht Ha. unfold getBalance.
  unfold bind at 1. rewrite getAssetType_run. simpl. rewrite Ht.
  unfold bind at 1; rewrite yield_quiet; simpl.
  unfold bind, query, ret. simpl. rewrite Ha. eexists. reflexivity.
Qed.

(** The user's wallet and a system account of another name are two
    accounts. *)
Lemma user_is_not_system (uid sys : string) (asset : ObjectId) (s : Store)
  (u y : Account.t) :
  account_ids_unique s ->
  uid <> sys ->
  Account_findOne uid asset s = Some u ->
  Account_findOne_system sys asset s = Some y ->
  Account._id u <> Account._id y.
Proof.
  intros Hnd Hne Hu Hy E.
  unfold Account_findOne in Hu. unfold Account_findOne_system in Hy.
  apply find_some in Hu as [Hu Hqu]. apply find_some in Hy as [Hy Hqy].
  assert (u = y) as -> by (apply (NoDup_map_inj Account._id (accounts s));
                           auto).
  apply andb_true_iff in Hqu as [Hqu _]. apply String.eqb_eq in Hqu.
  repeat (apply andb_true_iff in Hqy as [Hqy _]).
  apply String.eqb_eq in Hqy. congruence.
Qed.

(** What a flow that created its transaction does to the balance shown:
    [to_user] tells whether the user's wallet is the destination. *)
Lemma flow_moves_balance (uid code sys : string)
  (params : AssetType.t -> Account.t -> Account.t -> Params)
  (to_user : bool) (amt : Q)
  (s : Store) (x : Transaction.t) (w' : World) :
  (forall a u y,
     amount (params a u y) = amt /\
     fromAccountId (params a u y)
     = (if to_user then Account._id y else Account._id u) /\
     toAccountId (params a u y)
     = (if to_user then Account._id u else Account._id y)) ->
  account_ids_unique s ->
  uid <> sys ->
  flow Number_toString quiet uid code sys params (init s)
  = (inr (x, false), w') ->
  exists b b' w1 w2,
    getBalance quiet uid code (init s) = (inr b, w1) /\
    getBalance quiet uid code (init (store w')) = (inr b', w2) /\
    BalanceView.accountId b' = BalanceView.accountId b /\
    BalanceView.balance b'
    == BalanceView.balance b + (if to_user then amt else - amt) /\
    (to_user = false -> amt <= BalanceView.balance b).
Proof.
  intros Hp Hnd Hne H.
  apply flow_quiet_inv in H
    as (a & u & y & w0 & Ha & Hu & Hact & Hy & Hs & Hrun).
  destruct (Hp a u y) as (Hamt & Hfrom & Hto).
  pose proof (user_is_not_system _ _ _ _ _ _ Hnd Hne Hu Hy) as Hid.
  subst s.
  destruct (wallet_after_transfer _ _ _ _ _ uid (AssetType._id a) u Hnd Hrun Hu)
    as (u' & Hu' & Hid' & _ & Hbal & Hcover).
  apply quiet_completed_effect in Hrun. simpl in Hrun.
  destruct Hrun as (_ & _ & _ & _ & _ & _ & _ & _ & _ & _ & _ & _ & Hat & _).
  assert (Ha' : AssetType_findOne_active (toUpperCase code) (store w') = Some a)
    by (unfold AssetType_findOne_active in *; now rewrite Hat).
  destruct (getBalance_quiet_run uid code (store w0) a u Ha Hu) as (w1 & H1).
  destruct (getBalance_quiet_run uid code (store w') a u' Ha' Hu') as (w2 & H2).
  do 4 eexists. split; [exact H1|]. split; [exact H2|].
  cbn [BalanceView.accountId BalanceView.balance].
  split; [exact Hid'|].
  rewrite Hfrom, Hto, Hamt in *. unfold moved in Hbal.
  destruct to_user.
  - rewrite String.eqb_refl in Hbal.
    destruct (Account._id u =? Account._id y)%string eqn:E;
      [apply String.eqb_eq in E; contradiction|].
    split; [rewrite Hbal; ring | discriminate].
  - rewrite String.eqb_refl in Hbal.
    destruct (Account._id u =? Account._id y)%string eqn:E;
      [apply String.eqb_eq in E; contradiction|].
    split; [rewrite Hbal; ring | intros _; now apply Hcover].
Qed.

(** X7. A top-up that created its transaction, run without interference on
    a store with unique account ids and for a user other than the treasury,
    raises the balance that [getBalance] shows for the user by exactly the
    amount; the wallet is the same account. The balance shown before, the
    amount and their sum are safe integers, so that the sum is the one that
    the code computes. *)
Theorem topUp_raises_balance (userId assetCode key : string) (amt : Q)
  (meta : Obj) (s : Store) (x : Transaction.t) (w' : World)
  (b : BalanceView.t) (w1 : World) :
  account_ids_unique s ->
  userId <> "SYSTEM_TREASURY"%string ->
  getBalance quiet userId assetCode (init s) = (inr b, w1) ->
  Number_isSafeInteger amt = true ->
  Number_isSafeInteger (BalanceView.balance b) = true ->
  Number_isSafeInteger (BalanceView.balance b + amt) = true ->
  topUp Number_toString quiet userId assetCode amt key meta (init s)
  = (inr (x, false), w') ->
  exists b' w2,
    getBalance quiet userId assetCode (init (store w')) = (inr b', w2) /\
    BalanceView.accountId b' = BalanceView.accountId b /\
    BalanceView.balance b' == BalanceView.balance b + amt.
Proof.
  intros Hnd Hne Hb _ _ _ H.
  destruct (flow_moves_balance userId assetCode "SYSTEM_TREASURY"
              (fun a u y =>
                 mkParams key (Account._id y) (Account._id u) (AssetType._id a)
                   amt TxType.topup
                   ("Top-up: " ++ Number_toString amt ++ " " ++ AssetType.code a
                    ++ " for user " ++ userId)%string meta)
              true amt s x w' (fun a u y => conj eq_refl (conj eq_refl eq_refl))
              Hnd Hne H)
    as (b0 & b' & w0 & w2 & H1 & H2 & Hid & Hbal & _).
  rewrite Hb in H1. injection H1 as <- _.
  exists b', w2. auto.
Qed.

(** X8. A bonus that created its transaction, run without interference on a
    store with unique account ids and for a user other than the bonus pool,
    raises the balance that [getBalance] shows for the user by exactly the
    amount. The balance shown before, the amount and their sum are safe
    integers, so that the sum is the one that the code computes. *)
Theorem issueBonus_raises_balance (userId assetCode key reason : string)
  (amt : Q) (meta : Obj) (s : Store) (x : Transaction.t) (w' : World)
  (b : BalanceView.t) (w1 : World) :
  account_ids_unique s ->
  userId <> "SYSTEM_BONUS_POOL"%string ->
  getBalance quiet userId assetCode (init s) = (inr b, w1) ->
  Number_isSafeInteger amt = true ->
  Number_isSafeInteger (BalanceView.balance b) = true ->
  Number_isSafeInteger (BalanceView.balance b + amt) = true ->
  issueBonus Number_toString quiet userId assetCode amt key reason meta (init s)
  = (inr (x, false), w') ->
  exists b' w2,
    getBalance quiet userId assetCode (init (store w')) = (inr b', w2) /\
    BalanceView.accountId b' = BalanceView.accountId b /\
    BalanceView.balance b' == BalanceView.balance b + amt.
Proof.
  intros Hnd Hne Hb _ _ _ H.
  destruct (flow_moves_balance userId assetCode "SYSTEM_BONUS_POOL"
              (fun a u y =>
                 mkParams key (Account._id y) (Account._id u) (AssetType._id a)
                   amt TxType.bonus
                   ("Bonus issued: " ++ Number_toString amt ++ " "
                    ++ AssetType.code a ++ " to user " ++ userId ++ " — "
                    ++ reason)%string
                   (spread [("reason", reason)] meta))
              true amt s x w' (fun a u y => conj eq_refl (conj eq_refl eq_refl))
              Hnd Hne H)
    as (b0 & b' & w0 & w2 & H1 & H2 & Hid & Hbal & _).
  rewrite Hb in H1. injection H1 as <- _.
  exists b', w2. auto.
Qed.

(** X9. A spend that created its transaction, run without interference on a
    store with unique account ids and for a user other than the revenue
    account, lowers the balance that [getBalance] shows for the user by
    exactly the amount, and the balance before covered the amount. The
    balance shown before and the amount are safe integers, so that the
    difference is the one that the code computes. *)
Theorem spend_lowers_balance (userId assetCode key itemId : string)
  (amt : Q) (meta : Obj) (s : Store) (x : Transaction.t) (w' : World)
  (b : BalanceView.t) (w1 : World) :
  account_ids_unique s ->
  userId <> "SYSTEM_REVENUE"%string ->
  getBalance quiet userId assetCode (init s) = (inr b, w1) ->
  Number_isSafeInteger amt = true ->
  Number_isSafeInteger (BalanceView.balance b) = true ->
  spend Number_toString quiet userId assetCode amt key itemId meta (init s)
  = (inr (x, false), w') ->
  exists b' w2,
    getBalance quiet userId assetCode (init (store w')) = (inr b', w2) /\
    BalanceView.accountId b' = BalanceView.accountId b /\
    BalanceView.balance b' == BalanceView.balance b - amt /\
    amt <= BalanceView.balance b.
Proof.
  intros Hnd Hne Hb _ _ H.
  destruct (flow_moves_balance userId assetCode "SYSTEM_REVENUE"
              (fun a u y =>
                 mkParams key (Account._id u) (Account._id y) (AssetType._id a)
                   amt TxType.spend
                   ("Spend: " ++ Number_toString amt ++ " " ++ AssetType.code a
                    ++ " by user " ++ userId ++ " for item " ++ itemId)%string
                   (spread [("itemId", itemId)] meta))
              false amt s x w' (fun a u y => conj eq_refl (conj eq_refl eq_refl))
              Hnd Hne H)
    as (b0 & b' & w0 & w2 & H1 & H2 & Hid & Hbal & Hle).
  rewrite Hb in H1. injection H1 as <- _.
  exists b', w2. repeat split; auto.
Qed.

End Flows.

(** ** The pages of the history *)

Lemma ceil_div_bounds (total limit : nat) :
  (1 <= limit)%nat ->
  let pages := ((total + limit - 1) / limit)%nat in
  (total <= pages * limit)%nat /\ (pages * limit < total + limit)%nat.
Proof.
  intros Hl pages.
  pose proof (Nat.div_mod_eq (total + limit - 1) limit) as E.
  pose proof (Nat.mod_upper_bound (total + limit - 1) limit) as U.
  fold pages in E. nia.
Qed.

Section HistoryPages.
Variable newest_first : list LedgerEntry.t -> list LedgerEntry.t.
Variable env : Env.
Hypothesis newest_first_length :
  forall l, length (newest_first l) = length l.
Hypothesis env_ledger : forall k s, ledger (env k s) = ledger s.

(** X10. The pages of [getHistory], for a page and a limit of at least 1,
    while the other requests add nothing to the ledger. The answer is about
    the wallet that the store holds for the user and the asset code:
    [currentBalance] is its balance, [total] is the number of its ledger
    entries, and the entries returned are those of the page: the segment of
    [limit] entries, after the [(page - 1) * limit] first ones, of its
    entries in the order asked for. [pages] is the least number of pages of
    [limit] entries that holds them all; a page has at most [limit]
    entries, every page before the last is full, and a page is empty
    exactly when it lies after the last. *)
Theorem history_pages (userId assetCode : string) (page limit : nat)
  (s : Store) (h : History.t) (w' : World) :
  (1 <= page)%nat ->
  (1 <= limit)%nat ->
  getHistory newest_first env userId assetCode page limit (init s)
  = (inr h, w') ->
  let pg := History.pagination h in
  exists (t : AssetType.t) (account : Account.t) (pages : nat),
    AssetType_findOne_active (toUpperCase assetCode) s = Some t /\
    Account_findOne userId (AssetType._id t) (env 0%nat s) = Some account /\
    History.userId h = userId /\
    History.assetCode h = assetCode /\
    History.currentBalance h = Account.balance account /\
    Pagination.page pg = page /\
    Pagination.limit pg = limit /\
    Pagination.total pg = LedgerEntry_count (Account._id account) s /\
    Pagination.pages pg = Finite pages /\
    map HistoryEntry.id (History.entries h)
    = map LedgerEntry._id
        (firstn limit
           (skipn ((page - 1) * limit)
              (newest_first (LedgerEntry_find (Account._id account) s)))) /\
    (Pagination.total pg <= pages * limit)%nat /\
    (pages * limit < Pagination.total pg + limit)%nat /\
    (length (History.entries h) <= limit)%nat /\
    ((page < pages)%nat -> length (History.entries h) = limit) /\
    (History.entries h = [] <-> (pages < page)%nat).
Proof.
  intros Hp Hl H. unfold getHistory in H.
  destruct ((assetType <- _getAssetType assetCode ;; _) (init s))
    as [[e|account] w1] eqn:Hpre; [discriminate|].
  assert (Hacc : exists t,
             AssetType_findOne_active (toUpperCase assetCode) s = Some t /\
             Account_findOne userId (AssetType._id t) (env 0%nat s)
             = Some account /\
             ledger (store w1) = ledger s).
  { unfold bind at 1 in Hpre. rewrite getAssetType_run in Hpre.
    simpl in Hpre.
    destruct (AssetType_findOne_active _ s) as [t|]; [|discriminate].
    unfold _getUserAccount, yield, bind, query, throw, ret in Hpre.
    simpl in Hpre.
    destruct (Account_findOne userId (AssetType._id t) (env 0%nat s))
      as [a|] eqn:Ha; [|discriminate].
    destruct (Account.isActive a); simpl in Hpre; [|discriminate].
    injection Hpre as <- <-. simpl. rewrite !env_ledger.
    exists t. auto. }
  destruct Hacc as (t & Ht & Hfind & Hled).
  destruct page as [|page']; [lia|]. simpl in H.
  unfold Promise_all2, read, yield in H. simpl in H.
  injection H as <- <-. simpl.
  exists t, account,
    ((LedgerEntry_count (Account._id account) s + limit - 1) / limit)%nat.
  assert (Hcount : LedgerEntry_count (Account._id account)
                     (env (clock w1) (store w1))
                   = LedgerEntry_count (Account._id account) s)
    by (unfold LedgerEntry_count, LedgerEntry_find;
        now rewrite env_ledger, Hled).
  rewrite Hcount.
  set (n := LedgerEntry_count (Account._id account) s).
  assert (Hlen : length (LedgerEntry_page newest_first (Account._id account)
                           ((page' - 0) * limit) limit (store w1))
                 = Nat.min limit (n - page' * limit)).
  { unfold LedgerEntry_page, limit_to. rewrite length_map.
    destruct limit as [|l']; [lia|].
    rewrite length_firstn, length_skipn, newest_first_length.
    unfold n, LedgerEntry_count, LedgerEntry_find. rewrite Hled.
    now rewrite Nat.sub_0_r. }
  destruct (ceil_div_bounds n limit Hl) as [Hlo Hhi].
  set (pages := ((n + limit - 1) / limit)%nat) in *.
  rewrite length_map, Hlen.
  split; [exact Ht|]. split; [exact Hfind|].
  do 6 (split; [reflexivity|]).
  split; [unfold Math_ceil_div; destruct limit; [lia | reflexivity]|].
  split.
  { unfold LedgerEntry_page, limit_to, LedgerEntry_find.
    rewrite Hled, !map_map. simpl.
    destruct limit as [|l']; [lia|]. reflexivity. }
  split; [exact Hlo|]. split; [exact Hhi|].
  split; [lia|]. split; [nia|].
  split.
  - intros E. apply (f_equal (@length _)) in E.
    rewrite length_map, Hlen in E. simpl in E. nia.
  - intros Hlt. apply length_zero_iff_nil. rewrite length_map, Hlen. nia.
Qed.

End HistoryPages.

(** ** Conservation *)

Lemma update_first_some_elem {A} (p : A -> bool) (f : A -> A) (l l' : list A)
  (u : A) :
  update_first p f l = (Some u, l') ->
  exists x, In x l /\ p x = true /\ u = f x.
Proof.
  revert l'. induction l as [|x l IH]; simpl; intros l' E; [discriminate|].
  destruct (p x) eqn:Hp.
  - injection E as <- _. eauto.
  - destruct (update_first p f l) as [o r] eqn:Hu.
    injection E as -> <-. destruct (IH r eq_refl) as (y & Hy & Hpy & ->).
    eauto.
Qed.

Lemma total_after_update (asset : ObjectId) (p : Account.t -> bool) (d : Q)
  (l l' : list Account.t) (u : Account.t) :
  update_first p (inc_balance d) l = (Some u, l') ->
  total_balance asset l'
  == total_balance asset l + moved asset (Account.assetType u) d.
Proof.
  revert l'. induction l as [|x l IH]; simpl; intros l' E; [discriminate|].
  destruct (p x) eqn:Hp.
  - injection E as <- <-. unfold total_balance, moved. simpl.
    destruct x as [i uid ty at' bal dn act md]; simpl.
    destruct (at' =? asset)%string; simpl; ring.
  - destruct (update_first p (inc_balance d) l) as [o r] eqn:Hu.
    injection E as -> <-. specialize (IH r eq_refl).
    unfold total_balance in *. simpl.
    destruct (Account.assetType x =? asset)%string; simpl; rewrite ?IH; ring.
Qed.

Lemma updated_asset (p : Account.t -> bool) (d : Q) (id0 : ObjectId)
  (l l' : list Account.t) (u f : Account.t) :
  NoDup (map Account._id l) ->
  find (fun a => Account._id a =? id0)%string l = Some f ->
  (forall x, p x = true -> (Account._id x =? id0)%string = true) ->
  update_first p (inc_balance d) l = (Some u, l') ->
  Account.assetType u = Account.assetType f.
Proof.
  intros Hnd Hf Hp Hu.
  destruct (update_first_some_elem _ _ _ _ _ Hu) as (x & Hx & Hpx & ->).
  apply find_some in Hf as [Hf Hid].
  assert (x = f) as ->.
  { apply (NoDup_map_inj Account._id l); auto.
    apply Hp, String.eqb_eq in Hpx. apply String.eqb_eq in Hid. congruence. }
  now destruct f.
Qed.

Lemma find_by_id_after (p : Account.t -> bool) (d : Q) (id0 id1 : ObjectId)
  (l l' : list Account.t) (u f : Account.t) :
  NoDup (map Account._id l) ->
  find (fun a => Account._id a =? id1)%string l = Some f ->
  (forall x, p x = true -> (Account._id x =? id0)%string = true) ->
  update_first p (inc_balance d) l = (Some u, l') ->
  exists f', find (fun a => Account._id a =? id1)%string l' = Some f' /\
             Account.assetType f' = Account.assetType f.
Proof.
  intros Hnd Hf Hp Hu.
  rewrite (find_after_update (fun a => Account._id a =? id1)%string p d id0
             l l' u Hnd (fun x b => ltac:(now destruct x)) Hp Hu), Hf.
  simpl. eexists. split; [reflexivity|].
  destruct (Account._id f =? id0)%string; now destruct f.
Qed.

Section Conservation.
Variable Number_toString : Q -> string.

(** A transfer that completed had found both accounts, of the asset type of
    the request. *)
Lemma quiet_completed_accounts (p : Params) (w w1 : World)
  (x : Transaction.t) :
  _executeTransfer Number_toString quiet p w = (inr (x, false), w1) ->
  exists f t,
    Account_findById (fromAccountId p) (store w) = Some f /\
    Account_findById (toAccountId p) (store w) = Some t /\
    Account.assetType f = assetTypeId p /\
    Account.assetType t = assetTypeId p.
Proof.
  intros H. unfold_engine_in H. unfold quiet in H.
  repeat (step_in H; simpl in H).
  all: inversion H; subst; clear H; simpl.
  all: repeat match goal with
       | E : _ || _ = false |- _ => apply orb_false_iff in E; destruct E
       | E : negb _ = false |- _ => apply negb_false_iff in E
       | E : (_ =? _)%string = true |- _ => apply String.eqb_eq in E
       end.
  all: do 2 eexists; repeat split; eassumption.
Qed.

(** X11. A request that succeeds, run without interference on a store whose
    account ids are unique, moves value and neither creates nor destroys
    it: for every asset type, the sum of the balances of its accounts is
    the same after the request as before. The amount and the balances are
    safe integers and stay so when the amount is added, so that the new
    balances are those that the code computes. *)
Theorem total_balance_is_conserved (p : Params) (s : Store)
  (r : Transaction.t * bool) (w' : World) (asset : ObjectId) :
  account_ids_unique s ->
  balances_are_exact (amount p) s = true ->
  _executeTransfer Number_toString quiet p (init s) = (inr r, w') ->
  total_balance asset (accounts (store w'))
  == total_balance asset (accounts s).
Proof.
  intros Hnd _ Hrun. destruct r as [x [|]].
  - apply quiet_replay_effect in Hrun. simpl in Hrun. now rewrite Hrun.
  - destruct (quiet_completed_accounts _ _ _ _ Hrun)
      as (f & t & Hf & Ht & Haf & Hat).
    apply quiet_completed_effect in Hrun. simpl in Hrun, Hf, Ht.
    destruct Hrun as (_ & _ & u1 & u2 & la & _ & _ & _ & _ & _ & _ & _ & _ & _
                      & Hacc).
    unfold Account_findById in Hf, Ht.
    destruct Hacc as [[H1 H2] | [H1 H2]].
    + pose proof (updated_asset _ _ _ _ _ _ _ Hnd Hf (debit_filter_id _ _) H1)
        as Hu1.
      destruct (find_by_id_after _ _ _ _ _ _ _ _ Hnd Ht (debit_filter_id _ _)
                  H1) as (t' & Ht' & Hat').
      assert (Hnd' : NoDup (map Account._id la)).
      { replace la with
          (snd (update_first (debit_filter (fromAccountId p) (amount p))
                  (inc_balance (- amount p)) (accounts s)))
          by (now rewrite H1).
        now rewrite update_first_ids. }
      pose proof (updated_asset _ _ _ _ _ _ _ Hnd' Ht' (credit_filter_id _) H2)
        as Hu2.
      rewrite (total_after_update asset _ _ _ _ _ H2),
        (total_after_update asset _ _ _ _ _ H1).
      rewrite Hu1, Hu2, Hat', Haf, Hat. unfold moved.
      destruct (assetTypeId p =? asset)%string; ring.
    + pose proof (updated_asset _ _ _ _ _ _ _ Hnd Ht (credit_filter_id _) H1)
        as Hu1.
      destruct (find_by_id_after _ _ _ _ _ _ _ _ Hnd Hf (credit_filter_id _)
                  H1) as (f' & Hf' & Haf').
      assert (Hnd' : NoDup (map Account._id la)).
      { replace la with
          (snd (update_first (credit_filter (toAccountId p))
                  (inc_balance (amount p)) (accounts s)))
          by (now rewrite H1).
        now rewrite update_first_ids. }
      pose proof (updated_asset _ _ _ _ _ _ _ Hnd' Hf' (debit_filter_id _ _) H2)
        as Hu2.
      rewrite (total_after_update asset _ _ _ _ _ H2),
        (total_after_update asset _ _ _ _ _ H1).
      rewrite Hu1, Hu2, Haf', Haf, Hat. unfold moved.
      destruct (assetTypeId p =? asset)%string; ring.
Qed.

End Conservation.

(** ** A deactivated wallet *)

Section Inactive.
Variable Number_toString : Q -> string.
Variable newest_first : list LedgerEntry.t -> list LedgerEntry.t.

Lemma flow_inactive (uid code sys : string)
  (params : AssetType.t -> Account.t -> Account.t -> Params)
  (s : Store) (t : AssetType.t) (a : Account.t) :
  AssetType_findOne_active (toUpperCase code) s = Some t ->
  Account_findOne uid (AssetType._id t) s = Some a ->
  Account.isActive a = false ->
  exists w,
    flow Number_toString quiet uid code sys params (init s)
    = (inl (WalletInactive uid), w) /\
    store w = s /\ forallb is_read (trace w) = true.
Proof.
  intros Ht Ha Hact. unfold flow.
  unfold bind at 1. rewrite getAssetType_run. simpl. rewrite Ht.
  unfold bind at 1; rewrite yield_quiet; simpl.
  unfold _getUserAccount, bind, query, throw, ret. simpl.
  rewrite Ha. simpl. rewrite Hact. simpl.
  eexists. split; [reflexivity|]. split; reflexivity.
Qed.

(** X12. A wallet that is deactivated can be read and nothing else:
    [getBalance] shows its balance, while [topUp], [issueBonus], [spend],
    [getHistory] and [verifyLedgerIntegrity] answer that the wallet is
    inactive; the three flows stop after their lookups and leave the store
    as it was. *)
Theorem inactive_wallet_is_read_only (userId assetCode key reason itemId : string)
  (amt : Q) (meta : Obj) (page limit : nat) (s : Store) (t : AssetType.t)
  (a : Account.t) :
  AssetType_findOne_active (toUpperCase assetCode) s = Some t ->
  Account_findOne userId (AssetType._id t) s = Some a ->
  Account.isActive a = false ->
  (exists w,
     getBalance quiet userId assetCode (init s)
     = (inr (BalanceView.mk userId (AssetType.code t) (AssetType.name t)
               (Account.balance a) (Account._id a)), w)) /\
  (exists w,
     topUp Number_toString quiet userId assetCode amt key meta (init s)
     = (inl (WalletInactive userId), w) /\
     store w = s /\ forallb is_read (trace w) = true) /\
  (exists w,
     issueBonus Number_toString quiet userId assetCode amt key reason meta
       (init s)
     = (inl (WalletInactive userId), w) /\
     store w = s /\ forallb is_read (trace w) = true) /\
  (exists w,
     spend Number_toString quiet userId assetCode amt key itemId meta (init s)
     = (inl (WalletInactive userId), w) /\
     store w = s /\ forallb is_read (trace w) = true) /\
  (exists w,
     getHistory newest_first quiet userId assetCode page limit (init s)
     = (inl (Thrown (WalletInactive userId)), w)) /\
  (exists w,
     verifyLedgerIntegrity quiet userId assetCode (init s)
     = (inl (WalletInactive userId), w)).
Proof.
  intros Ht Ha Hact.
  split; [exact (getBalance_quiet_run userId assetCode s t a Ht Ha)|].
  split; [exact (flow_inactive userId assetCode "SYSTEM_TREASURY" _ s t a
                   Ht Ha Hact)|].
  split; [exact (flow_inactive userId assetCode "SYSTEM_BONUS_POOL" _ s t a
                   Ht Ha Hact)|].
  split; [exact (flow_inactive userId assetCode "SYSTEM_REVENUE" _ s t a
                   Ht Ha Hact)|].
  split.
  - unfold getHistory.
    unfold bind at 1. rewrite getAssetType_run. simpl. rewrite Ht.
    unfold bind at 1; rewrite yield_quiet; simpl.
    unfold _getUserAccount, bind, query, throw, ret. simpl.
    rewrite Ha. simpl. rewrite Hact. simpl. eexists. reflexivity.
  - unfold verifyLedgerIntegrity.
    unfold bind at 1. rewrite getAssetType_run. simpl. rewrite Ht.
    unfold bind at 1; rewrite yield_quiet; simpl.
    unfold _getUserAccount, bind, query, throw, ret. simpl.
    rewrite Ha. simpl. rewrite Hact. simpl. eexists. reflexivity.
Qed.

End Inactive.

(** ** The order of the two balance updates *)

Lemma findOneAndUpdate_accounts (f : Account.t -> bool) (d : Q) (s s' : Store)
  (o : option Account.t) :
  Account_findOneAndUpdate f d s = (o, s') ->
  update_first f (inc_balance d) (accounts s) = (o, accounts s').
Proof.
  unfold Account_findOneAndUpdate, inc_balance.
  destruct (update_first _ _ _) as [[a|] l] eqn:E; intros H;
    injection H as <- <-; [reflexivity|].
  pose proof (update_first_fst f
                (fun a => Account.set_balance (Account.balance a + d) a)
                (accounts s)) as Hf.
  rewrite E in Hf. simpl in Hf.
  destruct (find f (accounts s)) eqn:Hfind; [discriminate|].
  rewrite (update_first_none _ _ _ Hfind) in E. now injection E as <-.
Qed.

Section LockOrder.
Variable Number_toString : Q -> string.
Variable env : Env.

Lemma lock_order_trace (p : Params) (s : Store) :
  let src := fromAccountId p in
  let dst := toAccountId p in
  let a := amount p in
  let tr := trace (snd (_executeTransfer Number_toString env p (init s))) in
  let ups := balance_updates tr in
  (ups = [] /\
   forall id, ~ In (EvTxCreate (idempotencyKey p) (assetTypeId p) (inr id)) tr) \/
  (String.leb src dst = true /\
   (ups = [EvDebit src a false] \/
    exists ok, ups = [EvDebit src a true; EvCredit dst a ok])) \/
  (String.ltb dst src = true /\
   (ups = [EvCredit dst a false] \/
    exists ok, ups = [EvCredit dst a true; EvDebit src a ok])).
Proof.
  intros src dst a tr ups. subst src dst a ups tr.
  destruct (_executeTransfer Number_toString env p (init s)) as [r w'] eqn:H.
  unfold_engine_in H.
  repeat (step_in H; simpl in H).
  all: injection H as <- <-; simpl.
  all: repeat match goal with
       | E : Account_findById _ _ = Some _ |- _ =>
         apply findById_id in E; try rewrite E
       | E : String.leb _ _ = false |- _ => apply leb_false_ltb in E
       end.
  all: try (left; split; [reflexivity|];
            intros id Hin; simpl in Hin; intuition congruence).
  all: eauto 8.
Qed.

Lemma lock_order_applied (p : Params) (s : Store) :
  (forall k s, accounts (env k s) = accounts s) ->
  let w' := snd (_executeTransfer Number_toString env p (init s)) in
  apply_updates (balance_updates (trace w')) (accounts s)
  = Some (accounts (store w')).
Proof.
  intros env_accounts w'. subst w'.
  destruct (_executeTransfer Number_toString env p (init s)) as [r w'] eqn:H.
  unfold_engine_in H.
  repeat (step_in H; simpl in H).
  all: injection H as <- <-; simpl.
  all: repeat match goal with
       | E : Account_findOneAndUpdate _ _ _ = (_, _) |- _ =>
         apply findOneAndUpdate_accounts in E
       | E : Transaction_create _ _ = (_, _) |- _ =>
         apply Transaction_create_accounts in E
       | E : LedgerEntry_create _ _ = (_, _) |- _ =>
         apply LedgerEntry_create_frame in E; destruct E as (_ & E & _)
       | E : Transaction_save _ _ = (_, _) |- _ =>
         apply Transaction_save_frame in E; destruct E as (E & _ & _)
       | E : Transaction_findByIdAndUpdate _ _ _ _ = (_, _) |- _ =>
         apply findByIdAndUpdate_frame in E; destruct E as (E & _)
       end.
  all: rewrite ?env_accounts in *.
  all: repeat match goal with
       | E : accounts ?v = _ |- _ => is_var v; rewrite E in *; clear E
       end.
  all: rewrite ?env_accounts in *.
  all: repeat match goal with
       | E : update_first _ _ _ = (_, _) |- _ => rewrite E; clear E; simpl
       end.
  all: try reflexivity.
Qed.

Lemma find_filter_some {A} (p q : A -> bool) (l : list A) (x : A) :
  find p l = Some x -> q x = true -> find q l <> None.
Proof.
  intros Hp Hq Hn. apply find_some in Hp as [Hin _].
  pose proof (find_none q l Hn x Hin). congruence.
Qed.

Lemma credit_matches (id : ObjectId) (s : Store) (t : Account.t) (a : Q) :
  Account_findById id s = Some t ->
  Account.isActive t = true ->
  fst (Account_findOneAndUpdate (credit_filter id) a s) <> None.
Proof.
  intros Hf Hact. unfold Account_findOneAndUpdate.
  pose proof (update_first_fst (credit_filter id)
                (fun x => Account.set_balance (Account.balance x + a) x)
                (accounts s)) as E.
  destruct (update_first _ _ _) as [o l]. simpl in *. subst o.
  destruct (find (credit_filter id) (accounts s)) eqn:Hq; [discriminate|].
  exfalso. revert Hq. apply (find_filter_some _ _ _ t Hf).
  unfold credit_filter. rewrite (findById_id _ _ _ Hf), String.eqb_refl.
  exact Hact.
Qed.

Lemma debit_matches (id : ObjectId) (s : Store) (f : Account.t) (a : Q) :
  Account_findById id s = Some f ->
  Account.isActive f = true ->
  Qle_bool a (Account.balance f) = true ->
  fst (Account_findOneAndUpdate (debit_filter id a) (- a) s) <> None.
Proof.
  intros Hf Hact Hle. unfold Account_findOneAndUpdate.
  pose proof (update_first_fst (debit_filter id a)
                (fun x => Account.set_balance (Account.balance x + - a) x)
                (accounts s)) as E.
  destruct (update_first _ _ _) as [o l]. simpl in *. subst o.
  destruct (find (debit_filter id a) (accounts s)) eqn:Hq; [discriminate|].
  exfalso. revert Hq. apply (find_filter_some _ _ _ f Hf).
  unfold debit_filter. rewrite (findById_id _ _ _ Hf), String.eqb_refl, Hle.
  exact Hact.
Qed.

Lemma findById_accounts (id : ObjectId) (s s' : Store) :
  accounts s' = accounts s -> Account_findById id s' = Account_findById id s.
Proof. unfold Account_findById. now intros ->. Qed.

(** After an update of the accounts and a step of the other workers, who
    leave the accounts alone, the credit of an account that was stored and
    active matches. *)
Lemma credit_after (f : Account.t -> bool) (d : Q) (s s1 : Store)
  (o : option Account.t) (k : nat) (id : ObjectId) (t : Account.t) (a : Q) :
  (forall k s, accounts (env k s) = accounts s) ->
  Account_findOneAndUpdate f d s = (o, s1) ->
  Account_findById id s = Some t ->
  Account.isActive t = true ->
  exists u s2,
    Account_findOneAndUpdate (credit_filter id) a (env k s1) = (Some u, s2).
Proof.
  intros env_accounts E Hf Hact.
  pose proof (findOneAndUpdate_same_wallet _ _ _ _ _ E) as Hsw.
  pose proof (find_same_wallet (fun x => Account._id x =? id)%string _ _
                (fun x y Hxy => ltac:(destruct Hxy as (-> & _); reflexivity))
                Hsw) as Hfind.
  unfold Account_findById in Hf. rewrite Hf in Hfind.
  destruct Hfind as (b & Hb & Hsame).
  assert (Hb' : Account_findById id (env k s1) = Some b)
    by (unfold Account_findById; now rewrite env_accounts).
  assert (Hactb : Account.isActive b = true)
    by (destruct Hsame as (_ & _ & _ & _ & <-); exact Hact).
  pose proof (credit_matches id (env k s1) b a Hb' Hactb) as Hm.
  destruct (Account_findOneAndUpdate (credit_filter id) a (env k s1))
    as [[u|] s2]; [eauto | now elim Hm].
Qed.

Lemma lock_order_first (p : Params) (s : Store) (accF accT : Account.t) :
  let key := idempotencyKey p in
  let asset := assetTypeId p in
  let src := fromAccountId p in
  let dst := toAccountId p in
  let a := amount p in
  let tr := trace (snd (_executeTransfer Number_toString env p (init s))) in
  let ups := balance_updates tr in
  (forall k s, accounts (env k s) = accounts s) ->
  (forall k s, Transaction_findOne key asset (env k s)
               = Transaction_findOne key asset s) ->
  Transaction_findOne key asset s = None ->
  key <> ""%string ->
  amount_valid a = true ->
  Account_findById src s = Some accF ->
  Account_findById dst s = Some accT ->
  Account.isActive accF = true -> Account.isActive accT = true ->
  Account.assetType accF = asset -> Account.assetType accT = asset ->
  (exists id, In (EvTxCreate key asset (inr id)) tr) /\
  ((String.leb src dst = true /\
    (ups = [EvDebit src a false] \/
     ups = [EvDebit src a true; EvCredit dst a true]) /\
    (Qle_bool a (Account.balance accF) = true ->
     ups = [EvDebit src a true; EvCredit dst a true])) \/
   (String.ltb dst src = true /\
    exists ok, ups = [EvCredit dst a true; EvDebit src a ok] /\
               (Qle_bool a (Account.balance accF) = true -> ok = true))).
Proof.
  intros key asset src dst a tr ups env_accounts env_key Hnone Hkey Hvalid
    HaccF HaccT HactF HactT HassetF HassetT.
  subst key asset src dst a ups tr. apply String.eqb_neq in Hkey.
  destruct (_executeTransfer Number_toString env p (init s)) as [r w'] eqn:H.
  unfold_engine_in H.
  rewrite Hnone in H. simpl in H.
  rewrite (amount_valid_not_rejected _ Hvalid) in H. simpl in H.
  rewrite (findById_accounts (fromAccountId p) s (env 0%nat s)) in H
    by apply env_accounts.
  rewrite (findById_accounts (toAccountId p) s (env 1%nat (env 0%nat s))) in H
    by (now rewrite !env_accounts).
  rewrite HaccF, HaccT in H. simpl in H.
  rewrite HactF, HactT, HassetF, HassetT, String.eqb_refl in H. simpl in H.
  rewrite (Transaction_create_ok (pendingTransaction p)
             (env 2%nat (env 1%nat (env 0%nat s))) Hkey Hvalid) in H
    by (simpl; now rewrite !env_key).
  simpl in H.
  rewrite (findById_id _ _ _ HaccF), (findById_id _ _ _ HaccT) in H.
  set (x0 := Transaction.mk _ _ _ _ _ _ _ pending _ _ _ _) in H.
  set (S3 := env 3%nat _) in H.
  assert (HS3 : accounts S3 = accounts s)
    by (subst S3; rewrite env_accounts; simpl; now rewrite !env_accounts).
  assert (HF3 : Account_findById (fromAccountId p) S3 = Some accF)
    by (now rewrite (findById_accounts _ s S3 HS3)).
  assert (HT3 : Account_findById (toAccountId p) S3 = Some accT)
    by (now rewrite (findById_accounts _ s S3 HS3)).
  destruct (String.leb (fromAccountId p) (toAccountId p)) eqn:Hleb;
    simpl in H.
  - (* the debit first *)
    destruct (Account_findOneAndUpdate (debit_filter _ _) _ S3)
      as [o1 s1] eqn:E1.
    destruct o1 as [u1|].
    + destruct (credit_after _ _ _ _ _ 4%nat _ _ (amount p) env_accounts E1 HT3
                  HactT)
        as (u2 & s2 & E2).
      simpl in H. rewrite E2 in H. simpl in H.
      repeat (step_in H; simpl in H).
      all: injection H as <- <-; simpl.
      all: (split; [eexists; simpl; eauto 10|]).
      all: left; split; [reflexivity|]; split; auto.
    + simpl in H. repeat (step_in H; simpl in H).
      all: injection H as <- <-; simpl.
      all: (split; [eexists; simpl; eauto 10|]).
      all: left; split; [reflexivity|]; split; [auto|].
      all: intros Hle; exfalso.
      all: apply (debit_matches _ _ _ _ HF3 HactF Hle); now rewrite E1.
  - (* the credit first *)
    assert (Hne : fromAccountId p <> toAccountId p)
      by (intros E; rewrite E, leb_refl in Hleb; discriminate).
    apply leb_false_ltb in Hleb.
    destruct (Account_findOneAndUpdate (credit_filter _) _ S3)
      as [o1 s1] eqn:E1.
    destruct o1 as [u1|];
      [|exfalso; apply (credit_matches _ _ _ (amount p) HT3 HactT);
        now rewrite E1].
    simpl in H.
    pose proof (findOneAndUpdate_other _ _ _ (fromAccountId p) _ _ _ E1
                  (credit_filter_id _) Hne) as HF1.
    rewrite HF3 in HF1.
    assert (HF1' : Account_findById (fromAccountId p) (env 4%nat s1)
                   = Some accF)
      by (now rewrite (findById_accounts _ s1 _ (env_accounts _ _))).
    destruct (Account_findOneAndUpdate (debit_filter _ _) _ (env 4%nat s1))
      as [o2 s2] eqn:E2.
    simpl in H.
    destruct o2 as [u2|].
    + simpl in H. repeat (step_in H; simpl in H).
      all: injection H as <- <-; simpl.
      all: (split; [eexists; simpl; eauto 10|]).
      all: right; split; [exact Hleb|]; exists true; split; auto.
    + simpl in H. repeat (step_in H; simpl in H).
      all: injection H as <- <-; simpl.
      all: (split; [eexists; simpl; eauto 10|]).
      all: right; split; [exact Hleb|]; exists false; split; [reflexivity|].
      all: intros Hle; exfalso.
      all: apply (debit_matches _ _ _ _ HF1' HactF Hle); now rewrite E2.
Qed.

(** C7. The order of the two balance updates. (1) For every input and
    every behaviour of the other workers, the balance updates that the
    request issues are, in this order: the debit of the source, then the
    credit of the destination, when the source id is not greater than the
    destination id in the order of their strings; the credit of the
    destination, then the debit of the source, otherwise. The second update
    is issued only when the first one matched, and none is issued when the
    pending Transaction was not inserted. So the first update always touches
    the smaller account id. (2) These updates are what the request does to
    the accounts: when the other workers leave the accounts alone, the
    accounts at the end are the accounts at the start with the recorded
    updates applied in the recorded order, each matching or not as
    recorded. (3) A first execution issues them: when no Transaction is
    stored under the key and the other workers insert none, the key is not
    empty, the schema accepts the amount, and both accounts are stored,
    active and of the asset, the pending Transaction is inserted and the
    first update is issued, on the smaller id; the credit matches, and the
    debit matches when the balance of the source covers the amount. *)
Theorem lock_order (p : Params) (s : Store) :
  let key := idempotencyKey p in
  let asset := assetTypeId p in
  let src := fromAccountId p in
  let dst := toAccountId p in
  let a := amount p in
  let w' := snd (_executeTransfer Number_toString env p (init s)) in
  let tr := trace w' in
  let ups := balance_updates tr in
  ((ups = [] /\ forall id, ~ In (EvTxCreate key asset (inr id)) tr) \/
   (String.leb src dst = true /\
    (ups = [EvDebit src a false] \/
     exists ok, ups = [EvDebit src a true; EvCredit dst a ok])) \/
   (String.ltb dst src = true /\
    (ups = [EvCredit dst a false] \/
     exists ok, ups = [EvCredit dst a true; EvDebit src a ok]))) /\
  ((forall k s, accounts (env k s) = accounts s) ->
   apply_updates ups (accounts s) = Some (accounts (store w'))) /\
  ((forall k s, accounts (env k s) = accounts s) ->
   (forall k s, Transaction_findOne key asset (env k s)
                = Transaction_findOne key asset s) ->
   Transaction_findOne key asset s = None ->
   key <> ""%string ->
   amount_valid a = true ->
   forall accF accT,
   Account_findById src s = Some accF ->
   Account_findById dst s = Some accT ->
   Account.isActive accF = true -> Account.isActive accT = true ->
   Account.assetType accF = asset -> Account.assetType accT = asset ->
   (exists id, In (EvTxCreate key asset (inr id)) tr) /\
   ((String.leb src dst = true /\
     (ups = [EvDebit src a false] \/
      ups = [EvDebit src a true; EvCredit dst a true]) /\
     (Qle_bool a (Account.balance accF) = true ->
      ups = [EvDebit src a true; EvCredit dst a true])) \/
    (String.ltb dst src = true /\
     exists ok, ups = [EvCredit dst a true; EvDebit src a ok] /\
                (Qle_bool a (Account.balance accF) = true -> ok = true)))).
Proof.
  intros key asset src dst a w' tr ups.
  split; [exact (lock_order_trace p s)|].
  split; [exact (lock_order_applied p s)|].
  intros Ha Hk Hnone Hkey Hvalid accF accT.
  exact (lock_order_first p s accF accT Ha Hk Hnone Hkey Hvalid).
Qed.

End LockOrder.

(** ** The states of a Transaction *)

Lemma update_first_found {A} (q : A -> bool) (f : A -> A) (l : list A)
  (x : A) :
  find q l = Some x -> q (f x) = true ->
  exists l', update_first q f l = (Some (f x), l') /\ find q l' = Some (f x).
Proof.
  intros Hf Hq. induction l as [|y l IH]; simpl in *; [discriminate|].
  destruct (q y) eqn:Hy.
  - injection Hf as ->. eexists. split; [reflexivity|]. simpl. now rewrite Hq.
  - destruct (IH Hf) as (l' & -> & Hl'). eexists. split; [reflexivity|].
    simpl. now rewrite Hy.
Qed.

Lemma update_first_In_other {A} (q : A -> bool) (f : A -> A) (l : list A)
  (y : A) :
  In y l -> q y = false -> In y (snd (update_first q f l)).
Proof.
  intros Hin Hq. induction l as [|x l IH]; simpl in *; [contradiction|].
  destruct (q x) eqn:Hx; simpl.
  - destruct Hin as [-> | Hin]; [congruence | now right].
  - destruct (update_first q f l) as [o l']. simpl in *.
    destruct Hin as [-> | Hin]; [now left | right; auto].
Qed.

Lemma Transaction_create_findById (doc x : Transaction.t) (s s' : Store) :
  Transaction_create doc s = (inr x, s') ->
  Transaction_findById (Transaction._id x) s' = Some x /\
  ~ In (Transaction._id x) (map Transaction._id (transactions s)) /\
  Transaction.status x = Transaction.status doc /\
  amount_valid (Transaction.amount doc) = true.
Proof.
  intros E. destruct (Transaction_create_inr _ _ _ _ E) as (Hx & -> & Hv & _).
  assert (Hid : Transaction._id x
                = fresh_id (map Transaction._id (transactions s)))
    by (now rewrite Hx).
  split; [|split; [rewrite Hid; apply fresh_id_fresh|split; [now rewrite Hx|
                                                             exact Hv]]].
  unfold Transaction_findById. simpl. rewrite Hid.
  apply find_app_last; [apply find_id_fresh|].
  rewrite <- Hid. apply Nat.eqb_refl.
Qed.

Lemma Transaction_save_found (x x0 : Transaction.t) (s : Store) :
  Transaction_findById (Transaction._id x) s = Some x0 ->
  exists s',
    Transaction_save x s = (inr tt, s') /\
    Transaction_findById (Transaction._id x) s'
    = Some (Transaction.set_ledgerEntries (Transaction.ledgerEntries x)
              (Transaction.set_status (Transaction.status x) x0)) /\
    ledger s' = ledger s.
Proof.
  intros Hf. unfold Transaction_findById, Transaction_save in *.
  assert (Hid : Transaction._id x0 = Transaction._id x)
    by (apply find_some in Hf as [_ Hf]; now apply Nat.eqb_eq in Hf).
  destruct (update_first_found _
              (fun y => Transaction.set_ledgerEntries
                          (Transaction.ledgerEntries x)
                          (Transaction.set_status (Transaction.status x) y))
              _ _ Hf) as (l' & -> & Hl').
  { simpl. rewrite Hid. apply Nat.eqb_refl. }
  eexists. split; [reflexivity|]. split; [exact Hl' | reflexivity].
Qed.

Lemma Transaction_markFailed_found (id : nat) (reason : string)
  (x0 : Transaction.t) (s s' : Store) (o : option Transaction.t) :
  Transaction_findById id s = Some x0 ->
  Transaction_findByIdAndUpdate id failed reason s = (o, s') ->
  Transaction_findById id s'
  = Some (Transaction.set_failureReason (Some reason)
            (Transaction.set_status failed x0)).
Proof.
  intros Hf. unfold Transaction_findById, Transaction_findByIdAndUpdate in *.
  assert (Hid : Transaction._id x0 = id)
    by (apply find_some in Hf as [_ Hf]; now apply Nat.eqb_eq in Hf).
  destruct (update_first_found _
              (fun y => Transaction.set_failureReason (Some reason)
                          (Transaction.set_status failed y))
              _ _ Hf) as (l' & -> & Hl').
  { simpl. rewrite Hid. apply Nat.eqb_refl. }
  intros E. injection E as _ <-. exact Hl'.
Qed.

Lemma create_keeps (doc : Transaction.t) (s s' : Store)
  (r : Error + Transaction.t) (y : Transaction.t) :
  Transaction_create doc s = (r, s') ->
  In y (transactions s) -> In y (transactions s').
Proof.
  unfold Transaction_create.
  destruct (negb _); [now intros E; injection E as _ <-|].
  destruct (Transaction_findOne _ _ _); intros E; injection E as _ <-;
    [auto|]. simpl. intros H. apply in_or_app. now left.
Qed.

Lemma create_fresh_other (doc x : Transaction.t) (s s' : Store)
  (y : Transaction.t) :
  Transaction_create doc s = (inr x, s') ->
  In y (transactions s) -> Transaction._id y <> Transaction._id x.
Proof.
  intros E Hin Hid.
  destruct (Transaction_create_findById _ _ _ _ E) as (_ & Hfresh & _).
  apply Hfresh. rewrite <- Hid. now apply in_map.
Qed.

Lemma account_update_keeps (f : Account.t -> bool) (d : Q) (s s' : Store)
  (o : option Account.t) (y : Transaction.t) :
  Account_findOneAndUpdate f d s = (o, s') ->
  In y (transactions s) -> In y (transactions s').
Proof.
  intros E. now destruct (findOneAndUpdate_frame _ _ _ _ _ E) as (-> & _ & _).
Qed.

Lemma ledger_create_keeps (doc : LedgerEntry.t) (s s' : Store)
  (r : Error + LedgerEntry.t) (y : Transaction.t) :
  LedgerEntry_create doc s = (r, s') ->
  In y (transactions s) -> In y (transactions s').
Proof.
  intros E. now destruct (LedgerEntry_create_frame _ _ _ _ E) as (-> & _ & _).
Qed.

Lemma save_keeps (x : Transaction.t) (s s' : Store) (r : Error + unit)
  (y : Transaction.t) :
  Transaction_save x s = (r, s') ->
  Transaction._id y <> Transaction._id x ->
  In y (transactions s) -> In y (transactions s').
Proof.
  unfold Transaction_save. intros E Hne Hin.
  pose proof (update_first_In_other
                (fun z => Transaction._id z =? Transaction._id x)%nat
                (fun z => Transaction.set_ledgerEntries
                            (Transaction.ledgerEntries x)
                            (Transaction.set_status (Transaction.status x) z))
                _ y Hin (proj2 (Nat.eqb_neq _ _) Hne)) as H.
  destruct (update_first _ _ _) as [[a|] l]; injection E as _ <-; simpl in *;
    auto.
Qed.

Lemma markFailed_keeps (id : nat) (st : Status) (reason : string)
  (s s' : Store) (o : option Transaction.t) (y : Transaction.t) :
  Transaction_findByIdAndUpdate id st reason s = (o, s') ->
  Transaction._id y <> id ->
  In y (transactions s) -> In y (transactions s').
Proof.
  unfold Transaction_findByIdAndUpdate. intros E Hne Hin.
  pose proof (update_first_In_other
                (fun z => Transaction._id z =? id)%nat
                (fun z => Transaction.set_failureReason (Some reason)
                            (Transaction.set_status st z))
                _ y Hin (proj2 (Nat.eqb_neq _ _) Hne)) as H.
  destruct (update_first _ _ _) as [[a|] l]; injection E as _ <-; simpl in *;
    auto.
Qed.

Lemma account_update_findById (f : Account.t -> bool) (d : Q) (s s' : Store)
  (o : option Account.t) (id : nat) (x : Transaction.t) :
  Account_findOneAndUpdate f d s = (o, s') ->
  Transaction_findById id s = Some x -> Transaction_findById id s' = Some x.
Proof.
  intros E. unfold Transaction_findById.
  now destruct (findOneAndUpdate_frame _ _ _ _ _ E) as (-> & _ & _).
Qed.

Lemma ledger_create_findById (doc : LedgerEntry.t) (s s' : Store)
  (r : Error + LedgerEntry.t) (id : nat) (x : Transaction.t) :
  LedgerEntry_create doc s = (r, s') ->
  Transaction_findById id s = Some x -> Transaction_findById id s' = Some x.
Proof.
  intros E. unfold Transaction_findById.
  now destruct (LedgerEntry_create_frame _ _ _ _ E) as (-> & _ & _).
Qed.

Lemma ledger_create_In (doc : LedgerEntry.t) (s s' : Store)
  (r : Error + LedgerEntry.t) (e : LedgerEntry.t) :
  LedgerEntry_create doc s = (r, s') ->
  In e (ledger s) -> In e (ledger s').
Proof.
  unfold LedgerEntry_create.
  destruct (negb _); intros E; injection E as _ <-; [auto|].
  simpl. intros H. apply in_or_app. now left.
Qed.

Lemma ledger_create_inserted (doc d : LedgerEntry.t) (s s' : Store) :
  LedgerEntry_create doc s = (inr d, s') ->
  In d (ledger s') /\
  ~ In (LedgerEntry._id d) (map LedgerEntry._id (ledger s)) /\
  LedgerEntry.transactionId d = LedgerEntry.transactionId doc /\
  LedgerEntry.account d = LedgerEntry.account doc /\
  LedgerEntry.assetType d = LedgerEntry.assetType doc /\
  LedgerEntry.entryType d = LedgerEntry.entryType doc /\
  LedgerEntry.amount d = LedgerEntry.amount doc /\
  LedgerEntry.balanceAfter d = LedgerEntry.balanceAfter doc.
Proof.
  unfold LedgerEntry_create.
  destruct (negb _); [discriminate|]. intros E. injection E as <- <-.
  simpl. split; [apply in_or_app; right; now left|].
  split; [apply fresh_id_fresh|]. repeat split.
Qed.

Lemma ledger_create_valid (doc : LedgerEntry.t) (s s' : Store) (e : Error) :
  amount_valid (LedgerEntry.amount doc) = true ->
  LedgerEntry_create doc s = (inl e, s') -> False.
Proof.
  intros Hv. unfold LedgerEntry_create. now rewrite Hv.
Qed.

Lemma account_update_ledger_In (f : Account.t -> bool) (d : Q) (s s' : Store)
  (o : option Account.t) (e : LedgerEntry.t) :
  Account_findOneAndUpdate f d s = (o, s') ->
  In e (ledger s) -> In e (ledger s').
Proof.
  intros E. now destruct (findOneAndUpdate_frame _ _ _ _ _ E) as (_ & -> & _).
Qed.

Lemma find_app_found {A} (q : A -> bool) (l l' : list A) (y : A) :
  find q l = Some y -> find q (l ++ l') = Some y.
Proof.
  induction l as [|x l IH]; simpl; [discriminate|].
  destruct (q x); auto.
Qed.

Lemma update_first_find_other {A} (p q : A -> bool) (f : A -> A) (l : list A) :
  (forall x, p x = true -> q x = false) ->
  (forall x, q (f x) = q x) ->
  find q (snd (update_first p f l)) = find q l.
Proof.
  intros Hpq Hf. induction l as [|x l IH]; simpl; [reflexivity|].
  destruct (p x) eqn:Hp; simpl.
  - rewrite Hf. now rewrite (Hpq x Hp).
  - destruct (update_first p f l) as [o l']. simpl in *. now rewrite IH.
Qed.

Lemma create_findById_other (doc : Transaction.t) (s s' : Store)
  (r : Error + Transaction.t) (id : nat) (y : Transaction.t) :
  Transaction_create doc s = (r, s') ->
  Transaction_findById id s = Some y -> Transaction_findById id s' = Some y.
Proof.
  unfold Transaction_create, Transaction_findById.
  destruct (negb _); [now intros E; injection E as _ <-|].
  destruct (Transaction_findOne _ _ _); intros E; injection E as _ <-;
    [auto|]. simpl. apply find_app_found.
Qed.

Lemma create_fresh_found (doc x : Transaction.t) (s s' : Store) (id : nat)
  (y : Transaction.t) :
  Transaction_create doc s = (inr x, s') ->
  Transaction_findById id s = Some y -> id <> Transaction._id x.
Proof.
  intros E Hf. unfold Transaction_findById in Hf.
  apply find_some in Hf as [Hin Hid]. apply Nat.eqb_eq in Hid. subst id.
  exact (create_fresh_other _ _ _ _ y E Hin).
Qed.

Lemma save_findById_other (x : Transaction.t) (s s' : Store)
  (r : Error + unit) (id : nat) (y : Transaction.t) :
  Transaction_save x s = (r, s') ->
  id <> Transaction._id x ->
  Transaction_findById id s = Some y -> Transaction_findById id s' = Some y.
Proof.
  unfold Transaction_save, Transaction_findById. intros E Hne Hf.
  pose proof (update_first_find_other
                (fun z => Transaction._id z =? Transaction._id x)%nat
                (fun z => Transaction._id z =? id)%nat
                (fun z => Transaction.set_ledgerEntries
                            (Transaction.ledgerEntries x)
                            (Transaction.set_status (Transaction.status x) z))
                (transactions s)) as H.
  destruct (update_first _ _ _) as [[a|] l]; injection E as _ <-; simpl in *;
    [|exact Hf].
  rewrite H; [exact Hf| |reflexivity].
  intros z Hz. apply Nat.eqb_eq in Hz. apply Nat.eqb_neq. congruence.
Qed.

Lemma markFailed_findById_other (i : nat) (st : Status) (reason : string)
  (s s' : Store) (o : option Transaction.t) (id : nat) (y : Transaction.t) :
  Transaction_findByIdAndUpdate i st reason s = (o, s') ->
  id <> i ->
  Transaction_findById id s = Some y -> Transaction_findById id s' = Some y.
Proof.
  unfold Transaction_findByIdAndUpdate, Transaction_findById. intros E Hne Hf.
  pose proof (update_first_find_other
                (fun z => Transaction._id z =? i)%nat
                (fun z => Transaction._id z =? id)%nat
                (fun z => Transaction.set_failureReason (Some reason)
                            (Transaction.set_status st z))
                (transactions s)) as H.
  destruct (update_first _ _ _) as [[a|] l]; injection E as _ <-; simpl in *;
    [|exact Hf].
  rewrite H; [exact Hf| |reflexivity].
  intros z Hz. apply Nat.eqb_eq in Hz. apply Nat.eqb_neq. congruence.
Qed.

Lemma create_ledger_In (doc : Transaction.t) (s s' : Store)
  (r : Error + Transaction.t) (e : LedgerEntry.t) :
  Transaction_create doc s = (r, s') -> In e (ledger s) -> In e (ledger s').
Proof. intros E. now rewrite (Transaction_create_ledger _ _ _ _ E). Qed.

Lemma save_ledger_In (x : Transaction.t) (s s' : Store) (r : Error + unit)
  (e : LedgerEntry.t) :
  Transaction_save x s = (r, s') -> In e (ledger s) -> In e (ledger s').
Proof.
  intros E. now destruct (Transaction_save_frame _ _ _ _ E) as (_ & _ & ->).
Qed.

Lemma markFailed_ledger_In (i : nat) (st : Status) (reason : string)
  (s s' : Store) (o : option Transaction.t) (e : LedgerEntry.t) :
  Transaction_findByIdAndUpdate i st reason s = (o, s') ->
  In e (ledger s) -> In e (ledger s').
Proof.
  intros E. now destruct (findByIdAndUpdate_frame _ _ _ _ _ _ E) as (_ & ->).
Qed.

Section StateMachine.
Variable Number_toString : Q -> string.
Variable env : Env.

(** What the request does to a Transaction that was stored before it: it
    leaves it where the other workers leave it. *)
Lemma stored_transaction_is_kept (p : Params) (s : Store)
  (r : Error + Transaction.t * bool) (w' : World) (y : Transaction.t) :
  (forall k s', In y (transactions s') -> In y (transactions (env k s'))) ->
  _executeTransfer Number_toString env p (init s) = (r, w') ->
  In y (transactions s) ->
  In y (transactions (store w')).
Proof.
  intros Hy H Hin. unfold_engine_in H.
  repeat (step_in H; simpl in H).
  all: injection H as <- <-; simpl.
  all: try match goal with
       | E : Transaction_create _ _ = (inr ?x, _) |- _ =>
         assert (Hneq : Transaction._id y <> Transaction._id x)
           by (apply (create_fresh_other _ _ _ _ y E); auto 10)
       end.
  all: eauto 40 using create_keeps, account_update_keeps, ledger_create_keeps,
         save_keeps, markFailed_keeps.
Qed.

(** The same, for the Transaction that the store holds under an id. *)
Lemma stored_transaction_is_found (p : Params) (s : Store)
  (r : Error + Transaction.t * bool) (w' : World) (i : nat)
  (y : Transaction.t) :
  (forall k s', Transaction_findById i s' = Some y ->
                Transaction_findById i (env k s') = Some y) ->
  _executeTransfer Number_toString env p (init s) = (r, w') ->
  Transaction_findById i s = Some y ->
  Transaction_findById i (store w') = Some y.
Proof.
  intros Hy H Hin. unfold_engine_in H.
  repeat (step_in H; simpl in H).
  all: injection H as <- <-; simpl.
  all: try match goal with
       | E : Transaction_create _ _ = (inr ?x, _) |- _ =>
         assert (Hneq : i <> Transaction._id x)
           by (apply (create_fresh_found _ _ _ _ i y E); auto 10)
       end.
  all: eauto 40 using create_findById_other, account_update_findById,
         ledger_create_findById, save_findById_other,
         markFailed_findById_other.
Qed.

(** The request removes no ledger entry. *)
Lemma ledger_entry_is_kept (p : Params) (s : Store)
  (r : Error + Transaction.t * bool) (w' : World) (e : LedgerEntry.t) :
  (forall k s', In e (ledger s') -> In e (ledger (env k s'))) ->
  _executeTransfer Number_toString env p (init s) = (r, w') ->
  In e (ledger s) ->
  In e (ledger (store w')).
Proof.
  intros He H Hin. unfold_engine_in H.
  repeat (step_in H; simpl in H).
  all: injection H as <- <-; simpl.
  all: eauto 40 using create_ledger_In, account_update_ledger_In,
         ledger_create_In, save_ledger_In, markFailed_ledger_In.
Qed.

Lemma own_transaction_lifecycle (p : Params) (s : Store)
  (r : Error + Transaction.t * bool) (w' : World) :
  let key := idempotencyKey p in
  let asset := assetTypeId p in
  _executeTransfer Number_toString env p (init s) = (r, w') ->
  ((forall id, ~ In (EvTxCreate key asset (inr id)) (trace w')) /\
   status_writes (trace w') = []) \/
  exists x0 sc,
    Transaction_create (pendingTransaction p)
      (env 2%nat (env 1%nat (env 0%nat s))) = (inr x0, sc) /\
    In (EvTxCreate key asset (inr (Transaction._id x0))) (trace w') /\
    ((forall k s' y, Transaction_findById (Transaction._id x0) s' = Some y ->
                     Transaction_findById (Transaction._id x0) (env k s')
                     = Some y) ->
     (forall k s' e, In e (ledger s') -> In e (ledger (env k s'))) ->
     (exists d c,
        r = inr (Transaction.set_ledgerEntries
                   [LedgerEntry._id d; LedgerEntry._id c]
                   (Transaction.set_status completed x0), false) /\
        Transaction_findById (Transaction._id x0) (store w')
        = Some (Transaction.set_ledgerEntries
                  [LedgerEntry._id d; LedgerEntry._id c]
                  (Transaction.set_status completed x0)) /\
        In d (ledger (store w')) /\ In c (ledger (store w')) /\
        LedgerEntry._id d <> LedgerEntry._id c /\
        LedgerEntry.transactionId d = Transaction._id x0 /\
        LedgerEntry.transactionId c = Transaction._id x0 /\
        LedgerEntry.account d = fromAccountId p /\
        LedgerEntry.account c = toAccountId p /\
        LedgerEntry.entryType d = debit /\
        LedgerEntry.entryType c = credit /\
        LedgerEntry.amount d = amount p /\
        LedgerEntry.amount c = amount p /\
        status_writes (trace w') = [EvTxSave (Transaction._id x0) true] /\
        ends_with
          [EvLedgerCreate (Transaction._id x0) (fromAccountId p) debit
             (amount p) true;
           EvLedgerCreate (Transaction._id x0) (toAccountId p) credit
             (amount p) true;
           EvTxSave (Transaction._id x0) true]
          (trace w')) \/
     (exists e,
        r = inl e /\
        Transaction_findById (Transaction._id x0) (store w')
        = Some (Transaction.set_failureReason
                  (Some (message Number_toString e))
                  (Transaction.set_status failed x0)) /\
        status_writes (trace w')
        = [EvTxMarkFailed (Transaction._id x0) (message Number_toString e)] /\
        ends_with
          [EvTxMarkFailed (Transaction._id x0) (message Number_toString e)]
          (trace w'))).
Proof.
  intros key asset H. subst key asset.
  unfold_engine_in H.
  repeat (step_in H; simpl in H).
  all: injection H as <- <-; simpl in *.
  all: try (left; split; [intros id Hin; simpl in Hin; intuition congruence
                         | reflexivity]).
  all: try (right;
       match goal with
       | E : Transaction_create _ _ = (inr ?x, ?s1) |- _ =>
         exists x, s1; split; [reflexivity|]; split; [simpl; auto 10|];
         destruct (Transaction_create_findById _ _ _ _ E)
           as (Hf0 & _ & _ & Hvalid); simpl in Hvalid;
         intros Rtx Rled; set (x0 := x) in Hf0
       end).
  all: try match goal with
       | E : LedgerEntry_create _ _ = (inl _, _) |- _ =>
         exfalso; apply (fun H => ledger_create_valid _ _ _ _ H E);
         exact Hvalid
       end.
  (* the failures: the Transaction is marked failed *)
  all: try (right; eexists; split; [reflexivity|]; split;
            [eapply Transaction_markFailed_found; [|eassumption];
             eauto 30 using account_update_findById, ledger_create_findById
            |split; [reflexivity|solve_ends_with]]).
  (* the save *)
  all: match goal with
       | E : Transaction_save ?x ?S = (_, _) |- _ =>
         assert (HF : Transaction_findById (Transaction._id x) S = Some x0)
           by (simpl;
               eauto 30 using account_update_findById, ledger_create_findById);
         destruct (Transaction_save_found x x0 S HF)
           as (s'' & Hsave & Hfound & Hled);
         rewrite Hsave in E; inversion E; subst; clear E
       end.
  all: left;
       match goal with
       | E3 : LedgerEntry_create _ _ = (inr ?d, ?s4),
         E4 : LedgerEntry_create _ (env _ ?s4) = (inr ?c, _) |- _ =>
         destruct (ledger_create_inserted _ _ _ _ E3)
           as (Hd_in & _ & Hd1 & Hd2 & _ & Hd3 & Hd4 & _);
         destruct (ledger_create_inserted _ _ _ _ E4)
           as (Hc_in & Hc_fresh & Hc1 & Hc2 & _ & Hc3 & Hc4 & _);
         exists d, c
       end.
  all: simpl in *.
  all: split; [reflexivity|].
  all: split; [exact Hfound|].
  all: split; [rewrite Hled; apply Rled; eapply ledger_create_In;
               [eassumption|]; apply Rled; exact Hd_in|].
  all: split; [rewrite Hled; apply Rled; exact Hc_in|].
  all: split; [intros Heq; apply Hc_fresh; rewrite <- Heq; apply in_map;
               apply Rled; exact Hd_in|].
  all: repeat (split; [assumption|]).
  all: split; [reflexivity|solve_ends_with].
Qed.


End StateMachine.

(** ** Two calls under one key *)

Section TwoCalls.
Variable Number_toString : Q -> string.

(** A run that ends in an error, served without interference: either it
    inserted its Transaction, which is then stored under the key as failed
    with the message of the error, or it wrote nothing. *)
Lemma executeTransfer_quiet_failed (p : Params) (w w' : World) (e : Error) :
  _executeTransfer Number_toString quiet p w = (inl e, w') ->
  assetTypes (store w') = assetTypes (store w) /\
  Forall2 same_wallet (accounts (store w)) (accounts (store w')) /\
  exists t,
    trace w' = trace w ++ t /\
    ((exists x,
        In (EvTxCreate (idempotencyKey p) (assetTypeId p)
              (inr (Transaction._id x))) t /\
        Transaction_findOne (idempotencyKey p) (assetTypeId p) (store w')
        = Some x /\
        Transaction.status x = failed /\
        Transaction.failureReason x = Some (message Number_toString e)) \/
     ((forall asset id,
         ~ In (EvTxCreate (idempotencyKey p) asset (inr id)) t) /\
      store w' = store w)).
Proof.
  intros H. unfold_engine_in H. unfold quiet in H.
  repeat (step_in H; simpl in H).
  all: inversion H; subst; clear H; simpl in *.
  all: repeat match goal with
       | E : Transaction_create _ _ = (inl _, _) |- _ =>
         apply Transaction_create_inl in E; subst
       end.
  all: try solve [split; [reflexivity|];
                  split; [apply Forall2_same_wallet_refl|];
                  eexists; split; [rewrite <- ?app_assoc; reflexivity|];
                  right; split; [|reflexivity];
                  intros asset id Hin; simpl in Hin; intuition congruence].
  all: match goal with
       | E : Transaction_create _ _ = (inr ?x, ?s1) |- _ =>
         destruct (Transaction_create_inr _ _ _ _ E) as (Hx & Hs1 & _ & Hnone);
         assert (Hold : transactions s1 = transactions (store w) ++ [x])
           by (now rewrite Hs1);
         assert (Hacc : accounts s1 = accounts (store w)) by (now rewrite Hs1);
         assert (Hassets : assetTypes s1 = assetTypes (store w))
           by (now rewrite Hs1);
         assert (Hfresh : Transaction._id x
                          = fresh_id (map Transaction._id
                                        (transactions (store w))))
           by (now rewrite Hx);
         assert (Hkey : tx_key_matches (idempotencyKey p) (assetTypeId p) x
                        = true)
           by (rewrite Hx; apply (tx_key_matches_refl (pendingTransaction p)));
         clear E Hs1 Hx
       end.
  all: repeat match goal with
       | E : Account_findOneAndUpdate _ _ _ = _ |- _ =>
         pose proof (findOneAndUpdate_same_wallet _ _ _ _ _ E);
         apply findOneAndUpdate_frame in E; destruct E as (? & ? & ?)
       | E : LedgerEntry_create _ _ = _ |- _ =>
         apply LedgerEntry_create_frame in E; destruct E as (? & ? & ?)
       end.
  all: try match goal with
       | E : Transaction_save ?x' ?S = (inl _, _),
         Hf : Transaction._id ?x = fresh_id _ |- _ =>
         exfalso;
         assert (Ht : transactions S = transactions (store w) ++ [x])
           by congruence;
         rewrite (Transaction_save_last _ x x' S Ht Hf eq_refl) in E;
         discriminate
       end.
  all: match goal with
       | E : Transaction_findByIdAndUpdate (Transaction._id ?x) failed ?msg ?S
             = (_, ?s'),
         Hf : Transaction._id ?x = fresh_id _ |- _ =>
         assert (Ht : transactions S = transactions (store w) ++ [x])
           by congruence;
         assert (Hs' : s' = snd (Transaction_findByIdAndUpdate
                                   (Transaction._id x) failed msg S))
           by (now rewrite E);
         rewrite (Transaction_markFailed_last _ _ _ _ Ht Hf) in Hs';
         clear E
       end.
  all: subst; simpl.
  all: split; [congruence|].
  all: split;
       [rewrite <- Hacc;
        repeat match goal with
               | E : accounts ?a = accounts ?b |- _ => rewrite E in *; clear E
               end;
        eauto using Forall2_same_wallet_trans, Forall2_same_wallet_refl|].
  all: eexists; split; [rewrite <- !app_assoc; reflexivity|].
  all: left; eexists;
       (split; [|split; [unfold Transaction_findOne; simpl;
                         apply find_app_last;
                         [exact Hnone
                         |unfold tx_key_matches in *; simpl; exact Hkey]
                        |split; reflexivity]]).
  all: simpl; auto 10.
Qed.

Lemma engine_two_calls (p1 p2 : Params) (s : Store) :
  idempotencyKey p2 = idempotencyKey p1 ->
  assetTypeId p2 = assetTypeId p1 ->
  second_call_replays (message Number_toString) (idempotencyKey p1)
    (_executeTransfer Number_toString quiet p1)
    (_executeTransfer Number_toString quiet p2) s.
Proof.
  intros Hkey Hasset r1 w1 H. destruct r1 as [e|r].
  - destruct (executeTransfer_quiet_failed _ _ _ _ H)
      as (_ & _ & t & Ht & [(x & Hin & Hfound & Hst & Hfr) | (Hno & Hs)]).
    + left. simpl in Ht. subst t.
      rewrite <- Hkey, <- Hasset in Hfound.
      exists x. eexists. split; [eauto|].
      rewrite (executeTransfer_replay Number_toString quiet p2
                 (init (store w1)) x Hfound).
      repeat split; assumption.
    + right. simpl in Ht, Hs. subst t. split; assumption.
  - destruct (executeTransfer_quiet_ok _ _ _ _ _ H) as (Hfound & _ & _).
    rewrite <- Hkey, <- Hasset in Hfound.
    rewrite (executeTransfer_replay Number_toString quiet p2
               (init (store w1)) (fst r) Hfound).
    eexists. split; reflexivity.
Qed.

Lemma flow_two_calls (uid code sys key : string)
  (params1 params2 : AssetType.t -> Account.t -> Account.t -> Params)
  (s : Store) :
  (forall a u y, idempotencyKey (params1 a u y) = key /\
                 assetTypeId (params1 a u y) = AssetType._id a) ->
  (forall a u y, idempotencyKey (params2 a u y) = key /\
                 assetTypeId (params2 a u y) = AssetType._id a) ->
  second_call_replays (message Number_toString) key
    (flow Number_toString quiet uid code sys params1)
    (flow Number_toString quiet uid code sys params2) s.
Proof.
  intros Hp1 Hp2 r1 w1 H. destruct r1 as [e|r];
    [|exact (flow_replay Number_toString uid code sys key params1 params2 s r
               w1 Hp1 Hp2 H)].
  unfold flow in *.
  (* the first call *)
  unfold bind at 1 in H. rewrite getAssetType_run in H. simpl in H.
  destruct (AssetType_findOne_active (toUpperCase code) s) as [a|] eqn:Ha;
    [|injection H as <- <-; right; split; [|reflexivity];
      intros asset id Hin; simpl in Hin; intuition congruence].
  unfold bind at 1 in H; rewrite yield_quiet in H; simpl in H.
  unfold bind at 1 in H.
  destruct (_getUserAccount uid (AssetType._id a) _) as [[e0|u] wu] eqn:Hu;
    pose proof (getUserAccount_world _ _ _ _ _ Hu) as ->;
    [injection H as <- <-; right; split; [|reflexivity];
     intros asset id Hin; simpl in Hin; intuition congruence|].
  simpl in H.
  unfold bind at 1 in H; rewrite yield_quiet in H; simpl in H.
  unfold bind at 1 in H.
  destruct (_getSystemAccount sys (AssetType._id a) _) as [[e0|y] wy] eqn:Hy;
    pose proof (getSystemAccount_world _ _ _ _ _ Hy) as ->;
    [injection H as <- <-; right; split; [|reflexivity];
     intros asset id Hin; simpl in Hin; intuition congruence|].
  simpl in H.
  unfold bind at 1 in H; rewrite yield_quiet in H; simpl in H.
  destruct (Hp1 a u y) as [Hk1 Ha1].
  destruct (executeTransfer_quiet_failed _ _ _ _ H)
    as (Hassets & Hsim & t & Ht & [(x & Hin & Hfound & Hst & Hfr) | (Hno & Hs)]).
  - (* the Transaction was inserted: the second call finds it *)
    left. simpl in Ht, Hassets, Hsim. rewrite Hk1, Ha1 in Hfound, Hin.
    exists x.
    assert (Ha' : AssetType_findOne_active (toUpperCase code) (store w1)
                  = Some a)
      by (unfold AssetType_findOne_active in *; now rewrite Hassets).
    unfold bind at 1. rewrite getAssetType_run. simpl. rewrite Ha'.
    unfold bind at 1; rewrite yield_quiet; simpl.
    destruct (getUserAccount_same_wallet _ _ _ _ _ (store w1) Hu Hsim 1%nat
                [EvAssetFindOne (toUpperCase code)]) as (u' & Hu' & _).
    unfold bind at 1. rewrite Hu'.
    unfold bind at 1; rewrite yield_quiet; simpl.
    destruct (getSystemAccount_same_wallet _ _ _ _ _ (store w1) Hy Hsim 2%nat
                [EvAssetFindOne (toUpperCase code);
                 EvAccountFindOne uid (AssetType._id a)])
      as (y' & Hy' & _).
    unfold bind at 1. rewrite Hy'.
    unfold bind at 1; rewrite yield_quiet; simpl.
    destruct (Hp2 a u' y') as [Hk2 Ha2].
    rewrite (executeTransfer_replay Number_toString quiet (params2 a u' y') _
               x); [|simpl; now rewrite Hk2, Ha2].
    eexists. split.
    + exists (AssetType._id a). rewrite Ht. simpl. do 3 right. exact Hin.
    + repeat split; assumption.
  - (* nothing was inserted, nothing was written *)
    right. simpl in Ht, Hs. rewrite Hk1 in Hno. split; [|exact Hs].
    intros asset id Hin. rewrite Ht in Hin. simpl in Hin.
    destruct Hin as [Hin | [Hin | [Hin | Hin]]]; try discriminate.
    exact (Hno asset id Hin).
Qed.


End TwoCalls.

(** * The scenarios *)

Import Seed Scenario.

(** ** Spending more than the balance *)

(** C1. The code credits the destination before it finds the source short
    of funds. user_bob holds 150 GOLD and spends 200: his account id is the
    greater one, so the revenue account is credited first; the debit then
    fails with the insufficient-balance error, and the 200 GOLD stay on the
    revenue account. *)
Theorem insufficient_balance_after_credit :
  let '(r, w) := _executeTransfer show quiet spend_bob (init initial) in
  r = inl (InsufficientBalance "user_bob" 150 200) /\
  balance_of revenue initial = Some 0 /\
  balance_of revenue (store w) = Some 200 /\
  balance_of bob (store w) = Some 150 /\
  ledger (store w) = [] /\
  balance_updates (trace w)
  = [EvCredit revenue 200 true; EvDebit bob 200 false] /\
  spend show quiet "user_bob" "GOLD" 200 "s2-key-0001" "x" [] (init initial)
  = (r, mkWorld (store w) 9
       ([EvAssetFindOne "GOLD"; EvAccountFindOne "user_bob" gold;
         EvSystemAccountFindOne "SYSTEM_REVENUE" gold] ++ trace w)).
Proof. vm_compute. repeat split. Qed.

(** ** The resolution of a system account *)

(** C9. The code returns a system account that is inactive:
    [_getSystemAccount] has no test of [isActive], unlike
    [_getUserAccount]. *)
Theorem system_account_inactive_is_returned :
  let s := deactivate treasury initial in
  exists a,
    Account_findOne_system "SYSTEM_TREASURY" gold s = Some a /\
    Account.isActive a = false /\
    fst (_getSystemAccount "SYSTEM_TREASURY" gold (init s)) = inr a /\
    fst (_getUserAccount "SYSTEM_TREASURY" gold (init s))
    = inl (WalletInactive "SYSTEM_TREASURY").
Proof. vm_compute. eexists. repeat split. Qed.

(** ** A destination deactivated between the debit and the credit *)

(** C2, as stated, fails: alice's account is deactivated after the treasury
    was debited. The credit fails, the Transaction is marked failed, and the
    treasury is left 100 GOLD short: no credit of the treasury is issued. *)
Lemma credit_failure_leaves_source_debited :
  let '(r, w) := _executeTransfer show (deactivates_at 4 alice)
                   (topup_alice 100) (init initial) in
  r = inl (CreditFailed "user_alice") /\
  trace w = [EvTxFindOne "t1-key-0001" gold;
             EvAccountFindById treasury;
             EvAccountFindById alice;
             EvTxCreate "t1-key-0001" gold (inr 1%nat);
             EvDebit treasury 100 true;
             EvCredit alice 100 false;
             EvTxMarkFailed 1 "Failed to credit account user_alice"] /\
  balance_of treasury initial = Some 10000000 /\
  balance_of treasury (store w) = Some 9999900 /\
  option_map Transaction.status
    (Transaction_findOne "t1-key-0001" gold (store w)) = Some failed /\
  (forall a ok, ~ In (EvCredit treasury a ok) (trace w)).
Proof.
  vm_compute. repeat split.
  intros a ok H. repeat (destruct H as [H|H]; [discriminate|]). exact H.
Qed.

(** The same run, through the theorem. *)
Lemma credit_failure_is_not_compensated_witness :
  let X := _executeTransfer show (deactivates_at 4 alice) (topup_alice 100)
             (init initial) in
  exists tid u,
    fst X = inl (CreditFailed u) /\
    trace (snd X) = [EvTxFindOne "t1-key-0001" gold;
                     EvAccountFindById treasury;
                     EvAccountFindById alice;
                     EvTxCreate "t1-key-0001" gold (inr tid);
                     EvDebit treasury 100 true;
                     EvCredit alice 100 false;
                     EvTxMarkFailed tid (message show (CreditFailed u))].
Proof.
  apply (credit_failure_is_not_compensated show (deactivates_at 4 alice)
           (topup_alice 100) initial).
  - apply surjective_pairing.
  - vm_compute. auto 10.
  - vm_compute. auto 10.
Defined.

(** ** A transfer from the treasury to itself *)

(** C6, as stated, fails: a top-up whose user is the treasury itself is a
    transfer from the treasury to the treasury. It is not rejected: the
    Transaction is completed and two ledger entries are written. *)
Lemma self_transfer_is_not_rejected :
  let '(r, w) := topUp show quiet "SYSTEM_TREASURY" "GOLD" 100 "self-key-0001"
                   [] (init initial) in
  exists x,
    r = inr (x, false) /\
    Transaction.fromAccount x = treasury /\
    Transaction.toAccount x = treasury /\
    Transaction.status x = completed /\
    transactions (store w) = [x] /\
    map LedgerEntry.account (ledger (store w)) = [treasury; treasury].
Proof. vm_compute. eexists. repeat split. Qed.

(** The treasury transfers 100 GOLD to itself. *)
Lemma self_transfer_is_processed_witness :
  exists x d c w',
    _executeTransfer show quiet treasury_to_itself (init initial)
    = (inr (x, false), w') /\
    Transaction.status x = completed /\
    Transaction.fromAccount x = treasury /\ Transaction.toAccount x = treasury /\
    Transaction.ledgerEntries x = [LedgerEntry._id d; LedgerEntry._id c] /\
    Transaction_findOne "self-key-0001" gold (store w') = Some x /\
    ledger (store w') = [d; c] /\
    LedgerEntry.transactionId d = Transaction._id x /\
    LedgerEntry.account d = treasury /\ LedgerEntry.entryType d = debit /\
    LedgerEntry.amount d = 100 /\
    LedgerEntry.transactionId c = Transaction._id x /\
    LedgerEntry.account c = treasury /\ LedgerEntry.entryType c = credit /\
    LedgerEntry.amount c = 100 /\
    balance_of treasury (store w') = Some (10000000 + - (100) + 100) /\
    trace w' = [EvTxFindOne "self-key-0001" gold;
                EvAccountFindById treasury;
                EvAccountFindById treasury;
                EvTxCreate "self-key-0001" gold (inr (Transaction._id x));
                EvDebit treasury 100 true;
                EvCredit treasury 100 true;
                EvLedgerCreate (Transaction._id x) treasury debit 100 true;
                EvLedgerCreate (Transaction._id x) treasury credit 100 true;
                EvTxSave (Transaction._id x) true].
Proof.
  apply (self_transfer_is_processed show treasury_to_itself (init initial)
           (Seed.account treasury "SYSTEM_TREASURY" system 10000000));
    try reflexivity.
  discriminate.
Defined.

(** ** An amount with a fraction, on an asset without decimal places *)

(** C8, as stated, fails: GOLD has no decimal places and 2.5 GOLD are
    transferred. Half-even rounding gives 2; the Transaction, the balance
    updates and the ledger entries carry 2.5. *)
Lemma amount_is_not_rounded :
  let '(r, w) := _executeTransfer show quiet (topup_alice (5 # 2))
                   (init initial) in
  exists x,
    r = inr (x, false) /\
    Transaction.amount x = 5 # 2 /\
    option_map AssetType.decimalPlaces (AssetType_findOne_active "GOLD" initial)
    = Some 0%nat /\
    spec_round_half_even 0 (5 # 2) == 2 /\
    ~ Transaction.amount x == spec_round_half_even 0 (5 # 2) /\
    balance_updates (trace w)
    = [EvDebit treasury (5 # 2) true; EvCredit alice (5 # 2) true] /\
    map LedgerEntry.amount (ledger (store w)) = [5 # 2; 5 # 2].
Proof.
  vm_compute. eexists. repeat split. intros H. discriminate H.
Qed.

(** The same run, through the theorem. *)
Lemma amount_is_used_as_given_witness :
  let X := _executeTransfer show quiet (topup_alice (5 # 2)) (init initial) in
  (forall e a, In e (trace (snd X)) -> event_amount e = Some a -> a = 5 # 2) /\
  (forall x, fst X = inr (x, false) ->
     Transaction.amount x = 5 # 2 /\ amount_valid (5 # 2) = true) /\
  (Transaction_findOne "t1-key-0001" gold initial = None ->
   amount_rejected (5 # 2) = true -> fst X = inl AmountNotPositive) /\
  (amount_valid (5 # 2) = true ->
   fst X <> inl AmountNotPositive /\
   forall model failures,
     fst X = inl (ValidationError model failures) ->
     ~ In "amount"%string (map fst failures)).
Proof.
  apply (amount_is_used_as_given show quiet (topup_alice (5 # 2)) initial).
  apply surjective_pairing.
Defined.

(** ** Replays and races *)

(** A call with a zero amount and unknown accounts, under the key of the
    completed top-up, is answered with that top-up. *)
Lemma replay_precedes_validation_witness :
  Transaction_findOne "t1-key-0001" gold after_topup = Some topup_tx /\
  amount_rejected (amount invalid_call) = true /\
  Account_findById (fromAccountId invalid_call) after_topup = None /\
  _executeTransfer show quiet invalid_call (init after_topup)
  = (inr (topup_tx, true),
     mkWorld after_topup 0 [EvTxFindOne "t1-key-0001" gold]).
Proof.
  split; [vm_compute; reflexivity|].
  split; [vm_compute; reflexivity|].
  split; [vm_compute; reflexivity|].
  apply (replay_precedes_validation show quiet invalid_call (init after_topup)
           topup_tx).
  vm_compute; reflexivity.
Defined.

(** Another worker inserts its pending Transaction under the key just before
    this request's insert. *)
Lemma duplicate_key_is_replay_or_conflict_witness :
  let X := _executeTransfer show (inserts_at 2 racing_tx) (topup_alice 100)
             (init initial) in
  trace (snd X) = [EvTxFindOne "t1-key-0001" gold;
                   EvAccountFindById treasury;
                   EvAccountFindById alice;
                   EvTxCreate "t1-key-0001" gold (inl DuplicateKey);
                   EvSleep 50;
                   EvTxFindOne "t1-key-0001" gold] /\
  store (snd X)
  = inserts_at 2 racing_tx 3%nat
      (inserts_at 2 racing_tx 2%nat
         (inserts_at 2 racing_tx 1%nat
            (inserts_at 2 racing_tx 0%nat initial))) /\
  match Transaction_findOne "t1-key-0001" gold (store (snd X)) with
  | Some x => fst X = inr (x, true)
  | None => fst X = inl TransactionConflict
  end.
Proof.
  apply (duplicate_key_is_replay_or_conflict show (inserts_at 2 racing_tx)
           (topup_alice 100) initial).
  - apply surjective_pairing.
  - vm_compute. auto 10.
Defined.

Lemma deactivates_at_transactions (k : nat) (id : ObjectId) (n : nat)
  (s : Store) :
  transactions (deactivates_at k id n s) = transactions s.
Proof. unfold deactivates_at. now destruct (n =? k)%nat. Qed.

(** ** The order of the updates, on the seeded store *)

(** user_bob spends 200 GOLD of his 150. The id of the revenue account is
    the smaller one: it is credited first, the debit of user_bob follows and
    does not match; the accounts at the end are those of the seed with the
    credit applied. *)
Lemma lock_order_witness :
  let X := _executeTransfer show quiet spend_bob (init initial) in
  let ups := balance_updates (trace (snd X)) in
  String.ltb revenue bob = true /\
  ups = [EvCredit revenue 200 true; EvDebit bob 200 false] /\
  apply_updates ups (accounts initial) = Some (accounts (store (snd X))) /\
  balance_of revenue (store (snd X)) = Some (0 + 200) /\
  (exists id, In (EvTxCreate "s2-key-0001" gold (inr id)) (trace (snd X))) /\
  ((String.leb bob revenue = true /\
    (ups = [EvDebit bob 200 false] \/
     ups = [EvDebit bob 200 true; EvCredit revenue 200 true]) /\
    (Qle_bool 200 150 = true ->
     ups = [EvDebit bob 200 true; EvCredit revenue 200 true])) \/
   (String.ltb revenue bob = true /\
    exists ok, ups = [EvCredit revenue 200 true; EvDebit bob 200 ok] /\
               (Qle_bool 200 150 = true -> ok = true))).
Proof.
  destruct (lock_order show quiet spend_bob initial) as (_ & H2 & H3).
  split; [vm_compute; reflexivity|].
  split; [vm_compute; reflexivity|].
  split; [apply H2; reflexivity|].
  split; [vm_compute; reflexivity|].
  apply (H3 (fun _ _ => eq_refl) (fun _ _ => eq_refl) eq_refl
           ltac:(discriminate) eq_refl
           (account bob "user_bob" user 150)
           (account revenue "SYSTEM_REVENUE" system 0));
    vm_compute; reflexivity.
Defined.

(** ** The states of a Transaction, on the seeded store *)

Lemma deactivates_at_findById (k : nat) (id : ObjectId) (i n : nat)
  (s : Store) (y : Transaction.t) :
  Transaction_findById i s = Some y ->
  Transaction_findById i (deactivates_at k id n s) = Some y.
Proof. unfold deactivates_at. now destruct (n =? k)%nat. Qed.

Lemma deactivates_at_ledger_In (k : nat) (id : ObjectId) (n : nat)
  (s : Store) (e : LedgerEntry.t) :
  In e (ledger s) -> In e (ledger (deactivates_at k id n s)).
Proof. unfold deactivates_at. now destruct (n =? k)%nat. Qed.


(** ** Two calls under one key, on the seeded store *)



(** ** The further properties on the seeded store *)

Lemma initial_ids_unique : account_ids_unique initial.
Proof.
  unfold account_ids_unique. simpl.
  repeat constructor; simpl; intuition discriminate.
Qed.

Lemma initial_nonnegative : balances_nonnegative initial.
Proof.
  unfold balances_nonnegative. simpl.
  repeat constructor; unfold Qle; simpl; lia.
Qed.

Lemma deactivates_at_ledger (k : nat) (id : ObjectId) (n : nat) (s : Store) :
  ledger (deactivates_at k id n s) = ledger s.
Proof. unfold deactivates_at. now destruct (n =? k)%nat. Qed.

Lemma inserts_at_nonnegative (k : nat) (x : Transaction.t) (n : nat)
  (s : Store) :
  balances_nonnegative s -> balances_nonnegative (inserts_at k x n s).
Proof. unfold inserts_at. now destruct (n =? k)%nat. Qed.

Lemma deactivates_at_keys_unique (k : nat) (id : ObjectId) (n : nat)
  (s : Store) :
  keys_unique s -> keys_unique (deactivates_at k id n s).
Proof. unfold deactivates_at. now destruct (n =? k)%nat. Qed.

(** user_bob is deactivated while his spend waits for the accounts: the
    request stops at its checks, and the store is the seeded one with the
    deactivation, nothing more. *)
Lemma no_insert_no_write_witness :
  let X := _executeTransfer show (deactivates_at 0 bob) spend_bob
             (init initial) in
  ((forall id, ~ In (EvTxCreate "s2-key-0001" gold (inr id)) (trace (snd X))) ->
   store (snd X) = env_upto (deactivates_at 0 bob) (clock (snd X)) initial) /\
  (forall e, fst X = inl e -> is_precheck_error e = true ->
     forallb is_read (trace (snd X)) = true /\
     store (snd X) = env_upto (deactivates_at 0 bob) (clock (snd X)) initial).
Proof.
  apply (no_insert_no_write show (deactivates_at 0 bob) spend_bob initial).
  apply surjective_pairing.
Defined.

(** user_bob spends 200 of his 150 GOLD while another worker inserts a
    transaction. *)
Lemma balances_stay_nonnegative_witness :
  balances_nonnegative
    (store (snd (_executeTransfer show (inserts_at 2 racing_tx) spend_bob
                   (init initial)))).
Proof.
  apply (balances_stay_nonnegative show (inserts_at 2 racing_tx)
           (inserts_at_nonnegative 2 racing_tx) spend_bob initial
           (fst (_executeTransfer show (inserts_at 2 racing_tx) spend_bob
                   (init initial)))).
  - exact initial_nonnegative.
  - apply surjective_pairing.
Defined.

(** The top-up of 100 GOLD for user_alice. *)
Lemma transfer_completes_witness :
  exists x d c w',
    _executeTransfer show quiet (topup_alice 100) (init initial)
    = (inr (x, false), w') /\
    Transaction.status x = completed /\
    Transaction.amount x = 100 /\
    Transaction.fromAccount x = treasury /\
    Transaction.toAccount x = alice /\
    Transaction.ledgerEntries x = [LedgerEntry._id d; LedgerEntry._id c] /\
    Transaction_findOne "t1-key-0001" gold (store w') = Some x /\
    ledger (store w') = [d; c] /\
    LedgerEntry.transactionId d = Transaction._id x /\
    LedgerEntry.account d = treasury /\
    LedgerEntry.entryType d = debit /\
    LedgerEntry.amount d = 100 /\
    LedgerEntry.balanceAfter d = 10000000 + - (100) /\
    LedgerEntry.transactionId c = Transaction._id x /\
    LedgerEntry.account c = alice /\
    LedgerEntry.entryType c = credit /\
    LedgerEntry.amount c = 100 /\
    LedgerEntry.balanceAfter c = 500 + 100 /\
    balance_of treasury (store w') = Some (10000000 + - (100)) /\
    balance_of alice (store w') = Some (500 + 100) /\
    (forall id, id <> treasury -> id <> alice ->
       balance_of id (store w') = balance_of id initial).
Proof.
  apply (transfer_completes show (topup_alice 100) (init initial)
           (account treasury "SYSTEM_TREASURY" system 10000000)
           (account alice "user_alice" user 500));
    first [discriminate | vm_compute; reflexivity].
Defined.


(** The top-up of user_alice, sent again after it completed. *)
Lemma keys_stay_unique_witness :
  keys_unique
    (store (snd (_executeTransfer show (deactivates_at 1 alice)
                   (topup_alice 100) (init after_topup)))).
Proof.
  apply (keys_stay_unique show (deactivates_at 1 alice)
           (deactivates_at_keys_unique 1 alice) (topup_alice 100) after_topup
           (fst (_executeTransfer show (deactivates_at 1 alice)
                   (topup_alice 100) (init after_topup)))).
  - unfold keys_unique. vm_compute. repeat constructor. intros [].
  - apply surjective_pairing.
Defined.

(** The seed gives user_alice 500 GOLD and no ledger entry: her wallet is
    inconsistent before the top-up of 100 GOLD, and after it. *)
Lemma integrity_is_preserved_witness :
  exists v' w2,
    verifyLedgerIntegrity quiet "user_alice" "GOLD" (init after_topup)
    = (inr v', w2) /\
    Integrity.computedBalance v' - Integrity.cachedBalance v' == 0 - 500 /\
    Integrity.isConsistent v' = false.
Proof.
  apply (integrity_is_preserved show (topup_alice 100) initial
           (topup_tx, false)
           (snd (_executeTransfer show quiet (topup_alice 100) (init initial)))
           "user_alice" "GOLD"
           (Integrity.mk "user_alice" "GOLD" 500 0 false)
           (mkWorld initial 2
              [EvAssetFindOne "GOLD"; EvAccountFindOne "user_alice" gold])).
  - exact initial_ids_unique.
  - vm_compute; reflexivity.
  - vm_compute; reflexivity.
  - vm_compute; reflexivity.
  - vm_compute; reflexivity.
Defined.

(** user_alice tops up 100 GOLD. *)
Lemma topUp_raises_balance_witness :
  exists b' w2,
    getBalance quiet "user_alice" "GOLD" (init after_topup) = (inr b', w2) /\
    BalanceView.accountId b' = alice /\
    BalanceView.balance b' == 500 + 100.
Proof.
  apply (topUp_raises_balance show "user_alice" "GOLD" "t1-key-0001" 100 []
           initial topup_tx
           (snd (topUp show quiet "user_alice" "GOLD" 100 "t1-key-0001" []
                   (init initial)))
           (BalanceView.mk "user_alice" "GOLD" "Gold Coins" 500 alice)
           (mkWorld initial 1
              [EvAssetFindOne "GOLD"; EvAccountFindOne "user_alice" gold])).
  - exact initial_ids_unique.
  - discriminate.
  - vm_compute; reflexivity.
  - vm_compute; reflexivity.
  - vm_compute; reflexivity.
  - vm_compute; reflexivity.
  - vm_compute; reflexivity.
Defined.

(** user_bob receives a bonus of 25 GOLD. *)
Lemma issueBonus_raises_balance_witness :
  let X := issueBonus show quiet "user_bob" "GOLD" 25 "b1-key-0001" "referral"
             [] (init initial) in
  exists b' w2,
    getBalance quiet "user_bob" "GOLD" (init (store (snd X))) = (inr b', w2) /\
    BalanceView.accountId b' = bob /\
    BalanceView.balance b' == 150 + 25.
Proof.
  apply (issueBonus_raises_balance show "user_bob" "GOLD" "b1-key-0001"
           "referral" 25 [] initial
           (Transaction.mk 1 "b1-key-0001" gold bonus_pool bob 25 TxType.bonus
              completed
              "Bonus issued: 25 GOLD to user user_bob — referral"
              [("reason", "referral")] [1%nat; 2%nat] None)
           _
           (BalanceView.mk "user_bob" "GOLD" "Gold Coins" 150 bob)
           (mkWorld initial 1
              [EvAssetFindOne "GOLD"; EvAccountFindOne "user_bob" gold])).
  - exact initial_ids_unique.
  - discriminate.
  - vm_compute; reflexivity.
  - vm_compute; reflexivity.
  - vm_compute; reflexivity.
  - vm_compute; reflexivity.
  - vm_compute; reflexivity.
Defined.

(** user_bob spends 50 of his 150 GOLD. *)
Lemma spend_lowers_balance_witness :
  let X := spend show quiet "user_bob" "GOLD" 50 "s3-key-0001" "sword" []
             (init initial) in
  exists b' w2,
    getBalance quiet "user_bob" "GOLD" (init (store (snd X))) = (inr b', w2) /\
    BalanceView.accountId b' = bob /\
    BalanceView.balance b' == 150 - 50 /\
    50 <= 150.
Proof.
  apply (spend_lowers_balance show "user_bob" "GOLD" "s3-key-0001" "sword" 50
           [] initial
           (Transaction.mk 1 "s3-key-0001" gold bob revenue 50 TxType.spend
              completed "Spend: 50 GOLD by user user_bob for item sword"
              [("itemId", "sword")] [1%nat; 2%nat] None)
           _
           (BalanceView.mk "user_bob" "GOLD" "Gold Coins" 150 bob)
           (mkWorld initial 1
              [EvAssetFindOne "GOLD"; EvAccountFindOne "user_bob" gold])).
  - exact initial_ids_unique.
  - discriminate.
  - vm_compute; reflexivity.
  - vm_compute; reflexivity.
  - vm_compute; reflexivity.
  - vm_compute; reflexivity.
Defined.

(** The first page of the history of user_alice after her top-up, with the
    entries in the reverse order of their insertion. *)
Lemma history_pages_witness :
  exists h w',
    getHistory (@rev LedgerEntry.t) quiet "user_alice" "GOLD" 1 20
      (init after_topup) = (inr h, w') /\
    exists (t : AssetType.t) (account : Account.t) (pages : nat),
      AssetType_findOne_active (toUpperCase "GOLD") after_topup = Some t /\
      Account_findOne "user_alice" (AssetType._id t) after_topup
      = Some account /\
      History.userId h = "user_alice"%string /\
      History.assetCode h = "GOLD"%string /\
      History.currentBalance h = Account.balance account /\
      Pagination.page (History.pagination h) = 1%nat /\
      Pagination.limit (History.pagination h) = 20%nat /\
      Pagination.total (History.pagination h)
      = LedgerEntry_count (Account._id account) after_topup /\
      Pagination.pages (History.pagination h) = Finite pages /\
      map HistoryEntry.id (History.entries h)
      = map LedgerEntry._id
          (firstn 20
             (skipn ((1 - 1) * 20)
                (rev (LedgerEntry_find (Account._id account) after_topup)))) /\
      (Pagination.total (History.pagination h) <= pages * 20)%nat /\
      (pages * 20 < Pagination.total (History.pagination h) + 20)%nat /\
      (length (History.entries h) <= 20)%nat /\
      ((1 < pages)%nat -> length (History.entries h) = 20%nat) /\
      (History.entries h = [] <-> (pages < 1)%nat).
Proof.
  do 2 eexists. split; [vm_compute; reflexivity|].
  eapply (history_pages (@rev LedgerEntry.t) quiet (@length_rev LedgerEntry.t)
           (fun _ _ => eq_refl) "user_alice" "GOLD" 1 20 after_topup);
    [lia | lia | vm_compute; reflexivity].
Defined.

(** The GOLD in the seeded store, before and after the top-up of
    user_alice. *)
Lemma total_balance_is_conserved_witness :
  total_balance gold (accounts after_topup)
  == total_balance gold (accounts initial).
Proof.
  apply (total_balance_is_conserved show (topup_alice 100) initial
           (topup_tx, false)
           (snd (_executeTransfer show quiet (topup_alice 100) (init initial)))
           gold).
  - exact initial_ids_unique.
  - vm_compute; reflexivity.
  - vm_compute; reflexivity.
Defined.

(** The wallet of user_bob, deactivated. *)
Lemma inactive_wallet_is_read_only_witness :
  let s := deactivate bob initial in
  (exists w,
     getBalance quiet "user_bob" "gold" (init s)
     = (inr (BalanceView.mk "user_bob" "GOLD" "Gold Coins" 150 bob), w)) /\
  (exists w,
     topUp show quiet "user_bob" "gold" 10 "t4-key-0001" [] (init s)
     = (inl (WalletInactive "user_bob"), w) /\
     store w = s /\ forallb is_read (trace w) = true) /\
  (exists w,
     issueBonus show quiet "user_bob" "gold" 10 "t4-key-0001" "referral" []
       (init s)
     = (inl (WalletInactive "user_bob"), w) /\
     store w = s /\ forallb is_read (trace w) = true) /\
  (exists w,
     spend show quiet "user_bob" "gold" 10 "t4-key-0001" "sword" [] (init s)
     = (inl (WalletInactive "user_bob"), w) /\
     store w = s /\ forallb is_read (trace w) = true) /\
  (exists w,
     getHistory (@rev LedgerEntry.t) quiet "user_bob" "gold" 1 20 (init s)
     = (inl (Thrown (WalletInactive "user_bob")), w)) /\
  (exists w,
     verifyLedgerIntegrity quiet "user_bob" "gold" (init s)
     = (inl (WalletInactive "user_bob"), w)).
Proof.
  apply (inactive_wallet_is_read_only show (@rev LedgerEntry.t) "user_bob"
           "gold" "t4-key-0001" "referral" "sword" 10 [] 1 20
           (deactivate bob initial)
           (AssetType.mk gold "GOLD" "Gold Coins" "Primary in-game currency"
              0 true)
           (Account.set_isActive false (account bob "user_bob" user 150)));
    vm_compute; reflexivity.
Defined.
